(** * libvbs: a scattered recording presented as one contiguous file

    A shallow embedding of [src/evlbi5a/libvbs.cc] (jive5ab): the chunk
    record, the ordered chunk set, the two discovery strategies (FlexBuff
    "scattered" chunks and Mark6 "block-header" files), the open-file
    object, the table of open files and the entry points
    [vbs_open], [mk6_open], [vbs_read], [vbs_lseek] and [vbs_close].

    The operating system the library talks to (files, directories and
    file descriptors) is a small deterministic model, so that every
    function of the library can be run on a concrete disk layout. *)

From Stdlib Require Import ZArith Lia Ascii String Strings.Byte.
From stdpp Require Import base option list gmap strings.

Local Open Scope Z_scope.

(* ================================================================== *)
(** * Machine integers *)
(* ================================================================== *)

(** Integers of the C++ code are carried by [Z]; every arithmetic result
    is brought back into the range of its type.  For the signed types
    this is the two's complement wrap-around of the target machine. *)

Definition wrap_signed (bits : Z) (z : Z) : Z :=
  (z + 2 ^ (bits - 1)) mod 2 ^ bits - 2 ^ (bits - 1).

Definition INT_MAX : Z := 2147483647.
Definition INT_MIN : Z := -2147483648.
Definition OFF_MAX : Z := 9223372036854775807.
Definition OFF_MIN : Z := -9223372036854775808.

(** [int] *)
Definition to_int (z : Z) : Z := wrap_signed 32 z.
(** [unsigned int] *)
Definition to_uint (z : Z) : Z := z mod 2 ^ 32.
(** [off_t] and [ssize_t] (64 bit, signed) *)
Definition to_off_t (z : Z) : Z := wrap_signed 64 z.
(** [size_t] and [unsigned long] (64 bit, unsigned) *)
Definition to_size_t (z : Z) : Z := z mod 2 ^ 64.

Definition int_range (z : Z) : Prop := INT_MIN <= z <= INT_MAX.
Definition off_t_range (z : Z) : Prop := OFF_MIN <= z <= OFF_MAX.

(** [errno] values (Linux numbering). *)
Definition ENOENT : Z := 2.
Definition EBADF : Z := 9.
Definition EFAULT : Z := 14.
Definition ENOTDIR : Z := 20.
Definition EISDIR : Z := 21.
Definition EINVAL : Z := 22.

(** [lseek(2)] whence values. *)
Definition SEEK_SET : Z := 0.
Definition SEEK_CUR : Z := 1.
Definition SEEK_END : Z := 2.

(** The two complaints the library raises as [vbs_except], told apart by
    their message: " found bogus stuff in write block header" and
    " duplicate insert for chunk". *)
Inductive vbs_failure : Type :=
  | bogus_block_header
  | duplicate_insert.

(** What a C++ function leaves behind: a value, or an exception on its
    way up.  The assertion macros are not part of the sources
    (ezexcept.h, dosyscall.h); they are read as the library uses them:
    [EZASSERT2(cond, vbs_except, info; cleanup)] evaluates [cond] and,
    when it is false, runs [cleanup] and throws [vbs_except];
    [ASSERT2_POS(call, info)] throws [syscallexception] when the call
    returns a negative value.  The directory helpers and the chunk
    constructor throw the raw [errno] value ([throw EINVAL],
    [throw errno]), which the handler in [vbs_open] turns into a
    [syscallexception]. *)
Inductive exception : Type :=
  | vbs_except (what : vbs_failure)
  | syscallexception
  | thrown_int (eno : Z).

Inductive outcome (A : Type) : Type :=
  | Ret (a : A)
  | Throw (e : exception).
Arguments Ret {A} a.
Arguments Throw {A} e.

(* ================================================================== *)
(** * escape *)
(* ================================================================== *)

Definition alphanum_str : string :=
  "_abcdefghijklmnopqrstuvwxyzABCDEFGHIJKLMNOPQRSTUVWXYZ01234567890".

(** [std::string::find(char)]: the index of the first occurrence of [c]
    at or after position [i]; [None] is [string::npos]. *)
Fixpoint string_find (c : ascii) (s : string) (i : nat) : option nat :=
  match s with
  | EmptyString => None
  | String d r => if Ascii.eqb d c then Some i else string_find c r (S i)
  end.

(** [escape]: walk [s]; whenever the character is not found in
    [alphanum_str] a backslash is written first, then the loop increment
    [*output++ = *p++] writes the character itself. *)
Fixpoint escape (s : string) : string :=
  match s with
  | EmptyString => EmptyString
  | String c r =>
      match string_find c alphanum_str 0 with
      | None => String "\" (String c (escape r))
      | Some _ => String c (escape r)
      end
  end.

(** The character class [[A-Za-z0-9_]], by its ranges: the reading of the
    class in the specification, against which [escape] is compared. *)
Definition word_char (c : ascii) : bool :=
  let n := nat_of_ascii c in
  ((65 <=? n)%nat && (n <=? 90)%nat)
  || ((97 <=? n)%nat && (n <=? 122)%nat)
  || ((48 <=? n)%nat && (n <=? 57)%nat)
  || (n =? 95)%nat.

(** The specification's reading of [escape]: every character outside the
    class is preceded by a backslash, the others are copied. *)
Fixpoint escape_by_class (s : string) : string :=
  match s with
  | EmptyString => EmptyString
  | String c r =>
      if word_char c then String c (escape_by_class r)
      else String "\" (String c (escape_by_class r))
  end.

Fixpoint string_forallb (p : ascii -> bool) (s : string) : bool :=
  match s with
  | EmptyString => true
  | String c r => p c && string_forallb p r
  end.

(** Dropping the backslash in front of each escaped character. *)
Fixpoint unescape (s : string) : string :=
  match s with
  | EmptyString => EmptyString
  | String c r =>
      if Ascii.eqb c "\" then
        match r with
        | EmptyString => EmptyString
        | String d r' => String d (unescape r')
        end
      else String c (unescape r)
  end.

(* ================================================================== *)
(** * The chunk record and the ordered chunk set *)
(* ================================================================== *)

Definition invalidFileDescriptor : Z := INT_MAX.

Record filechunk_type : Type := mk_filechunk {
  pathToChunk : string;
  chunkSize : Z;      (* off_t *)
  chunkPos : Z;       (* off_t *)
  chunkFd : Z;        (* mutable int *)
  chunkOffset : Z;    (* mutable off_t *)
  chunkNumber : Z     (* unsigned int *)
}.

Definition set_chunkFd (c : filechunk_type) (fd : Z) : filechunk_type :=
  mk_filechunk (pathToChunk c) (chunkSize c) (chunkPos c) fd
               (chunkOffset c) (chunkNumber c).

Definition set_chunkOffset (c : filechunk_type) (off : Z) : filechunk_type :=
  mk_filechunk (pathToChunk c) (chunkSize c) (chunkPos c) (chunkFd c)
               off (chunkNumber c).

(** The constructor of a Mark6 chunk: the descriptor is stored negated. *)
Definition mk6_filechunk (chunk fpos sz fd : Z) : filechunk_type :=
  mk_filechunk EmptyString sz fpos (to_int (- fd)) 0 chunk.

(** The copy constructor: only a Mark6 (negative) descriptor is copied; a
    FlexBuff chunk starts over with no descriptor. *)
Definition copy_filechunk (other : filechunk_type) : filechunk_type :=
  set_chunkFd other
    (if chunkFd other <? 0 then chunkFd other else invalidFileDescriptor).

(** [owns_descriptor c]: the test of [close_chunk] and of the destructor,
    [chunkFd>=0 && chunkFd!=invalidFileDescriptor]. *)
Definition owns_descriptor (c : filechunk_type) : bool :=
  (0 <=? chunkFd c) && negb (chunkFd c =? invalidFileDescriptor).

(** [set<filechunk_type>], ordered by [operator<], that is by
    [chunkNumber] alone: the list of its elements in iteration order. *)
Abbreviation filechunks_type := (list filechunk_type).

(** [set::insert]: the element is copied in at its place unless an
    equivalent one (same [chunkNumber]) is present; the flag is the
    [.second] of the returned pair. *)
Fixpoint set_insert (c : filechunk_type) (s : filechunks_type)
  : filechunks_type * bool :=
  match s with
  | [] => ([copy_filechunk c], true)
  | x :: r =>
      if chunkNumber c <? chunkNumber x then (copy_filechunk c :: s, true)
      else if chunkNumber x <? chunkNumber c then
        let '(r', fresh) := set_insert c r in (x :: r', fresh)
      else (s, false)
  end.

(** Strictly increasing chunk numbers: what iteration over the set
    guarantees. *)
Fixpoint chunks_sorted (s : filechunks_type) : Prop :=
  match s with
  | [] => True
  | x :: r => Forall (fun y => chunkNumber x < chunkNumber y) r /\ chunks_sorted r
  end.

(* ================================================================== *)
(** * The open file *)
(* ================================================================== *)

(** [chunkPtr] is an iterator into [fileChunks]; the set is never changed
    after construction, so the iterator is the index of the element and
    [fileChunks.end()] is the length. *)
Record openfile_type : Type := mk_openfile {
  filePointer : Z;
  fileSize : Z;
  fileChunks : filechunks_type;
  chunkPtr : nat
}.

(** The loop of the constructor: [chunkOffset = fileSize; fileSize +=
    chunkSize] along the set; returns the chunks and the final size. *)
Fixpoint assign_offsets (fileSize : Z) (chunks : filechunks_type)
  : filechunks_type * Z :=
  match chunks with
  | [] => ([], fileSize)
  | c :: r =>
      let '(r', total) := assign_offsets (to_off_t (fileSize + chunkSize c)) r in
      (set_chunkOffset c fileSize :: r', total)
  end.

(** [openfile_type(filechunks_type const& fcs)] *)
Definition openfile_ctor (fcs : filechunks_type) : openfile_type :=
  let '(chunks, total) := assign_offsets 0 (map copy_filechunk fcs) in
  mk_openfile 0 total chunks 0.

(** [openfile_type(openfile_type const& other)] *)
Definition openfile_copy (other : openfile_type) : openfile_type :=
  mk_openfile 0 (fileSize other) (map copy_filechunk (fileChunks other)) 0.

(* ================================================================== *)
(** * The operating system *)
(* ================================================================== *)

(** A file system of regular files and directories, addressed by full
    path, and a table of open descriptors.  Nothing in the library
    writes, so a descriptor carries the node it was opened on and its
    file position. *)
Inductive inode : Type :=
  | RegularFile (data : list byte)
  | Directory (entries : list string).

Record open_fd : Type := mk_open_fd {
  fd_node : inode;
  fd_pos : Z
}.

Record os_state : Type := mk_os {
  os_files : gmap string inode;
  os_fds : gmap Z open_fd;
  os_errno : Z
}.

Definition set_errno (e : Z) (os : os_state) : os_state :=
  mk_os (os_files os) (os_fds os) e.

Definition set_fds (fds : gmap Z open_fd) (os : os_state) : os_state :=
  mk_os (os_files os) fds (os_errno os).

(** The lowest descriptor number not in use. *)
Fixpoint lowest_free (fds : gmap Z open_fd) (n : nat) (cand : Z) : Z :=
  match n with
  | O => cand
  | S n' =>
      match fds !! cand with
      | Some _ => lowest_free fds n' (cand + 1)
      | None => cand
      end
  end.

Definition fresh_fd (fds : gmap Z open_fd) : Z := lowest_free fds (size fds) 0.

(** [lstat(2)]: the node at [path], or failure with [ENOENT]. *)
Definition sys_lstat (path : string) (os : os_state) : os_state * option inode :=
  match os_files os !! path with
  | Some node => (os, Some node)
  | None => (set_errno ENOENT os, None)
  end.

(** [open(path, O_RDONLY)] *)
Definition sys_open (path : string) (os : os_state) : os_state * Z :=
  match os_files os !! path with
  | Some node =>
      let fd := fresh_fd (os_fds os) in
      (set_fds (<[fd := mk_open_fd node 0]> (os_fds os)) os, fd)
  | None => (set_errno ENOENT os, -1)
  end.

(** [close(2)] *)
Definition sys_close (fd : Z) (os : os_state) : os_state * Z :=
  match os_fds os !! fd with
  | Some _ => (set_fds (delete fd (os_fds os)) os, 0)
  | None => (set_errno EBADF os, -1)
  end.

Definition node_length (node : inode) : Z :=
  match node with
  | RegularFile data => Z.of_nat (length data)
  | Directory _ => 0
  end.

(** [lseek(2)] *)
Definition sys_lseek (fd offset whence : Z) (os : os_state) : os_state * Z :=
  match os_fds os !! fd with
  | None => (set_errno EBADF os, -1)
  | Some o =>
      let base :=
        if whence =? SEEK_SET then Some 0
        else if whence =? SEEK_CUR then Some (fd_pos o)
        else if whence =? SEEK_END then Some (node_length (fd_node o))
        else None in
      match base with
      | None => (set_errno EINVAL os, -1)
      | Some b =>
          let pos := b + offset in
          if (pos <? 0) || (OFF_MAX <? pos) then (set_errno EINVAL os, -1)
          else (set_fds (<[fd := mk_open_fd (fd_node o) pos]> (os_fds os)) os, pos)
      end
  end.

(** [read(2)]: the bytes delivered and the return value: as many bytes
    as the file has from the current position on, at most [count]; zero
    at or past the end of the file; [-1] on a bad descriptor or a
    directory. *)
Definition sys_read (fd count : Z) (os : os_state) : os_state * Z * list byte :=
  match os_fds os !! fd with
  | None => (set_errno EBADF os, -1, [])
  | Some o =>
      match fd_node o with
      | Directory _ => (set_errno EISDIR os, -1, [])
      | RegularFile data =>
          let bytes := take (Z.to_nat count) (drop (Z.to_nat (fd_pos o)) data) in
          let n := Z.of_nat (length bytes) in
          (set_fds (<[fd := mk_open_fd (fd_node o) (fd_pos o + n)]> (os_fds os)) os,
           n, bytes)
      end
  end.

(** [opendir(3)]: the entries of the directory, [None] for the null
    [DIR*]. *)
Definition sys_opendir (path : string) (os : os_state)
  : os_state * option (list string) :=
  match os_files os !! path with
  | Some (Directory entries) => (os, Some entries)
  | Some (RegularFile _) => (set_errno ENOTDIR os, None)
  | None => (set_errno ENOENT os, None)
  end.

(* ================================================================== *)
(** * Sets of strings and of integers *)
(* ================================================================== *)

(** [direntries_type] and [dir_filter] come from
    directory_helper_templates.h, which is not part of the sources; they
    are read as the library uses them: a [std::set<std::string>], given
    by its elements in iteration order, and the set of the entries of a
    directory that satisfy a predicate. *)
Abbreviation direntries_type := (list string).

Fixpoint direntries_insert (e : string) (s : direntries_type) : direntries_type :=
  match s with
  | [] => [e]
  | x :: r =>
      if String.ltb e x then e :: s
      else if String.ltb x e then x :: direntries_insert e r
      else s
  end.

Definition direntries_of_list (l : list string) : direntries_type :=
  fold_left (fun s e => direntries_insert e s) l [].

(** [dir_filter(dirp, predicate)] *)
Definition dir_filter (entries : list string) (predicate : string -> bool)
  : direntries_type :=
  direntries_of_list (List.filter predicate entries).

(** [fdset_type], a [std::set<int>]. *)
Fixpoint fdset_insert (e : Z) (s : list Z) : list Z :=
  match s with
  | [] => [e]
  | x :: r =>
      if e <? x then e :: s
      else if x <? e then x :: fdset_insert e r
      else s
  end.

(* ================================================================== *)
(** * Discovery of FlexBuff (scattered) recordings *)
(* ================================================================== *)

(** [string::find_last_of(c)]: the index of the last occurrence. *)
Fixpoint find_last_of (c : ascii) (s : string) (i : nat) : option nat :=
  match s with
  | EmptyString => None
  | String d r =>
      match find_last_of c r (S i) with
      | Some j => Some j
      | None => if Ascii.eqb d c then Some i else None
      end
  end.

(** [string::substr(pos)] *)
Fixpoint substr_from (pos : nat) (s : string) : string :=
  match pos, s with
  | O, _ => s
  | S p, String _ r => substr_from p r
  | S _, EmptyString => EmptyString
  end.

Definition is_digit (c : ascii) : bool :=
  let n := nat_of_ascii c in (48 <=? n)%nat && (n <=? 57)%nat.

Definition ULONG_MAX : Z := 2 ^ 64 - 1.

(** [strtoul(s, 0, 10)] on a string that begins with its digits (the
    constructor below only sees names that passed the eight-digit
    filter): the decimal value of the leading digits, [ULONG_MAX] once
    the value no longer fits. *)
Fixpoint strtoul10 (acc : Z) (s : string) : Z :=
  match s with
  | EmptyString => acc
  | String c r =>
      if is_digit c
      then strtoul10 (Z.min ULONG_MAX (acc * 10 + (Z.of_nat (nat_of_ascii c) - 48))) r
      else acc
  end.

(** [filechunk_type(string const& fnm)]: the chunk of a FlexBuff file.
    Throws [EINVAL] when the name has no dot and [errno] when the file
    cannot be opened; the size is what [lseek(fd, 0, SEEK_END)] returns. *)
Definition flexbuff_filechunk (fnm : string) (os : os_state)
  : os_state * outcome filechunk_type :=
  match find_last_of "." fnm 0 with
  | None => (os, Throw (thrown_int EINVAL))
  | Some dot =>
      let '(os1, fd) := sys_open fnm os in
      if fd <? 0 then (os1, Throw (thrown_int (os_errno os1)))
      else
        let '(os2, sz) := sys_lseek fd 0 SEEK_END os1 in
        let '(os3, _) := sys_close fd os2 in
        (os3, Ret (mk_filechunk fnm sz 0 invalidFileDescriptor 0
                     (to_uint (strtoul10 0 (substr_from (S dot) fnm)))))
  end.

(** [~filechunk_type()]: a descriptor the chunk owns is closed. *)
Definition filechunk_dtor (c : filechunk_type) (os : os_state) : os_state :=
  if owns_descriptor c then fst (sys_close (chunkFd c) os) else os.

(** Modelled from the spec: [Regular_Expression] (regular_expression.h)
    is not part of the sources.  The patterns the library compiles are
    ["^" + escape(recname) + "\.[0-9]{8}$"]; matching one is matching
    the escaped name literally (a backslash makes the next character
    literal, a word character stands for itself), then a dot and exactly
    eight decimal digits up to the end of the entry. *)
Fixpoint match_escaped (pattern entry : string) : option string :=
  match pattern with
  | EmptyString => Some entry
  | String p pr =>
      if Ascii.eqb p "\" then
        match pr, entry with
        | String q pr', String e er =>
            if Ascii.eqb q e then match_escaped pr' er else None
        | _, _ => None
        end
      else
        match entry with
        | String e er => if Ascii.eqb p e then match_escaped pr er else None
        | EmptyString => None
        end
  end.

Definition dot_and_eight_digits (s : string) : bool :=
  match s with
  | String c d =>
      Ascii.eqb c "." && (String.length d =? 8)%nat && string_forallb is_digit d
  | EmptyString => false
  end.

(** [isRecordingChunk(recname)(entry)] *)
Definition isRecordingChunk (recname entry : string) : bool :=
  match match_escaped (escape recname) entry with
  | Some rest => dot_and_eight_digits rest
  | None => false
  end.

(** The insert loop of [scanRecordingDirectory]: each name becomes a
    chunk that is inserted into [rv]; [EZASSERT2] throws [vbs_except]
    when the insert reports a duplicate. *)
Fixpoint insert_directory_chunks (dir : string) (names : list string)
    (rv : filechunks_type) (os : os_state)
  : os_state * outcome filechunks_type :=
  match names with
  | [] => (os, Ret rv)
  | p :: rest =>
      match flexbuff_filechunk (dir +:+ "/" +:+ p) os with
      | (os1, Throw e) => (os1, Throw e)
      | (os1, Ret tmp) =>
          let '(rv1, fresh) := set_insert tmp rv in
          let os2 := filechunk_dtor tmp os1 in
          if fresh then insert_directory_chunks dir rest rv1 os2
          else (os2, Throw (vbs_except duplicate_insert))
      end
  end.

Definition scanRecordingDirectory (recname dir : string)
    (rv : filechunks_type) (os : os_state)
  : os_state * outcome filechunks_type :=
  match sys_opendir dir os with
  | (os1, None) => (os1, Ret rv)
  | (os1, Some entries) =>
      insert_directory_chunks dir (dir_filter entries (isRecordingChunk recname)) rv os1
  end.

Definition scanRecordingMountpoint (recname mp : string)
    (fcs : filechunks_type) (os : os_state)
  : os_state * outcome filechunks_type :=
  let dir := mp +:+ "/" +:+ recname in
  match sys_lstat dir os with
  | (os1, None) => (os1, Ret fcs)
  | (os1, Some (RegularFile _)) => (os1, Ret fcs)
  | (os1, Some (Directory _)) => scanRecordingDirectory recname dir fcs os1
  end.

Fixpoint scanRecording (recname : string) (mountpoints : direntries_type)
    (fcs : filechunks_type) (os : os_state)
  : os_state * outcome filechunks_type :=
  match mountpoints with
  | [] => (os, Ret fcs)
  | mp :: rest =>
      match scanRecordingMountpoint recname mp fcs os with
      | (os1, Ret fcs1) => scanRecording recname rest fcs1 os1
      | (os1, Throw e) => (os1, Throw e)
      end
  end.

(* ================================================================== *)
(** * Discovery of Mark6 (block-header) recordings *)
(* ================================================================== *)

(** The layout of the two Mark6 headers comes from mk6info.h, which is
    not part of the sources: the sizes of the two structures, the reading
    of the fields the scan consults and the sync word are parameters. *)
Record mk6_format : Type := mk_mk6_format {
  fh_size : Z;                      (* sizeof(mk6_file_header) *)
  wbh_size : Z;                     (* sizeof(mk6_wb_header_v2) *)
  fh_sync_word : list byte -> Z;    (* fh6->sync_word *)
  fh_version : list byte -> Z;      (* fh6->version *)
  wbh_blocknum : list byte -> Z;    (* wbh->blocknum, an int32 *)
  wbh_wb_size : list byte -> Z;     (* wbh->wb_size, an int32 *)
  MARK6_SG_SYNC_WORD : Z
}.

(** The loop of [scanMk6RecordingFile].  [fuel] bounds the number of
    iterations; [None] means the bound was reached.  The temporary chunk
    built for the insert is destroyed at the end of the full expression,
    before [EZASSERT2] runs its cleanup ([::close(fd)]) and throws. *)
Fixpoint scanMk6_loop (fmt : mk6_format) (fuel : nat) (fd fpos : Z)
    (rv : filechunks_type) (os : os_state)
  : option (os_state * outcome filechunks_type) :=
  match fuel with
  | O => None
  | S fuel' =>
      let '(os1, n, wbh) := sys_read fd (wbh_size fmt) os in
      if negb (n =? wbh_size fmt) then Some (os1, Ret rv)
      else if negb ((0 <=? wbh_blocknum fmt wbh) && (0 <? wbh_wb_size fmt wbh))
      then Some (fst (sys_close fd os1), Throw (vbs_except bogus_block_header))
      else
        let fpos1 := to_off_t (fpos + wbh_size fmt) in
        let tmp := mk6_filechunk (to_uint (wbh_blocknum fmt wbh)) fpos1
                     (to_off_t (to_size_t (wbh_wb_size fmt wbh - wbh_size fmt))) fd in
        let '(rv1, fresh) := set_insert tmp rv in
        let os2 := filechunk_dtor tmp os1 in
        if negb fresh
        then Some (fst (sys_close fd os2), Throw (vbs_except duplicate_insert))
        else
          let fpos2 := to_off_t (fpos1 + to_size_t (wbh_wb_size fmt wbh - wbh_size fmt)) in
          let '(os3, r) := sys_lseek fd fpos2 SEEK_SET os2 in
          if r =? -1 then Some (os3, Ret rv1)
          else scanMk6_loop fmt fuel' fd fpos2 rv1 os3
  end.

Definition scanMk6RecordingFile (fmt : mk6_format) (fuel : nat) (file : string)
    (rv : filechunks_type) (os : os_state)
  : option (os_state * outcome filechunks_type) :=
  let '(os1, fd) := sys_open file os in
  if fd <? 0 then Some (os1, Throw syscallexception)
  else
    let '(os2, n, fh6) := sys_read fd (fh_size fmt) os1 in
    if negb (n =? fh_size fmt) then Some (fst (sys_close fd os2), Ret rv)
    else if negb (fh_sync_word fmt fh6 =? MARK6_SG_SYNC_WORD fmt)
    then Some (fst (sys_close fd os2), Ret rv)
    else if negb (fh_version fmt fh6 =? 2)
    then Some (fst (sys_close fd os2), Ret rv)
    else scanMk6_loop fmt fuel fd (fh_size fmt) rv os2.

(** The merge at the end of [scanMk6RecordingMountpoint_thrd]: every
    chunk of the local set is inserted into the shared one; for a chunk
    whose number is taken the insert does nothing and the chunk number is
    written to the debug log (the second component). *)
Fixpoint merge_chunks (lcl shared : filechunks_type)
  : filechunks_type * list Z :=
  match lcl with
  | [] => (shared, [])
  | curfc :: rest =>
      let '(shared1, fresh) := set_insert curfc shared in
      let '(shared2, log) := merge_chunks rest shared1 in
      (shared2, if fresh then log else chunkNumber curfc :: log)
  end.

(** [scanMk6RecordingMountpoint_thrd], the worker of one mountpoint. *)
Definition scanMk6RecordingMountpoint_thrd (fmt : mk6_format) (fuel : nat)
    (recname mp : string) (shared : filechunks_type) (os : os_state)
  : option (os_state * outcome (filechunks_type * list Z)) :=
  let file := mp +:+ "/" +:+ recname in
  match sys_lstat file os with
  | (os1, None) => Some (os1, Ret (shared, []))
  | (os1, Some (Directory _)) => Some (os1, Ret (shared, []))
  | (os1, Some (RegularFile _)) =>
      match scanMk6RecordingFile fmt fuel file [] os1 with
      | None => None
      | Some (os2, Throw e) => Some (os2, Throw e)
      | Some (os2, Ret lcl) => Some (os2, Ret (merge_chunks lcl shared))
      end
  end.

(** [scanMk6Recording]: one worker per mountpoint, joined before the
    function returns.  The workers only meet in the merge, which the
    mutex makes atomic; they are run here one after the other, in the
    order the threads are created. *)
Fixpoint scanMk6Recording (fmt : mk6_format) (fuel : nat) (recname : string)
    (mountpoints : direntries_type) (fcs : filechunks_type) (os : os_state)
  : option (os_state * outcome filechunks_type) :=
  match mountpoints with
  | [] => Some (os, Ret fcs)
  | mp :: rest =>
      match scanMk6RecordingMountpoint_thrd fmt fuel recname mp fcs os with
      | None => None
      | Some (os1, Throw e) => Some (os1, Throw e)
      | Some (os1, Ret (fcs1, _)) => scanMk6Recording fmt fuel recname rest fcs1 os1
      end
  end.

(* ================================================================== *)
(** * The table of open files and the open calls *)
(* ================================================================== *)

Record process : Type := mk_process {
  openedFiles : gmap Z openfile_type;
  proc_os : os_state
}.

Definition with_os (p : process) (os : os_state) : process :=
  mk_process (openedFiles p) os.

Definition with_errno (p : process) (e : Z) : process :=
  mk_process (openedFiles p) (set_errno e (proc_os p)).

(** [openedFiles.begin()->first]: the smallest key of the map. *)
Definition begin_key (m : gmap Z openfile_type) : option Z :=
  match (map_to_list m).*1 with
  | [] => None
  | k :: r => Some (foldr Z.min k r)
  end.

(** The descriptor handed out by [vbs_open] and [mk6_open]. *)
Definition new_handle (m : gmap Z openfile_type) : Z :=
  match begin_key m with
  | None => INT_MAX
  | Some first => to_int (first - 1)
  end.

(** [std::map::insert]: an existing entry is kept. *)
Definition map_insert_new (fd : Z) (f : openfile_type)
    (m : gmap Z openfile_type) : gmap Z openfile_type :=
  match m !! fd with
  | Some _ => m
  | None => <[fd := f]> m
  end.

(** The common tail of [vbs_open] and [mk6_open]: [ENOENT] for an empty
    chunk set, otherwise a new entry in the table.  The entry is a copy
    of the temporary [openfile_type(chunks)]. *)
Definition install_chunks (chunks : filechunks_type) (p : process)
  : process * outcome Z :=
  match chunks with
  | [] => (with_errno p ENOENT, Ret (-1))
  | _ :: _ =>
      let fd := new_handle (openedFiles p) in
      (mk_process (map_insert_new fd (openfile_copy (openfile_ctor chunks))
                     (openedFiles p)) (proc_os p),
       Ret fd)
  end.

(** [vbs_open(recname, rootdirs)]; a null pointer is [None].  An [int]
    thrown by the scan is rethrown as [syscallexception]. *)
Definition vbs_open (recname : option string) (rootdirs : option (list string))
    (p : process) : process * outcome Z :=
  match recname, rootdirs with
  | Some (String c n), Some dirs =>
      let name := String c n in
      let newmps := direntries_of_list dirs in
      match scanRecording name newmps [] (proc_os p) with
      | (os1, Throw (thrown_int _)) => (with_os p os1, Throw syscallexception)
      | (os1, Throw e) => (with_os p os1, Throw e)
      | (os1, Ret chunks) => install_chunks chunks (with_os p os1)
      end
  | _, _ => (with_errno p EINVAL, Ret (-1))
  end.

(** [mk6_open(recname, rootdirs)] *)
Definition mk6_open (fmt : mk6_format) (fuel : nat)
    (recname : option string) (rootdirs : option (list string))
    (p : process) : option (process * outcome Z) :=
  match recname, rootdirs with
  | Some (String c n), Some dirs =>
      let name := String c n in
      let newmps := direntries_of_list dirs in
      match scanMk6Recording fmt fuel name newmps [] (proc_os p) with
      | None => None
      | Some (os1, Throw e) => Some (with_os p os1, Throw e)
      | Some (os1, Ret chunks) => Some (install_chunks chunks (with_os p os1))
      end
  | _, _ => Some (with_errno p EINVAL, Ret (-1))
  end.

(* ================================================================== *)
(** * Reading, seeking and closing *)
(* ================================================================== *)

(** [filechunk_type::open_chunk]: a FlexBuff chunk without descriptor is
    opened now; the result is the descriptor to read from, or
    [invalidFileDescriptor]. *)
Definition open_chunk (c : filechunk_type) (os : os_state)
  : filechunk_type * os_state * Z :=
  let os0 := set_errno 0 os in
  let '(c1, os1) :=
    if chunkFd c =? invalidFileDescriptor then
      let '(os', fd) := sys_open (pathToChunk c) os0 in
      (set_chunkFd c (if fd =? -1 then invalidFileDescriptor else fd), os')
    else (c, os0) in
  (c1, os1, if chunkFd c1 <? 0 then to_int (- chunkFd c1) else chunkFd c1).

(** [filechunk_type::close_chunk] *)
Definition close_chunk (c : filechunk_type) (os : os_state)
  : filechunk_type * os_state :=
  if owns_descriptor c
  then (set_chunkFd c invalidFileDescriptor, fst (sys_close (chunkFd c) os))
  else (c, os).

Definition set_chunk (f : openfile_type) (i : nat) (c : filechunk_type)
  : openfile_type :=
  mk_openfile (filePointer f) (fileSize f) (<[i := c]> (fileChunks f)) (chunkPtr f).

(** The variables of the read loop: the system, the open file, the
    number of bytes still wanted and what has been stored through
    [bufc] so far. *)
Record read_state : Type := mk_read_state {
  rs_os : os_state;
  rs_of : openfile_type;
  rs_nr : Z;              (* size_t *)
  rs_out : list byte
}.

Inductive loop_step : Type :=
  | Continue (s : read_state)
  | Break (s : read_state).

(** One evaluation of the loop condition and body of [vbs_read]. *)
Definition read_step (s : read_state) : loop_step :=
  let f := rs_of s in
  if rs_nr s =? 0 then Break s
  else
    match fileChunks f !! chunkPtr f with
    | None => Break s
    | Some chunk =>
        let n2r := Z.min (to_off_t (rs_nr s))
                     (to_off_t (to_off_t (chunkOffset chunk + chunkSize chunk)
                                - filePointer f)) in
        if n2r <=? 0 then
          let '(chunk1, os1) := close_chunk chunk (rs_os s) in
          Continue (mk_read_state os1
                      (mk_openfile (filePointer f) (fileSize f)
                         (<[chunkPtr f := chunk1]> (fileChunks f))
                         (S (chunkPtr f)))
                      (rs_nr s) (rs_out s))
        else
          let '(chunk1, os1, realfd) := open_chunk chunk (rs_os s) in
          let f1 := set_chunk f (chunkPtr f) chunk1 in
          if realfd =? invalidFileDescriptor
          then Break (mk_read_state os1 f1 (rs_nr s) (rs_out s))
          else
            let '(os2, _) :=
              sys_lseek realfd
                (to_off_t (filePointer f - chunkOffset chunk + chunkPos chunk))
                SEEK_SET os1 in
            let '(os3, actualread, bytes) := sys_read realfd (to_size_t n2r) os2 in
            if actualread <? 0
            then Break (mk_read_state os3 f1 (rs_nr s) (rs_out s))
            else
              Continue (mk_read_state os3
                          (mk_openfile (to_off_t (filePointer f + actualread))
                             (fileSize f1) (fileChunks f1) (chunkPtr f1))
                          (to_size_t (rs_nr s - actualread))
                          (rs_out s ++ bytes))
    end.

(** The [while] loop, at most [fuel] iterations; [None] when the loop is
    still running after that many. *)
Fixpoint read_loop (fuel : nat) (s : read_state) : option read_state :=
  match fuel with
  | O => None
  | S fuel' =>
      match read_step s with
      | Break s' => Some s'
      | Continue s' => read_loop fuel' s'
      end
  end.

(** The result of a read: the return value and the bytes stored in the
    buffer. *)
Record read_result : Type := mk_read_result {
  rr_ret : Z;             (* ssize_t *)
  rr_data : list byte
}.

(** [vbs_read(fd, buf, count)]; [buf] is the address of the buffer, zero
    for the null pointer. *)
Definition vbs_read (fuel : nat) (fd buf count : Z) (p : process)
  : option (process * read_result) :=
  match openedFiles p !! fd with
  | None => Some (with_errno p EBADF, mk_read_result (-1) [])
  | Some f =>
      if buf =? 0 then Some (with_errno p EFAULT, mk_read_result (-1) [])
      else if count =? 0 then Some (p, mk_read_result 0 [])
      else
        match fileChunks f !! chunkPtr f with
        | None => Some (p, mk_read_result 0 [])
        | Some _ =>
            match read_loop fuel (mk_read_state (proc_os p) f count []) with
            | None => None
            | Some s =>
                Some (mk_process (<[fd := rs_of s]> (openedFiles p)) (rs_os s),
                      mk_read_result (to_off_t (count - rs_nr s)) (rs_out s))
            end
        end
  end.

(** The position a seek asks for; [None] for an unknown [whence]. *)
Definition seek_target (f : openfile_type) (offset whence : Z) : option Z :=
  if whence =? SEEK_SET then Some offset
  else if whence =? SEEK_END then Some (to_off_t (fileSize f + offset))
  else if whence =? SEEK_CUR then Some (to_off_t (filePointer f + offset))
  else None.

(** The search loop of [vbs_lseek]: from the chunk with index [i] on,
    step over every chunk with [newfp > chunkOffset + chunkSize]. *)
Fixpoint skip_chunks (newfp : Z) (chunks : filechunks_type) (i : nat) : nat :=
  match chunks with
  | [] => i
  | c :: r =>
      if to_off_t (chunkOffset c + chunkSize c) <? newfp
      then skip_chunks newfp r (S i)
      else i
  end.

(** [vbs_lseek(fd, offset, whence)] *)
Definition vbs_lseek (fd offset whence : Z) (p : process) : process * Z :=
  match openedFiles p !! fd with
  | None => (with_errno p EBADF, -1)
  | Some f =>
      match seek_target f offset whence with
      | None => (with_errno p EINVAL, -1)
      | Some newfp =>
          if newfp <? 0 then (with_errno p EINVAL, -1)
          else if newfp =? filePointer f then (p, filePointer f)
          else
            let newchunk := skip_chunks newfp (fileChunks f) 0 in
            let '(chunks1, os1) :=
              match fileChunks f !! chunkPtr f with
              | Some old =>
                  if negb (chunkPtr f =? newchunk)%nat then
                    let '(old1, os') := close_chunk old (proc_os p) in
                    (<[chunkPtr f := old1]> (fileChunks f), os')
                  else (fileChunks f, proc_os p)
              | None => (fileChunks f, proc_os p)
              end in
            (mk_process
               (<[fd := mk_openfile newfp (fileSize f) chunks1 newchunk]>
                  (openedFiles p))
               os1,
             newfp)
      end
  end.

(** [~openfile_type()]: every chunk is closed, in order. *)
Fixpoint close_all_chunks (chunks : filechunks_type) (os : os_state) : os_state :=
  match chunks with
  | [] => os
  | c :: r => close_all_chunks r (snd (close_chunk c os))
  end.

Fixpoint close_fds (fds : list Z) (os : os_state) : os_state :=
  match fds with
  | [] => os
  | p :: r => close_fds r (fst (sys_close (to_int (- p)) os))
  end.

(** [vbs_close(fd)] *)
Definition vbs_close (fd : Z) (p : process) : process * Z :=
  match openedFiles p !! fd with
  | None => (with_errno p EBADF, -1)
  | Some f =>
      let mk6fds :=
        fold_left (fun s c => if chunkFd c <? 0 then fdset_insert (chunkFd c) s else s)
                  (fileChunks f) [] in
      let os1 := close_all_chunks (fileChunks f) (proc_os p) in
      (mk_process (delete fd (openedFiles p)) (close_fds mk6fds os1), 0)
  end.

(* ================================================================== *)
(** * Well-formed open files *)
(* ================================================================== *)

(** No addition of the constructor's loop leaves the range of [off_t]
    (a signed overflow has no defined result in C++). *)
Fixpoint sums_in_range (acc : Z) (chunks : filechunks_type) : Prop :=
  match chunks with
  | [] => True
  | c :: r => off_t_range (acc + chunkSize c) /\ sums_in_range (acc + chunkSize c) r
  end.

Definition total_size (chunks : filechunks_type) : Z :=
  foldr (fun c acc => chunkSize c + acc) 0 chunks.

(** Logical offsets without gaps: the first chunk starts at [start] and
    every chunk starts where its predecessor ends. *)
Fixpoint contiguous_from (start : Z) (chunks : filechunks_type) : Prop :=
  match chunks with
  | [] => True
  | c :: r => chunkOffset c = start /\ contiguous_from (start + chunkSize c) r
  end.

(** What the constructor establishes and the calls rely on. *)
Record openfile_wf (f : openfile_type) : Prop := mk_openfile_wf {
  wf_contiguous : contiguous_from 0 (fileChunks f);
  wf_sizes : Forall (fun c => 0 <= chunkSize c) (fileChunks f);
  wf_total : fileSize f = total_size (fileChunks f);
  wf_range : fileSize f <= OFF_MAX;
  wf_cursor : (chunkPtr f <= length (fileChunks f))%nat;
  wf_nonempty : fileChunks f <> []
}.

(** The position a seek asks for, in the words of the specification:
    [offset], position plus [offset], size plus [offset]. *)
Definition seek_position (f : openfile_type) (offset whence : Z) : option Z :=
  if whence =? SEEK_SET then Some offset
  else if whence =? SEEK_CUR then Some (filePointer f + offset)
  else if whence =? SEEK_END then Some (fileSize f + offset)
  else None.

(** The cursor points at the chunk whose half-open interval
    [[chunkOffset, chunkOffset + chunkSize)] holds the position, or is
    the end of the set when the position is at or past the end of the
    file. *)
Definition cursor_holds_position (f : openfile_type) : bool :=
  match fileChunks f !! chunkPtr f with
  | Some c =>
      (chunkOffset c <=? filePointer f)
      && (filePointer f <? chunkOffset c + chunkSize c)
  | None => fileSize f <=? filePointer f
  end.


(* ================================================================== *)
(** * Example disks *)
(* ================================================================== *)

(** Descriptors 0, 1 and 2 are in use, as in any process. *)
Definition stdio_fds : gmap Z open_fd :=
  <[0 := mk_open_fd (RegularFile []) 0]>
  (<[1 := mk_open_fd (RegularFile []) 0]>
  (<[2 := mk_open_fd (RegularFile []) 0]> ∅)).

(** Two mountpoints with the FlexBuff recording [rec_A]: chunks 0 (ten
    bytes) and 5 (five bytes) on the first, another chunk 5 on the
    second. *)
Definition flexbuff_files : gmap string inode :=
  list_to_map
    [ ("/mnt/disk0/rec_A", Directory ["rec_A.00000005"; "notes"; "rec_A.00000000"]);
      ("/mnt/disk0/rec_A/rec_A.00000000", RegularFile (list_byte_of_string "ABCDEFGHIJ"));
      ("/mnt/disk0/rec_A/rec_A.00000005", RegularFile (list_byte_of_string "KLMNO"));
      ("/mnt/disk0/rec_A/notes", RegularFile (list_byte_of_string "x"));
      ("/mnt/disk1/rec_A", Directory ["rec_A.00000005"]);
      ("/mnt/disk1/rec_A/rec_A.00000005", RegularFile (list_byte_of_string "PQRST")) ].

Definition flexbuff_process : process :=
  mk_process ∅ (mk_os flexbuff_files stdio_fds 0).


(* ================================================================== *)
(** * Sequences of calls *)
(* ================================================================== *)

(** What an open call can return as a value: [-1] with the table left
    alone, or the handle [new_handle] picks, with the open file added
    under it. *)
Definition open_returns (p p' : process) (h : Z) : Prop :=
  (h = -1 /\ openedFiles p' = openedFiles p)
  \/ (exists chunks, chunks <> [] /\ h = new_handle (openedFiles p)
      /\ openedFiles p' = map_insert_new h (openfile_ctor chunks) (openedFiles p)).

(** A caller's script of FlexBuff opens and closes, and the values the
    calls return one after the other. *)
Inductive api_call : Type :=
  | CallOpen (recname : string) (rootdirs : list string)
  | CallClose (fd : Z).

Fixpoint run_calls (calls : list api_call) (p : process)
  : process * list (outcome Z) :=
  match calls with
  | [] => (p, [])
  | CallOpen recname rootdirs :: rest =>
      let '(p1, r) := vbs_open (Some recname) (Some rootdirs) p in
      let '(p2, rs) := run_calls rest p1 in (p2, r :: rs)
  | CallClose fd :: rest =>
      let '(p1, r) := vbs_close fd p in
      let '(p2, rs) := run_calls rest p1 in (p2, Ret r :: rs)
  end.


(** [rec_A] opened on the first mountpoint; then ten bytes read, which
    is all of the first chunk; then, instead, a seek to position 3. *)
Definition rec_A_opened : process :=
  fst (vbs_open (Some "rec_A"%string) (Some ["/mnt/disk0"%string]) flexbuff_process).

Definition rec_A_read10 : process :=
  match vbs_read 5 INT_MAX 4096 10 rec_A_opened with
  | Some (p, _) => p
  | None => rec_A_opened
  end.

Definition rec_A_at3 : process := fst (vbs_lseek INT_MAX 3 SEEK_SET rec_A_opened).

Definition rec_A_past_end : process := fst (vbs_lseek INT_MAX 100 SEEK_SET rec_A_opened).


(* ================================================================== *)
(** * A Mark6 layout and example files *)
(* ================================================================== *)

Definition byte_at (bytes : list byte) (i : nat) : Z :=
  match bytes !! i with
  | Some b => Z.of_N (Byte.to_N b)
  | None => 0
  end.

(** A little-endian 32 bit field at offset [i]. *)
Definition le32 (bytes : list byte) (i : nat) : Z :=
  byte_at bytes i + 256 * byte_at bytes (i + 1)
  + 65536 * byte_at bytes (i + 2) + 16777216 * byte_at bytes (i + 3).

(** Modelled from the spec: mk6info.h is not part of the sources.  The
    file header carries the sync word and a version; the block header
    carries the block number and the block length [wb_size], header
    included.  The layout taken here is the scatter-gather one: a file
    header of five 32 bit words that starts with the sync word and the
    version, and a block header of two signed 32 bit words. *)
Definition mk6_layout : mk6_format :=
  mk_mk6_format 20 8
    (fun fh => le32 fh 0) (fun fh => to_int (le32 fh 4))
    (fun wbh => to_int (le32 wbh 0)) (fun wbh => to_int (le32 wbh 4))
    4276971110.

Definition byte_of_Z (z : Z) : byte :=
  match Byte.of_N (Z.to_N (z mod 256)) with
  | Some b => b
  | None => x00
  end.

Definition le32_bytes (z : Z) : list byte :=
  [byte_of_Z z; byte_of_Z (z / 256); byte_of_Z (z / 65536); byte_of_Z (z / 16777216)].

Definition mk6_file_header_bytes : list byte :=
  le32_bytes 4276971110 ++ le32_bytes 2 ++ le32_bytes 0 ++ le32_bytes 0 ++ le32_bytes 0.

Definition mk6_block_bytes (blocknum wb_size : Z) (payload : string) : list byte :=
  le32_bytes blocknum ++ le32_bytes wb_size ++ list_byte_of_string payload.

(** [rec_D]: one block that announces eight bytes of payload in a file
    that ends after four of them (a recording cut short).
    [rec_E]: blocks 0 and 1 on the first mountpoint, blocks 1 and 2 on
    the second.  [rec_F]: a good block, then a header with block number
    -1. *)
Definition mk6_files : gmap string inode :=
  list_to_map
    [ ("/mnt/disk0/rec_D",
       RegularFile (mk6_file_header_bytes ++ mk6_block_bytes 0 16 "AAAA"));
      ("/mnt/disk0/rec_E",
       RegularFile (mk6_file_header_bytes ++ mk6_block_bytes 0 16 "AAAAAAAA"
                    ++ mk6_block_bytes 1 12 "BBBB"));
      ("/mnt/disk1/rec_E",
       RegularFile (mk6_file_header_bytes ++ mk6_block_bytes 1 12 "bbbb"
                    ++ mk6_block_bytes 2 12 "CCCC"));
      ("/mnt/disk0/rec_F",
       RegularFile (mk6_file_header_bytes ++ mk6_block_bytes 0 16 "AAAAAAAA"
                    ++ mk6_block_bytes (-1) 12 "BBBB")) ].

Definition mk6_process : process :=
  mk_process ∅ (mk_os mk6_files stdio_fds 0).

Definition rec_D_opened : process :=
  match mk6_open mk6_layout 8 (Some "rec_D"%string) (Some ["/mnt/disk0"%string])
          mk6_process with
  | Some (p, _) => p
  | None => mk6_process
  end.


(* ================================================================== *)
(** * The block-header file, as the specification reads it *)
(* ================================================================== *)

(** What is asked of the parameters of the layout: header sizes that are
    positive and fit an [int], block numbers and lengths that are
    [int32] values. *)
Record mk6_format_wf (fmt : mk6_format) : Prop := mk_mk6_format_wf {
  fmt_fh_size : 0 < fh_size fmt <= INT_MAX;
  fmt_wbh_size : 0 < wbh_size fmt <= INT_MAX;
  fmt_blocknum : forall wbh, int_range (wbh_blocknum fmt wbh);
  fmt_wb_size : forall wbh, int_range (wbh_wb_size fmt wbh)
}.

(** A block of the file: where its header starts and the two fields of
    the header. *)
Record mk6_block : Type := mk_mk6_block {
  blk_position : Z;
  blk_number : Z;
  blk_wb_size : Z
}.

(** The block headers met by a reader that starts at [position] and
    goes on [wb_size] bytes after the start of each header, until fewer
    bytes than a block header are left ([fuel] bounds the number of
    blocks). *)
Fixpoint block_walk (fmt : mk6_format) (fuel : nat) (data : list byte)
    (position : Z) : list mk6_block :=
  match fuel with
  | O => []
  | S fuel' =>
      let header := take (Z.to_nat (wbh_size fmt)) (drop (Z.to_nat position) data) in
      if Z.of_nat (length header) <? wbh_size fmt then []
      else
        mk_mk6_block position (wbh_blocknum fmt header) (wbh_wb_size fmt header)
        :: block_walk fmt fuel' data (position + wbh_wb_size fmt header)
  end.

(** The chunk of a block: its sequence number is the block number, its
    size the block length without the header, its position the byte
    after the header; it refers to the descriptor of the file. *)
Definition block_chunk (fmt : mk6_format) (fd : Z) (b : mk6_block) : filechunk_type :=
  mk_filechunk EmptyString (blk_wb_size b - wbh_size fmt)
    (blk_position b + wbh_size fmt) (- fd) 0 (blk_number b).

Definition block_ok (b : mk6_block) : bool :=
  (0 <=? blk_number b) && (0 <? blk_wb_size b).

(** Chunks are made of the blocks in order, up to the first bad header
    or the first block number met before. *)
Fixpoint scan_blocks (fmt : mk6_format) (fd : Z) (blocks : list mk6_block)
    (rv : filechunks_type) : outcome filechunks_type :=
  match blocks with
  | [] => Ret rv
  | b :: rest =>
      if block_ok b then
        let '(rv1, fresh) := set_insert (block_chunk fmt fd b) rv in
        if fresh then scan_blocks fmt fd rest rv1
        else Throw (vbs_except duplicate_insert)
      else Throw (vbs_except bogus_block_header)
  end.

(** Where the reader stands after the blocks. *)
Definition walk_end (start : Z) (blocks : list mk6_block) : Z :=
  match last blocks with
  | Some b => blk_position b + blk_wb_size b
  | None => start
  end.

(** The longest file the scan is followed on: positions up to one block
    past its end are [off_t] values. *)
Definition MAX_FILE_LENGTH : Z := OFF_MAX - 2 ^ 32.

(** What a scan leaves of the descriptor table: the descriptor [fd] of
    the file is gone when the scan failed and still there when it did
    not; the other descriptors and the files are as before. *)
Definition descriptor_after (fd : Z) (os os' : os_state)
    (r : outcome filechunks_type) : Prop :=
  os_files os' = os_files os
  /\ (forall fd', fd' <> fd -> os_fds os' !! fd' = os_fds os !! fd')
  /\ match r with
     | Ret _ => is_Some (os_fds os' !! fd)
     | Throw _ => os_fds os' !! fd = None
     end.


(* ================================================================== *)
(** * Descriptors held by an open file *)
(* ================================================================== *)

(** [k] is a descriptor of the open file: the descriptor a FlexBuff
    chunk has opened for itself, or the descriptor of the Mark6 file a
    chunk refers to (stored negated). *)
Definition holds_descriptor (f : openfile_type) (k : Z) : Prop :=
  exists c, c ∈ fileChunks f
            /\ ((owns_descriptor c = true /\ k = chunkFd c)
                \/ (chunkFd c < 0 /\ k = to_int (- chunkFd c))).


(* ================================================================== *)
(** * The bookkeeping of a read *)
(* ================================================================== *)

(** The state a loop step ends in. *)
Definition step_state (st : loop_step) : read_state :=
  match st with
  | Continue s => s
  | Break s => s
  end.

(** What the read loop keeps, for a call that asked for [count] bytes of
    the open file [f0] in the system [os0]: the chunks keep their sizes
    and offsets, the bytes stored so far are the bytes no longer wanted,
    and the position has moved on by their number. *)
Record read_accounting (count : Z) (f0 : openfile_type) (os0 : os_state)
    (s : read_state) : Prop := mk_read_accounting {
  acc_wf : openfile_wf (rs_of s);
  acc_sizes : map chunkSize (fileChunks (rs_of s)) = map chunkSize (fileChunks f0);
  acc_offsets : map chunkOffset (fileChunks (rs_of s)) = map chunkOffset (fileChunks f0);
  acc_fileSize : fileSize (rs_of s) = fileSize f0;
  acc_nr : 0 <= rs_nr s <= count;
  acc_out : Z.of_nat (length (rs_out s)) = count - rs_nr s;
  acc_position : filePointer (rs_of s) = filePointer f0 + (count - rs_nr s);
  acc_position_max : filePointer (rs_of s) <= OFF_MAX;
  acc_files : os_files (rs_os s) = os_files os0
}.


(* ================================================================== *)
(** * The bytes of a virtual file *)
(* ================================================================== *)

(** The bytes of a chunk in the file that holds it: [chunkSize] bytes
    from [chunkPos] on. *)
Definition chunk_payload (c : filechunk_type) (data : list byte) : list byte :=
  take (Z.to_nat (chunkSize c)) (drop (Z.to_nat (chunkPos c)) data).

(** The contents of the regular file at [path] (nothing when there is
    none), and of the regular file the descriptor [fd] is open on. *)
Definition file_data (os : os_state) (path : string) : list byte :=
  match os_files os !! path with
  | Some (RegularFile data) => data
  | _ => []
  end.

Definition fd_data (os : os_state) (fd : Z) : list byte :=
  match os_fds os !! fd with
  | Some (mk_open_fd (RegularFile data) _) => data
  | _ => []
  end.

(** The recording as one byte string: the payloads of the chunks in the
    order of the set.  A FlexBuff chunk is found by its path, a Mark6
    chunk through the descriptor of its file. *)
Definition flexbuff_payload (os : os_state) (c : filechunk_type) : list byte :=
  chunk_payload c (file_data os (pathToChunk c)).

Definition mk6_payload (os : os_state) (c : filechunk_type) : list byte :=
  chunk_payload c (fd_data os (- chunkFd c)).

Definition virtual_contents (payload : filechunk_type -> list byte)
    (chunks : filechunks_type) : list byte :=
  concat (map payload chunks).

(** The bytes a read of [count] bytes at position [fp] is to deliver. *)
Definition contents_slice (contents : list byte) (fp count : Z) : list byte :=
  take (Z.to_nat count) (drop (Z.to_nat fp) contents).

(** The cursor is not ahead of the position: the chunk it points at
    starts at or before the position, and at the end of the set the
    position is at or past the end of the file. *)
Definition cursor_behind (f : openfile_type) : Prop :=
  match fileChunks f !! chunkPtr f with
  | Some c => chunkOffset c <= filePointer f
  | None => fileSize f <= filePointer f
  end.

(** A FlexBuff chunk that can be read: it starts at 0 of a file that
    has all its bytes, and it has no descriptor, unless it is the chunk
    at the cursor, which may have its file open. *)
Definition flexbuff_chunk_ready (os : os_state) (at_cursor : Prop)
    (c : filechunk_type) : Prop :=
  chunkPos c = 0
  /\ chunkSize c <= Z.of_nat (length (file_data os (pathToChunk c)))
  /\ (chunkFd c = invalidFileDescriptor
      \/ (at_cursor /\ 0 <= chunkFd c < INT_MAX
          /\ exists pos, os_fds os !! chunkFd c
               = Some (mk_open_fd (RegularFile (file_data os (pathToChunk c))) pos))).

(** Room in the descriptor table for the one descriptor the open file
    may need. *)
Definition descriptor_room (os : os_state) (f : openfile_type) : Prop :=
  Z.of_nat (size (os_fds os))
  + match fileChunks f !! chunkPtr f with
    | Some c => if owns_descriptor c then 0 else 1
    | None => 1
    end <= INT_MAX.

(** An open FlexBuff file that can be read in the system [os]. *)
Record flexbuff_ready (os : os_state) (f : openfile_type) : Prop := mk_flexbuff_ready {
  fr_wf : openfile_wf f;
  fr_position : 0 <= filePointer f <= OFF_MAX;
  fr_cursor : cursor_behind f;
  fr_chunks : forall i c, fileChunks f !! i = Some c ->
                flexbuff_chunk_ready os (i = chunkPtr f) c;
  fr_room : descriptor_room os f
}.

(** A Mark6 chunk that can be read: its file is open on the descriptor
    the chunk refers to, and has all bytes of the block. *)
Definition mk6_chunk_ready (os : os_state) (c : filechunk_type) : Prop :=
  - INT_MAX < chunkFd c < 0
  /\ 0 <= chunkPos c
  /\ 0 <= chunkSize c
  /\ chunkPos c + chunkSize c <= Z.of_nat (length (fd_data os (- chunkFd c)))
  /\ chunkPos c + chunkSize c <= OFF_MAX
  /\ exists pos, os_fds os !! (- chunkFd c)
       = Some (mk_open_fd (RegularFile (fd_data os (- chunkFd c))) pos).

(** An open Mark6 file that can be read in the system [os]. *)
Record mk6_ready (os : os_state) (f : openfile_type) : Prop := mk_mk6_ready {
  mr_wf : openfile_wf f;
  mr_position : 0 <= filePointer f <= OFF_MAX;
  mr_cursor : cursor_behind f;
  mr_chunks : forall c, c ∈ fileChunks f -> mk6_chunk_ready os c
}.

(** A bound on the number of iterations of the read loop: one to leave,
    and for every chunk from the cursor on one to read from it and one
    to step over it. *)
Definition read_steps_bound (s : read_state) : nat :=
  if rs_nr s =? 0 then 1%nat
  else
    match fileChunks (rs_of s) !! chunkPtr (rs_of s) with
    | None => 1%nat
    | Some c =>
        let r := (length (fileChunks (rs_of s)) - chunkPtr (rs_of s))%nat in
        if filePointer (rs_of s) <? chunkOffset c + chunkSize c
        then (2 * r + 1)%nat else (2 * r)%nat
    end.



(** The open file of [rec_A] right after the open, and after the read of
    its first ten bytes, when the first chunk has its file open. *)
Definition rec_A_file : openfile_type :=
  mk_openfile 0 15
    [ mk_filechunk "/mnt/disk0/rec_A/rec_A.00000000" 10 0 invalidFileDescriptor 0 0;
      mk_filechunk "/mnt/disk0/rec_A/rec_A.00000005" 5 0 invalidFileDescriptor 10 5 ]
    0.

Definition rec_A_read10_file : openfile_type :=
  mk_openfile 10 15
    [ mk_filechunk "/mnt/disk0/rec_A/rec_A.00000000" 10 0 3 0 0;
      mk_filechunk "/mnt/disk0/rec_A/rec_A.00000005" 5 0 invalidFileDescriptor 10 5 ]
    0.

(** The Mark6 recording [rec_E] opened on the first mountpoint, where
    its file has two complete blocks, and its open file. *)
Definition rec_E_opened : process :=
  match mk6_open mk6_layout 8 (Some "rec_E"%string) (Some ["/mnt/disk0"%string])
          mk6_process with
  | Some (p, _) => p
  | None => mk6_process
  end.

Definition rec_E_file : openfile_type :=
  mk_openfile 0 12
    [ mk_filechunk "" 8 28 (-3) 0 0; mk_filechunk "" 4 44 (-3) 8 1 ] 0.

(* ================================================================== *)
(** * in2disk.cc: the label of a scan *)
(* ================================================================== *)

(** [std::string::empty] *)
Definition string_empty (s : string) : bool :=
  match s with
  | EmptyString => true
  | String _ _ => false
  end.

(** The label [record = on : <scan> : <experiment> : <station> : <source>]
    records under: [scanlabel] is built from the experiment, then the
    station, the scan and the source, each field that is not empty
    appended, after an underscore when the label is not empty by then;
    a label that is still empty becomes ["+"]. *)
Definition scanlabel (scan experiment station source : string) : string :=
  let scanlabel0 := if negb (string_empty experiment) then experiment else ""%string in
  let scanlabel1 :=
    if negb (string_empty station) then
      scanlabel0 +:+ (if negb (string_empty scanlabel0) then "_" +:+ station else station)
    else scanlabel0 in
  let scanlabel2 :=
    if negb (string_empty scan) then
      scanlabel1 +:+ (if negb (string_empty scanlabel1) then "_" +:+ scan else scan)
    else scanlabel1 in
  let scanlabel3 :=
    if negb (string_empty source) then
      scanlabel2 +:+ (if negb (string_empty scanlabel2) then "_" +:+ source else source)
    else scanlabel2 in
  if string_empty scanlabel3 then "+"%string else scanlabel3.

(** The number a string of decimal digits stands for. *)
Fixpoint decimal_value (digits : string) : Z :=
  match digits with
  | EmptyString => 0
  | String c r =>
      (Z.of_nat (nat_of_ascii c) - 48) * 10 ^ Z.of_nat (String.length r)
      + decimal_value r
  end.

(** A file that can be read as a Mark6 file: not too long for the
    scan, and, when its file header is that of a Mark6 file, every block
    found on the walk holds at least its header and ends within the
    file. *)
Definition mk6_file_complete (fmt : mk6_format) (fuel : nat) (data : list byte) : Prop :=
  Z.of_nat (length data) <= MAX_FILE_LENGTH
  /\ (length data < fuel)%nat
  /\ (fh_size fmt <= Z.of_nat (length data) ->
      fh_sync_word fmt (take (Z.to_nat (fh_size fmt)) data) = MARK6_SG_SYNC_WORD fmt ->
      fh_version fmt (take (Z.to_nat (fh_size fmt)) data) = 2 ->
      Forall (fun b => wbh_size fmt <= blk_wb_size b
                       /\ blk_position b + blk_wb_size b <= Z.of_nat (length data))
             (block_walk fmt fuel data (fh_size fmt))).

(** A mountpoint with the Mark6 file [rec_H], which has a file header
    and no block. *)
Definition mk6_header_only_process : process :=
  mk_process ∅
    (mk_os (<["/mnt/disk0/rec_H"%string := RegularFile mk6_file_header_bytes]> ∅)
       stdio_fds 0).

(* ################################################################## *)
(** * Part II: properties *)
(* ################################################################## *)

(* ================================================================== *)
(** ** [escape] *)
(* ================================================================== *)

(** Membership in [alphanum_str] is membership in the character class. *)
Lemma alphanum_str_word_char (c : ascii) :
  match string_find c alphanum_str 0 with Some _ => true | None => false end
  = word_char c.
Proof.
  destruct c as [[] [] [] [] [] [] [] []]; vm_compute; reflexivity.
Qed.

Lemma escape_cons (c : ascii) (r : string) :
  escape (String c r) =
  if word_char c then String c (escape r) else String "\" (String c (escape r)).
Proof.
  cbn [escape]. rewrite <- alphanum_str_word_char.
  destruct (string_find c alphanum_str 0); reflexivity.
Qed.

Lemma word_char_not_backslash (c : ascii) :
  word_char c = true -> Ascii.eqb c "\" = false.
Proof.
  intros Hw. destruct (Ascii.eqb c "\") eqn:E; [|reflexivity].
  apply Ascii.eqb_eq in E. subst c. vm_compute in Hw. discriminate.
Qed.

(** C9: [escape s] is [s] with a backslash put in front of every
    character outside [[A-Za-z0-9_]] and every other character copied in
    place (so that removing the backslashes gives [s] back); a string
    made of characters of the class only is returned as it is. *)
Theorem escape_spec (s : string) :
  escape s = escape_by_class s
  /\ unescape (escape s) = s
  /\ (string_forallb word_char s = true -> escape s = s).
Proof.
  induction s as [|c r (IH1 & IH2 & IH3)].
  - repeat split; reflexivity.
  - rewrite escape_cons. cbn [escape_by_class string_forallb].
    destruct (word_char c) eqn:Hc.
    + split; [now rewrite IH1|]. split.
      * cbn [unescape]. rewrite (word_char_not_backslash c Hc). now rewrite IH2.
      * intros Hall. cbn in Hall. now rewrite IH3.
    + split; [now rewrite IH1|]. split.
      * cbn [unescape]. rewrite Ascii.eqb_refl. now rewrite IH2.
      * intros Hall. cbn in Hall. discriminate.
Qed.

Lemma escape_spec_witness :
  string_forallb word_char "rec_A09z" = true /\ escape "rec_A09z" = "rec_A09z".
Proof.
  split; [reflexivity|].
  apply (proj2 (proj2 (escape_spec "rec_A09z"))). reflexivity.
Defined.

(* ================================================================== *)
(** ** Machine integers *)
(* ================================================================== *)

Lemma to_off_t_id (z : Z) : off_t_range z -> to_off_t z = z.
Proof.
  unfold off_t_range, OFF_MIN, OFF_MAX, to_off_t, wrap_signed. intros H.
  change (2 ^ (64 - 1)) with 9223372036854775808.
  change (2 ^ 64) with 18446744073709551616.
  rewrite Z.mod_small; lia.
Qed.

Lemma to_int_id (z : Z) : int_range z -> to_int z = z.
Proof.
  unfold int_range, INT_MIN, INT_MAX, to_int, wrap_signed. intros H.
  change (2 ^ (32 - 1)) with 2147483648.
  change (2 ^ 32) with 4294967296.
  rewrite Z.mod_small; lia.
Qed.

Lemma to_int_range (z : Z) : int_range (to_int z).
Proof.
  unfold int_range, INT_MIN, INT_MAX, to_int, wrap_signed.
  change (2 ^ (32 - 1)) with 2147483648.
  change (2 ^ 32) with 4294967296.
  pose proof (Z.mod_pos_bound (z + 2147483648) 4294967296). lia.
Qed.

(* ================================================================== *)
(** ** Construction of the open file *)
(* ================================================================== *)

Lemma copy_filechunk_idem (c : filechunk_type) :
  copy_filechunk (copy_filechunk c) = copy_filechunk c.
Proof.
  unfold copy_filechunk, set_chunkFd. cbn.
  destruct (chunkFd c <? 0) eqn:E; cbn; [now rewrite E|reflexivity].
Qed.

Lemma copy_set_chunkOffset (c : filechunk_type) (off : Z) :
  copy_filechunk (set_chunkOffset c off) = set_chunkOffset (copy_filechunk c) off.
Proof. reflexivity. Qed.

Lemma sums_in_range_ext (acc : Z) (l l' : filechunks_type) :
  map chunkSize l = map chunkSize l' -> sums_in_range acc l -> sums_in_range acc l'.
Proof.
  revert acc l'. induction l as [|c r IH]; intros acc [|c' r'] Hm H;
    try discriminate; [exact I|].
  cbn in *. injection Hm as Hc Hr. rewrite <- Hc. destruct H as [H1 H2].
  split; [exact H1|]. now apply IH.
Qed.

Lemma total_size_ext (l l' : filechunks_type) :
  map chunkSize l = map chunkSize l' -> total_size l = total_size l'.
Proof.
  revert l'. induction l as [|c r IH]; intros [|c' r'] Hm; try discriminate;
    [reflexivity|].
  cbn in *. injection Hm as Hc Hr. rewrite Hc. f_equal. now apply IH.
Qed.

Lemma chunks_sorted_ext (l l' : filechunks_type) :
  map chunkNumber l = map chunkNumber l' -> chunks_sorted l -> chunks_sorted l'.
Proof.
  revert l'. induction l as [|c r IH]; intros [|c' r'] Hm H; try discriminate;
    [exact I|].
  cbn in *. injection Hm as Hc Hr. destruct H as [H1 H2]. split; [|now apply IH].
  rewrite <- Hc. clear - H1 Hr.
  revert r' Hr. induction H1 as [|y r Hy H1 IH]; intros [|y' r'] Hr;
    try discriminate; constructor.
  - cbn in Hr. injection Hr as Hy' _. now rewrite <- Hy'.
  - cbn in Hr. injection Hr as _ Hr. now apply IH.
Qed.

(** The loop of the constructor changes [chunkOffset] only, and makes the
    offsets contiguous. *)
Lemma assign_offsets_spec (acc : Z) (l : filechunks_type) :
  sums_in_range acc l ->
  contiguous_from acc (assign_offsets acc l).1
  /\ (assign_offsets acc l).2 = acc + total_size l
  /\ Forall2 (fun c c' => c' = set_chunkOffset c (chunkOffset c'))
             l (assign_offsets acc l).1.
Proof.
  revert acc. induction l as [|c r IH]; intros acc H.
  - cbn. unfold total_size. cbn. repeat split; [lia|constructor].
  - cbn in H. destruct H as [H1 H2]. cbn [assign_offsets].
    change (total_size (c :: r)) with (chunkSize c + total_size r).
    rewrite (to_off_t_id _ H1).
    specialize (IH _ H2).
    destruct (assign_offsets (acc + chunkSize c) r) as [r' tot].
    cbn in *. destruct IH as (IHa & IHb & IHc).
    repeat split; [exact IHa|lia|].
    constructor; [reflexivity|exact IHc].
Qed.

Lemma Forall2_offsets_map {A : Type} (g : filechunk_type -> A)
    (l l' : filechunks_type) :
  (forall c off, g (set_chunkOffset c off) = g c) ->
  Forall2 (fun c c' => c' = set_chunkOffset c (chunkOffset c')) l l' ->
  map g l' = map g l.
Proof.
  intros Hg H. induction H as [|c c' l l' Hc _ IH]; [reflexivity|].
  cbn. rewrite IH. f_equal. rewrite Hc. apply Hg.
Qed.

Lemma contiguous_lookup (start : Z) (l : filechunks_type) (i : nat)
    (c c' : filechunk_type) :
  contiguous_from start l ->
  l !! i = Some c -> l !! S i = Some c' ->
  chunkOffset c' = chunkOffset c + chunkSize c.
Proof.
  revert start i. induction l as [|x r IH]; intros start i H Hi HSi;
    [discriminate|].
  destruct H as [Hx Hr]. destruct i as [|i].
  - cbn in Hi. injection Hi as ->. destruct r as [|y r]; [discriminate|].
    cbn in HSi. injection HSi as ->. destruct Hr as [Hy _]. lia.
  - cbn in Hi, HSi. exact (IH _ _ Hr Hi HSi).
Qed.

Lemma openfile_copy_ctor (fcs : filechunks_type) :
  openfile_copy (openfile_ctor fcs) = openfile_ctor fcs.
Proof.
  unfold openfile_ctor.
  assert (G : forall acc l, Forall (fun c => copy_filechunk c = c) l ->
             Forall (fun c => copy_filechunk c = c) (assign_offsets acc l).1).
  { intros acc l. revert acc. induction l as [|c r IH]; intros acc H; [constructor|].
    apply Forall_cons in H as [Hc Hr]. cbn [assign_offsets].
    specialize (IH (to_off_t (acc + chunkSize c)) Hr).
    destruct (assign_offsets (to_off_t (acc + chunkSize c)) r) as [r' tot].
    cbn in *. constructor; [|exact IH].
    rewrite copy_set_chunkOffset. now rewrite Hc. }
  specialize (G 0 (map copy_filechunk fcs)).
  destruct (assign_offsets 0 (map copy_filechunk fcs)) as [l tot].
  unfold openfile_copy. cbn in *. f_equal.
  assert (H : Forall (fun c => copy_filechunk c = c) l).
  { apply G. apply Forall_forall. intros c Hc.
    apply list_elem_of_fmap in Hc as (c0 & -> & _). apply copy_filechunk_idem. }
  clear - H. induction H as [|c l Hc _ IH]; [reflexivity|].
  cbn. now rewrite Hc, IH.
Qed.

(** C4: in the open file built from a chunk set the chunks keep their
    order (that of the sequence numbers), the first logical offset is 0,
    every chunk starts where its predecessor ends, whatever the gaps
    between sequence numbers, and the size of the file is the sum of the
    chunk sizes; this is the object stored in the table by a successful
    open. *)
Theorem openfile_offsets (fcs : filechunks_type) :
  sums_in_range 0 fcs ->
  let f := openfile_ctor fcs in
  map chunkNumber (fileChunks f) = map chunkNumber fcs
  /\ map chunkSize (fileChunks f) = map chunkSize fcs
  /\ (chunks_sorted fcs -> chunks_sorted (fileChunks f))
  /\ (forall c, fileChunks f !! 0%nat = Some c -> chunkOffset c = 0)
  /\ (forall i c c',
        fileChunks f !! i = Some c -> fileChunks f !! S i = Some c' ->
        chunkOffset c' = chunkOffset c + chunkSize c)
  /\ fileSize f = total_size fcs
  /\ (forall p p' h,
        fcs <> [] -> openedFiles p !! h = None ->
        install_chunks fcs p = (p', Ret h) -> openedFiles p' !! h = Some f).
Proof.
  intros Hr f.
  assert (Hcopy_sz : map chunkSize (map copy_filechunk fcs) = map chunkSize fcs).
  { rewrite <- list_fmap_compose. reflexivity. }
  assert (Hcopy_nr : map chunkNumber (map copy_filechunk fcs) = map chunkNumber fcs).
  { rewrite <- list_fmap_compose. reflexivity. }
  assert (Hr' : sums_in_range 0 (map copy_filechunk fcs)).
  { eapply sums_in_range_ext; [symmetry; exact Hcopy_sz|exact Hr]. }
  pose proof (assign_offsets_spec 0 _ Hr') as (Hcont & Htot & Hrel).
  assert (Hf : fileChunks f = (assign_offsets 0 (map copy_filechunk fcs)).1
               /\ fileSize f = (assign_offsets 0 (map copy_filechunk fcs)).2).
  { subst f. unfold openfile_ctor.
    destruct (assign_offsets 0 (map copy_filechunk fcs)); split; reflexivity. }
  destruct Hf as [Hfc Hfs].
  assert (Hnr : map chunkNumber (fileChunks f) = map chunkNumber fcs).
  { rewrite Hfc, <- Hcopy_nr.
    apply (Forall2_offsets_map chunkNumber); [reflexivity|exact Hrel]. }
  assert (Hsz : map chunkSize (fileChunks f) = map chunkSize fcs).
  { rewrite Hfc, <- Hcopy_sz.
    apply (Forall2_offsets_map chunkSize); [reflexivity|exact Hrel]. }
  repeat split.
  - exact Hnr.
  - exact Hsz.
  - intros Hs. eapply chunks_sorted_ext; [symmetry; exact Hnr|exact Hs].
  - intros c Hc. rewrite Hfc in Hc.
    destruct ((assign_offsets 0 (map copy_filechunk fcs)).1) as [|x r];
      [discriminate|].
    cbn in Hc. injection Hc as ->. exact (proj1 Hcont).
  - intros i c c' Hi HSi. rewrite Hfc in Hi, HSi.
    exact (contiguous_lookup _ _ _ _ _ Hcont Hi HSi).
  - rewrite Hfs, Htot. rewrite (total_size_ext _ _ Hcopy_sz). lia.
  - intros p p' h Hne Hfree Hinst. unfold install_chunks in Hinst.
    destruct fcs as [|c0 r0]; [congruence|].
    injection Hinst as <- <-. cbn [openedFiles].
    unfold map_insert_new. rewrite Hfree.
    rewrite lookup_insert_eq. now rewrite openfile_copy_ctor.
Qed.

Lemma openfile_offsets_witness :
  sums_in_range 0
    [mk_filechunk "a" 10 0 invalidFileDescriptor 0 0;
     mk_filechunk "b" 5 0 invalidFileDescriptor 0 5]
  /\ fileSize (openfile_ctor
       [mk_filechunk "a" 10 0 invalidFileDescriptor 0 0;
        mk_filechunk "b" 5 0 invalidFileDescriptor 0 5]) = 15.
Proof.
  assert (H : sums_in_range 0
    [mk_filechunk "a" 10 0 invalidFileDescriptor 0 0;
     mk_filechunk "b" 5 0 invalidFileDescriptor 0 5]).
  { cbn. unfold off_t_range, OFF_MIN, OFF_MAX. lia. }
  split; [exact H|].
  exact (proj1 (proj2 (proj2 (proj2 (proj2 (proj2 (openfile_offsets _ H))))))).
Defined.

(* ================================================================== *)
(** ** Handles *)
(* ================================================================== *)

Lemma foldr_min_spec (k : Z) (r : list Z) :
  foldr Z.min k r ∈ k :: r /\ Forall (fun j => foldr Z.min k r <= j) (k :: r).
Proof.
  induction r as [|x r [IH1 IH2]].
  - cbn. split; [left|]. constructor; [lia|constructor].
  - cbn [foldr]. apply Forall_cons in IH2 as [IHk IHr]. split.
    + destruct (Z.min_spec x (foldr Z.min k r)) as [[_ ->]|[_ ->]].
      * right. left.
      * apply elem_of_cons in IH1 as [->|IH1]; [left|right; right; exact IH1].
    + constructor; [lia|]. constructor; [lia|].
      eapply Forall_impl; [exact IHr|]. cbn. intros; lia.
Qed.

Lemma begin_key_None (m : gmap Z openfile_type) : begin_key m = None <-> m = ∅.
Proof.
  unfold begin_key. split.
  - destruct ((map_to_list m).*1) as [|k r] eqn:E; [|discriminate].
    intros _. apply fmap_nil_inv in E. now apply map_to_list_empty_iff.
  - intros ->. now rewrite map_to_list_empty.
Qed.

(** [begin()] of a non-empty map is its entry with the smallest key. *)
Lemma begin_key_Some (m : gmap Z openfile_type) (first : Z) :
  begin_key m = Some first ->
  is_Some (m !! first) /\ forall k, is_Some (m !! k) -> first <= k.
Proof.
  unfold begin_key. destruct ((map_to_list m).*1) as [|k0 r] eqn:E; [discriminate|].
  intros [= <-]. destruct (foldr_min_spec k0 r) as [Hin Hle].
  rewrite <- E in Hin, Hle. split.
  - apply list_elem_of_fmap in Hin as ([k v] & Hk & Hkv).
    apply elem_of_map_to_list in Hkv. cbn in Hk. rewrite Hk. eauto.
  - intros k [v Hv]. rewrite Forall_forall in Hle. apply Hle.
    apply list_elem_of_fmap. exists (k, v). split; [reflexivity|].
    now apply elem_of_map_to_list.
Qed.

Lemma new_handle_empty : new_handle ∅ = INT_MAX.
Proof. reflexivity. Qed.

Lemma new_handle_below (m : gmap Z openfile_type) :
  m <> ∅ ->
  (forall k, is_Some (m !! k) -> INT_MIN < k <= INT_MAX) ->
  exists first,
    begin_key m = Some first /\ new_handle m = first - 1
    /\ forall k, is_Some (m !! k) -> new_handle m < k.
Proof.
  intros Hne Hrange. unfold new_handle.
  destruct (begin_key m) as [first|] eqn:E.
  - destruct (begin_key_Some m first E) as [Hin Hmin].
    specialize (Hrange _ Hin). exists first.
    rewrite to_int_id by (unfold int_range; lia).
    repeat split. intros k Hk. specialize (Hmin _ Hk). lia.
  - apply begin_key_None in E. contradiction.
Qed.

Lemma install_chunks_result (chunks : filechunks_type) (p p' : process) (h : Z) :
  install_chunks chunks p = (p', Ret h) ->
  (chunks = [] /\ h = -1 /\ openedFiles p' = openedFiles p)
  \/ (chunks <> [] /\ h = new_handle (openedFiles p)
      /\ openedFiles p' = map_insert_new h (openfile_ctor chunks) (openedFiles p)).
Proof.
  unfold install_chunks. destruct chunks as [|c r].
  - intros [= <- <-]. left. repeat split.
  - intros [= <- <-]. right. repeat split; [discriminate|].
    cbn [openedFiles]. now rewrite openfile_copy_ctor.
Qed.

Lemma install_chunks_open_returns (chunks : filechunks_type)
    (p0 p p' : process) (h : Z) :
  openedFiles p = openedFiles p0 ->
  install_chunks chunks p = (p', Ret h) -> open_returns p0 p' h.
Proof.
  intros Heq H. apply install_chunks_result in H as [(_ & -> & H)|(Hne & -> & H)].
  - left. now rewrite H.
  - right. exists chunks. rewrite <- Heq. now repeat split.
Qed.

Lemma vbs_open_returns (recname : option string) (rootdirs : option (list string))
    (p p' : process) (h : Z) :
  vbs_open recname rootdirs p = (p', Ret h) -> open_returns p p' h.
Proof.
  unfold vbs_open.
  destruct recname as [[|c n]|]; destruct rootdirs as [dirs|];
    try (intros [= <- <-]; left; split; reflexivity).
  destruct (scanRecording _ _ _ _) as [os1 [chunks|e]].
  - apply install_chunks_open_returns. reflexivity.
  - destruct e; discriminate.
Qed.

Lemma mk6_open_returns (fmt : mk6_format) (fuel : nat)
    (recname : option string) (rootdirs : option (list string))
    (p p' : process) (h : Z) :
  mk6_open fmt fuel recname rootdirs p = Some (p', Ret h) -> open_returns p p' h.
Proof.
  unfold mk6_open.
  destruct recname as [[|c n]|]; destruct rootdirs as [dirs|];
    try (intros [= <- <-]; left; split; reflexivity).
  destruct (scanMk6Recording _ _ _ _ _ _) as [[os1 [chunks|e]]|]; try discriminate.
  intros [= H]. revert H. apply install_chunks_open_returns. reflexivity.
Qed.

Lemma begin_key_unique (m : gmap Z openfile_type) (k : Z) :
  is_Some (m !! k) -> (forall j, is_Some (m !! j) -> k <= j) ->
  begin_key m = Some k.
Proof.
  intros Hin Hmin. destruct (begin_key m) as [first|] eqn:E.
  - destruct (begin_key_Some m first E) as [Hf Hfmin].
    specialize (Hmin _ Hf). specialize (Hfmin _ Hin). f_equal. lia.
  - apply begin_key_None in E. subst m. destruct Hin as [v Hv].
    rewrite lookup_empty in Hv. discriminate.
Qed.

Lemma new_handle_twice (m : gmap Z openfile_type) (f : openfile_type) :
  (forall k, is_Some (m !! k) -> INT_MIN + 1 < k <= INT_MAX) ->
  new_handle (map_insert_new (new_handle m) f m) = new_handle m - 1.
Proof.
  intros Hrange.
  assert (Hbelow : m !! new_handle m = None
                   /\ (forall k, is_Some (m !! k) -> new_handle m < k)
                   /\ INT_MIN < new_handle m <= INT_MAX).
  { destruct (decide (m = ∅)) as [->|Hne].
    - rewrite new_handle_empty. split; [apply lookup_empty|]. split.
      + intros k [v Hv]. rewrite lookup_empty in Hv. discriminate.
      + unfold INT_MIN, INT_MAX. lia.
    - destruct (new_handle_below m Hne) as (first & Hb & Hnew & Hlt).
      { intros k Hk. specialize (Hrange k Hk). lia. }
      destruct (begin_key_Some m first Hb) as [Hin _].
      specialize (Hrange _ Hin). split; [|split; [exact Hlt|lia]].
      destruct (m !! new_handle m) eqn:E; [|reflexivity].
      specialize (Hlt (new_handle m) (ltac:(eauto))). lia. }
  destruct Hbelow as (Hfree & Hlt & Hr).
  unfold map_insert_new. rewrite Hfree.
  unfold new_handle at 1.
  rewrite (begin_key_unique (<[new_handle m := f]> m) (new_handle m)).
  - apply to_int_id. unfold int_range. lia.
  - rewrite lookup_insert_eq. eauto.
  - intros j [v Hv]. destruct (decide (j = new_handle m)) as [->|Hne]; [lia|].
    rewrite lookup_insert_ne in Hv by congruence.
    specialize (Hlt j (ltac:(eauto))). lia.
Qed.

(** C1 (amended): a value returned by [vbs_open] or [mk6_open] is [-1]
    (failure, table untouched) or the handle chosen by the allocation
    rule, under which the open file is stored.  The rule gives [INT_MAX],
    a positive number, for the empty table and the smallest handle of the
    table minus one otherwise.  While the smallest handle is above
    [INT_MIN] the new handle is below every handle of the table, hence
    not one of them, and a second open that follows at once gets the
    handle just below. *)
Theorem handle_allocation :
  (forall recname rootdirs p p' h,
      vbs_open recname rootdirs p = (p', Ret h) -> open_returns p p' h)
  /\ (forall fmt fuel recname rootdirs p p' h,
      mk6_open fmt fuel recname rootdirs p = Some (p', Ret h) ->
      open_returns p p' h)
  /\ (new_handle ∅ = INT_MAX /\ 0 < INT_MAX)
  /\ (forall m : gmap Z openfile_type, m <> ∅ ->
      exists first,
        is_Some (m !! first) /\ (forall k, is_Some (m !! k) -> first <= k)
        /\ new_handle m = to_int (first - 1))
  /\ (forall m : gmap Z openfile_type, m <> ∅ ->
      (forall k, is_Some (m !! k) -> INT_MIN < k <= INT_MAX) ->
      m !! new_handle m = None
      /\ forall k, is_Some (m !! k) -> new_handle m < k)
  /\ (forall (m : gmap Z openfile_type) f,
      (forall k, is_Some (m !! k) -> INT_MIN + 1 < k <= INT_MAX) ->
      new_handle (map_insert_new (new_handle m) f m) = new_handle m - 1).
Proof.
  split; [exact vbs_open_returns|]. split; [exact mk6_open_returns|].
  split; [split; [exact new_handle_empty|reflexivity]|]. split; [|split].
  - intros m Hne. unfold new_handle.
    destruct (begin_key m) as [first|] eqn:E.
    + destruct (begin_key_Some m first E) as [Hin Hmin]. now exists first.
    + apply begin_key_None in E. contradiction.
  - intros m Hne Hrange.
    destruct (new_handle_below m Hne Hrange) as (first & Hb & Hnew & Hlt).
    split; [|exact Hlt].
    destruct (m !! new_handle m) eqn:E; [|reflexivity].
    specialize (Hlt (new_handle m) (ltac:(eauto))). lia.
  - exact new_handle_twice.
Qed.

Lemma handle_allocation_witness :
  (exists p',
      vbs_open (Some "rec_A"%string) (Some ["/mnt/disk0"%string]) flexbuff_process
      = (p', Ret INT_MAX)
      /\ open_returns flexbuff_process p' INT_MAX)
  /\ (exists p',
      mk6_open mk6_layout 100 (Some "rec_E"%string)
        (Some ["/mnt/disk0"%string; "/mnt/disk1"%string]) mk6_process
      = Some (p', Ret INT_MAX)
      /\ open_returns mk6_process p' INT_MAX)
  /\ new_handle (openedFiles rec_A_opened) = INT_MAX - 1.
Proof.
  split; [|split].
  - eexists. split; [vm_compute; reflexivity|].
    apply (proj1 handle_allocation (Some "rec_A"%string) (Some ["/mnt/disk0"%string])).
    vm_compute. reflexivity.
  - eexists. split; [vm_compute; reflexivity|].
    apply (proj1 (proj2 handle_allocation) mk6_layout 100%nat (Some "rec_E"%string)
             (Some ["/mnt/disk0"%string; "/mnt/disk1"%string])).
    vm_compute. reflexivity.
  - pose proof (proj2 (proj2 (proj2 (proj2 (proj2 handle_allocation)))) ∅
                  (openfile_ctor [mk_filechunk "/mnt/disk0/rec_A/rec_A.00000000" 10 0
                                    invalidFileDescriptor 0 0;
                                  mk_filechunk "/mnt/disk0/rec_A/rec_A.00000005" 5 0
                                    invalidFileDescriptor 0 5])) as H.
    rewrite new_handle_empty in H. rewrite <- H.
    + vm_compute. reflexivity.
    + intros k [v Hv]. rewrite lookup_empty in Hv. discriminate.
Defined.

(** C1 as stated fails: the first handle is [INT_MAX], which is not
    negative; and with that handle open throughout, the handle
    [INT_MAX - 2] is followed by the greater [INT_MAX - 1] once the two
    smallest handles have been closed. *)
Lemma handle_allocation_counterexample :
  ~ (forall recname rootdirs p p' h,
       vbs_open recname rootdirs p = (p', Ret h) ->
       openedFiles p' <> openedFiles p -> h < 0)
  /\ snd (run_calls
       [CallOpen "rec_A" ["/mnt/disk0"%string];
        CallOpen "rec_A" ["/mnt/disk0"%string];
        CallOpen "rec_A" ["/mnt/disk0"%string];
        CallClose (INT_MAX - 2);
        CallClose (INT_MAX - 1);
        CallOpen "rec_A" ["/mnt/disk0"%string]] flexbuff_process)
     = [Ret INT_MAX; Ret (INT_MAX - 1); Ret (INT_MAX - 2);
        Ret 0; Ret 0; Ret (INT_MAX - 1)].
Proof.
  split; [|vm_compute; reflexivity].
  intros H.
  specialize (H (Some "rec_A"%string) (Some ["/mnt/disk0"%string]) flexbuff_process
                (fst (vbs_open (Some "rec_A"%string) (Some ["/mnt/disk0"%string])
                        flexbuff_process))
                INT_MAX).
  assert (Hlt : INT_MAX < 0); [|unfold INT_MAX in Hlt; lia].
  apply H.
  - vm_compute. reflexivity.
  - intros Heq.
    assert (Hl : openedFiles (fst (vbs_open (Some "rec_A"%string)
                   (Some ["/mnt/disk0"%string]) flexbuff_process)) !! INT_MAX = None).
    { rewrite Heq. reflexivity. }
    vm_compute in Hl. discriminate.
Qed.

(* ================================================================== *)
(** ** The checks of [vbs_read] *)
(* ================================================================== *)

(** C7: [vbs_read] tests, in this order: the handle ([EBADF], -1), the
    buffer ([EFAULT], -1), a count of zero (0) and a cursor past the last
    chunk (0); each test is only reached when the earlier ones passed. *)
Theorem vbs_read_checks (fuel : nat) (fd buf count : Z) (p : process) :
  (openedFiles p !! fd = None ->
   vbs_read fuel fd buf count p
   = Some (with_errno p EBADF, mk_read_result (-1) []))
  /\ (forall f, openedFiles p !! fd = Some f -> buf = 0 ->
      vbs_read fuel fd buf count p
      = Some (with_errno p EFAULT, mk_read_result (-1) []))
  /\ (forall f, openedFiles p !! fd = Some f -> buf <> 0 -> count = 0 ->
      vbs_read fuel fd buf count p = Some (p, mk_read_result 0 []))
  /\ (forall f, openedFiles p !! fd = Some f -> buf <> 0 -> count <> 0 ->
      (length (fileChunks f) <= chunkPtr f)%nat ->
      vbs_read fuel fd buf count p = Some (p, mk_read_result 0 [])).
Proof.
  unfold vbs_read. repeat split.
  - intros ->. reflexivity.
  - intros f -> ->. reflexivity.
  - intros f -> Hb ->. apply Z.eqb_neq in Hb. now rewrite Hb.
  - intros f -> Hb Hc Hend. apply Z.eqb_neq in Hb, Hc. rewrite Hb, Hc.
    now rewrite (lookup_ge_None_2 _ _ Hend).
Qed.

Lemma vbs_read_checks_witness :
  vbs_read 0 7 0 0 rec_A_opened
  = Some (with_errno rec_A_opened EBADF, mk_read_result (-1) [])
  /\ vbs_read 0 INT_MAX 0 0 rec_A_opened
     = Some (with_errno rec_A_opened EFAULT, mk_read_result (-1) [])
  /\ vbs_read 0 INT_MAX 4096 0 rec_A_past_end
     = Some (rec_A_past_end, mk_read_result 0 [])
  /\ vbs_read 0 INT_MAX 4096 8 rec_A_past_end
     = Some (rec_A_past_end, mk_read_result 0 []).
Proof.
  split; [|split; [|split]].
  - apply (proj1 (vbs_read_checks 0 7 0 0 rec_A_opened)). vm_compute. reflexivity.
  - eapply (proj1 (proj2 (vbs_read_checks 0 INT_MAX 0 0 rec_A_opened)));
      [vm_compute; reflexivity|reflexivity].
  - eapply (proj1 (proj2 (proj2 (vbs_read_checks 0 INT_MAX 4096 0 rec_A_past_end))));
      [vm_compute; reflexivity|discriminate|reflexivity].
  - eapply (proj2 (proj2 (proj2 (vbs_read_checks 0 INT_MAX 4096 8 rec_A_past_end))));
      [vm_compute; reflexivity|discriminate|discriminate|vm_compute; lia].
Defined.

(* ================================================================== *)
(** ** Seeking *)
(* ================================================================== *)

Lemma vbs_lseek_early_return (fd offset whence : Z) (p : process)
    (f : openfile_type) :
  openedFiles p !! fd = Some f ->
  seek_target f offset whence = Some (filePointer f) ->
  0 <= filePointer f ->
  vbs_lseek fd offset whence p = (p, filePointer f).
Proof.
  intros Hf Ht Hpos. unfold vbs_lseek. rewrite Hf, Ht.
  destruct (filePointer f <? 0) eqn:E; [apply Z.ltb_lt in E; lia|].
  now rewrite Z.eqb_refl.
Qed.

(** C10: a seek whose target is the current position returns it and
    changes nothing: not the cursor, not a descriptor, not [errno];
    wherever the cursor points. *)
Theorem vbs_lseek_same_position (fd offset whence : Z) (p : process)
    (f : openfile_type) (newfp : Z) :
  openedFiles p !! fd = Some f ->
  seek_target f offset whence = Some newfp ->
  0 <= newfp ->
  newfp = filePointer f ->
  vbs_lseek fd offset whence p = (p, newfp).
Proof.
  intros Hf Ht Hpos ->. now apply vbs_lseek_early_return.
Qed.

Lemma vbs_lseek_same_position_witness :
  (exists f, openedFiles rec_A_read10 !! INT_MAX = Some f
             /\ filePointer f = 10 /\ chunkPtr f = 0%nat
             /\ cursor_holds_position f = false)
  /\ vbs_lseek INT_MAX 0 SEEK_CUR rec_A_read10 = (rec_A_read10, 10).
Proof.
  split.
  - eexists. split; [vm_compute; reflexivity|]. repeat split.
  - eapply vbs_lseek_same_position.
    + vm_compute. reflexivity.
    + vm_compute. reflexivity.
    + lia.
    + reflexivity.
Defined.

Lemma seek_target_position (f : openfile_type) (offset whence t : Z) :
  seek_position f offset whence = Some t -> off_t_range t ->
  seek_target f offset whence = Some t.
Proof.
  unfold seek_position, seek_target, SEEK_SET, SEEK_CUR, SEEK_END.
  intros H Hr.
  destruct (whence =? 0) eqn:E0; [exact H|].
  destruct (whence =? 1) eqn:E1.
  - apply Z.eqb_eq in E1. subst whence. cbn.
    injection H as <-. now rewrite to_off_t_id.
  - destruct (whence =? 2) eqn:E2; [|discriminate].
    injection H as <-. now rewrite to_off_t_id.
Qed.

Lemma seek_target_unknown (f : openfile_type) (offset whence : Z) :
  whence <> SEEK_SET -> whence <> SEEK_CUR -> whence <> SEEK_END ->
  seek_target f offset whence = None.
Proof.
  intros H0 H1 H2. unfold seek_target.
  apply Z.eqb_neq in H0, H1, H2. now rewrite H0, H1, H2.
Qed.

Lemma total_size_nonneg (l : filechunks_type) :
  Forall (fun c => 0 <= chunkSize c) l -> 0 <= total_size l.
Proof.
  induction 1 as [|c l Hc _ IH]; [reflexivity|].
  change (total_size (c :: l)) with (chunkSize c + total_size l). lia.
Qed.

(** Where the search loop of [vbs_lseek] stops: at the first chunk that
    does not end below the target, or at the end of the set. *)
Lemma skip_chunks_spec (t : Z) (l : filechunks_type) (start : Z) (i : nat) :
  contiguous_from start l ->
  Forall (fun c => 0 <= chunkSize c) l ->
  0 <= start -> start + total_size l <= OFF_MAX -> start <= t ->
  (exists c, (i <= skip_chunks t l i)%nat
             /\ l !! (skip_chunks t l i - i)%nat = Some c
             /\ chunkOffset c <= t <= chunkOffset c + chunkSize c
             /\ t <= start + total_size l)
  \/ (skip_chunks t l i = (i + length l)%nat
      /\ (l = [] \/ start + total_size l < t)).
Proof.
  revert start i. induction l as [|c r IH]; intros start i Hc Hs H0 Hmax Ht.
  - right. cbn. split; [lia|now left].
  - destruct Hc as [Hoff Hc]. apply Forall_cons in Hs as [Hsz Hs].
    change (total_size (c :: r)) with (chunkSize c + total_size r) in *.
    pose proof (total_size_nonneg r Hs) as Hnn.
    cbn [skip_chunks]. rewrite to_off_t_id
      by (unfold off_t_range, OFF_MIN; unfold OFF_MAX in *; lia).
    destruct (chunkOffset c + chunkSize c <? t) eqn:E.
    + apply Z.ltb_lt in E.
      destruct (IH (start + chunkSize c) (S i) Hc Hs) as
        [(c' & Hi & Hl & Hin & Hle)|(Hend & Hpast)]; try lia.
      * left. exists c'. split; [lia|]. split; [|split; [exact Hin|lia]].
        replace (skip_chunks t r (S i) - i)%nat
          with (S (skip_chunks t r (S i) - S i)) by lia. exact Hl.
      * right. split; [cbn; lia|]. right.
        destruct Hpast as [->|Hpast]; [unfold total_size; cbn; lia|lia].
    + apply Z.ltb_ge in E. left. exists c. split; [lia|].
      rewrite Nat.sub_diag. split; [reflexivity|]. lia.
Qed.

Lemma close_chunk_owned (c : filechunk_type) (os : os_state) :
  owns_descriptor c = true ->
  (close_chunk c os).1 = set_chunkFd c invalidFileDescriptor
  /\ os_fds (close_chunk c os).2 !! chunkFd c = None.
Proof.
  intros H. unfold close_chunk. rewrite H. cbn. split; [reflexivity|].
  unfold sys_close. destruct (os_fds os !! chunkFd c) eqn:E; cbn.
  - apply lookup_delete_eq.
  - exact E.
Qed.

Lemma close_chunk_not_owned (c : filechunk_type) (os : os_state) :
  owns_descriptor c = false -> close_chunk c os = (c, os).
Proof. intros H. unfold close_chunk. now rewrite H. Qed.

(** C2 (amended): for an open handle [vbs_lseek] takes as new position
    [offset], position plus [offset] or size plus [offset]; another
    [whence] or a negative new position gives [EINVAL] and -1; otherwise
    the new position is returned.  When it is the current position
    nothing changes.  When it is not, the cursor goes to a chunk whose
    closed interval [[chunkOffset, chunkOffset + chunkSize]] holds the new
    position (the half-open interval unless the position is the end
    offset of that chunk), or to the end of the set when the position is
    past the end of the file; and the chunk the cursor leaves is closed
    whenever the cursor moves. *)
Theorem vbs_lseek_spec (fd offset whence : Z) (p : process) (f : openfile_type) :
  openedFiles p !! fd = Some f ->
  openfile_wf f ->
  (whence <> SEEK_SET -> whence <> SEEK_CUR -> whence <> SEEK_END ->
   vbs_lseek fd offset whence p = (with_errno p EINVAL, -1))
  /\ (forall t, seek_position f offset whence = Some t -> off_t_range t ->
      (t < 0 -> vbs_lseek fd offset whence p = (with_errno p EINVAL, -1))
      /\ (0 <= t -> t = filePointer f -> vbs_lseek fd offset whence p = (p, t))
      /\ (0 <= t -> t <> filePointer f ->
          exists chunks' os' cur,
            vbs_lseek fd offset whence p
            = (mk_process
                 (<[fd := mk_openfile t (fileSize f) chunks' cur]> (openedFiles p))
                 os', t)
            /\ chunks' !! cur = fileChunks f !! cur
            /\ ((exists c, fileChunks f !! cur = Some c
                    /\ chunkOffset c <= t <= chunkOffset c + chunkSize c
                    /\ (t <> chunkOffset c + chunkSize c ->
                        chunkOffset c <= t < chunkOffset c + chunkSize c)
                    /\ t <= fileSize f)
                \/ (cur = length (fileChunks f) /\ fileSize f < t))
            /\ (cur = chunkPtr f \/ fileChunks f !! chunkPtr f = None ->
                chunks' = fileChunks f /\ os' = proc_os p)
            /\ (forall old, fileChunks f !! chunkPtr f = Some old ->
                cur <> chunkPtr f ->
                chunks' = <[chunkPtr f := (close_chunk old (proc_os p)).1]> (fileChunks f)
                /\ os' = (close_chunk old (proc_os p)).2
                /\ (owns_descriptor old = true ->
                    chunks' !! chunkPtr f = Some (set_chunkFd old invalidFileDescriptor)
                    /\ os_fds os' !! chunkFd old = None)))).
Proof.
  intros Hf Hwf. split.
  { intros H0 H1 H2. unfold vbs_lseek.
    now rewrite Hf, (seek_target_unknown f offset whence H0 H1 H2). }
  intros t Ht Hr. pose proof (seek_target_position f offset whence t Ht Hr) as Hst.
  split; [|split].
  - intros Hneg. unfold vbs_lseek. rewrite Hf, Hst.
    apply Z.ltb_lt in Hneg. now rewrite Hneg.
  - intros Hpos ->. now apply vbs_lseek_early_return.
  - intros Hpos Hne. destruct Hwf as [Hcont Hsz Htot Hmax Hcur Hnil].
    set (cur := skip_chunks t (fileChunks f) 0).
    assert (Hcursor :
      (exists c, fileChunks f !! cur = Some c
                 /\ chunkOffset c <= t <= chunkOffset c + chunkSize c
                 /\ (t <> chunkOffset c + chunkSize c ->
                     chunkOffset c <= t < chunkOffset c + chunkSize c)
                 /\ t <= fileSize f)
      \/ (cur = length (fileChunks f) /\ fileSize f < t)).
    { destruct (skip_chunks_spec t (fileChunks f) 0 0 Hcont Hsz) as
        [(c & _ & Hl & Hin & Hle)|(Hend & Hpast)]; try lia.
      - left. exists c. rewrite Nat.sub_0_r in Hl.
        split; [exact Hl|]. split; [exact Hin|]. split; [lia|lia].
      - right. split; [exact Hend|]. destruct Hpast as [Hn|Hpast]; [contradiction|lia]. }
    unfold vbs_lseek. rewrite Hf, Hst.
    destruct (t <? 0) eqn:E1; [apply Z.ltb_lt in E1; lia|].
    destruct (t =? filePointer f) eqn:E2; [apply Z.eqb_eq in E2; contradiction|].
    fold cur.
    destruct (fileChunks f !! chunkPtr f) as [old|] eqn:Hold.
    + destruct (chunkPtr f =? cur)%nat eqn:E3; cbn [negb].
      * apply Nat.eqb_eq in E3.
        exists (fileChunks f), (proc_os p), cur. split; [reflexivity|].
        split; [reflexivity|]. split; [exact Hcursor|]. split.
        -- intros _. split; reflexivity.
        -- intros old' _ Hd. congruence.
      * apply Nat.eqb_neq in E3.
        destruct (close_chunk old (proc_os p)) as [old1 os1] eqn:Hclose.
        exists (<[chunkPtr f := old1]> (fileChunks f)), os1, cur.
        split; [reflexivity|].
        split; [now apply list_lookup_insert_ne|]. split; [exact Hcursor|]. split.
        -- intros [Hd|Hd]; congruence.
        -- intros old' [= <-] _. rewrite Hclose. cbn.
           split; [reflexivity|]. split; [reflexivity|].
           intros Hown. destruct (close_chunk_owned old (proc_os p) Hown) as [Hc1 Hc2].
           rewrite Hclose in Hc1, Hc2. cbn in Hc1, Hc2. subst old1.
           split; [|exact Hc2].
           apply list_lookup_insert_eq. now apply lookup_lt_Some in Hold.
    + exists (fileChunks f), (proc_os p), cur. split; [reflexivity|].
      split; [reflexivity|]. split; [exact Hcursor|]. split.
      * intros _. split; reflexivity.
      * intros old' Hd. discriminate.
Qed.

Lemma vbs_lseek_spec_witness :
  exists f,
    openedFiles rec_A_at3 !! INT_MAX = Some f
    /\ openfile_wf f
    /\ exists chunks' os' cur,
         vbs_lseek INT_MAX 12 SEEK_SET rec_A_at3
         = (mk_process
              (<[INT_MAX := mk_openfile 12 (fileSize f) chunks' cur]>
                 (openedFiles rec_A_at3)) os', 12)
         /\ chunks' !! cur = fileChunks f !! cur.
Proof.
  eexists. split; [vm_compute; reflexivity|].
  match goal with |- openfile_wf ?f /\ _ =>
    assert (Hwf : openfile_wf f);
    [|assert (Hf : openedFiles rec_A_at3 !! INT_MAX = Some f)
        by (vm_compute; reflexivity)]
  end.
  { constructor; cbn.
    - repeat split.
    - repeat (apply List.Forall_cons; [cbn; lia|]). apply List.Forall_nil.
    - reflexivity.
    - unfold OFF_MAX. lia.
    - lia.
    - discriminate. }
  split; [exact Hwf|].
  destruct (vbs_lseek_spec INT_MAX 12 SEEK_SET rec_A_at3 _ Hf Hwf) as [_ H].
  destruct (H 12) as (_ & _ & H3).
  - reflexivity.
  - unfold off_t_range, OFF_MIN, OFF_MAX. lia.
  - destruct H3 as (chunks' & os' & cur & Heq & Hl & _).
    + lia.
    + cbn. lia.
    + exists chunks', os', cur. split; [exact Heq|exact Hl].
Defined.

(** C2 as stated fails.  After a read of the ten bytes of the first
    chunk the cursor is still on that chunk; a seek to the current
    position (10) returns 10 and leaves it there, though position 10 is
    the first byte of the second chunk.  A seek from position 3 to
    position 10 also ends on the first chunk, and a seek to the end of
    the file (15) on the last chunk, not past it. *)
Lemma vbs_lseek_counterexample :
  (snd (vbs_lseek INT_MAX 0 SEEK_CUR rec_A_read10) = 10
   /\ cursor_holds_position
        <$> (openedFiles (fst (vbs_lseek INT_MAX 0 SEEK_CUR rec_A_read10)) !! INT_MAX)
      = Some false)
  /\ (snd (vbs_lseek INT_MAX 10 SEEK_SET rec_A_at3) = 10
      /\ cursor_holds_position
           <$> (openedFiles (fst (vbs_lseek INT_MAX 10 SEEK_SET rec_A_at3)) !! INT_MAX)
         = Some false)
  /\ (snd (vbs_lseek INT_MAX 0 SEEK_END rec_A_at3) = 15
      /\ cursor_holds_position
           <$> (openedFiles (fst (vbs_lseek INT_MAX 0 SEEK_END rec_A_at3)) !! INT_MAX)
         = Some false).
Proof. vm_compute. repeat split. Qed.

(* ================================================================== *)
(** ** The read loop *)
(* ================================================================== *)

(** A state that the loop body maps to itself is never left. *)
Lemma read_loop_fixed_point (s : read_state) :
  read_step s = Continue s -> forall fuel, read_loop fuel s = None.
Proof.
  intros Hs fuel. induction fuel as [|fuel IH]; [reflexivity|].
  cbn [read_loop]. now rewrite Hs.
Qed.

Lemma read_loop_stuck (s0 s1 : read_state) :
  read_step s0 = Continue s1 -> read_step s1 = Continue s1 ->
  forall fuel, read_loop fuel s0 = None.
Proof.
  intros H0 H1 [|fuel]; [reflexivity|].
  cbn [read_loop]. rewrite H0. now apply read_loop_fixed_point.
Qed.

Lemma vbs_read_enters_loop (fuel : nat) (fd buf count : Z) (p : process)
    (f : openfile_type) (c : filechunk_type) :
  openedFiles p !! fd = Some f -> buf <> 0 -> count <> 0 ->
  fileChunks f !! chunkPtr f = Some c ->
  read_loop fuel (mk_read_state (proc_os p) f count []) = None ->
  vbs_read fuel fd buf count p = None.
Proof.
  intros Hf Hb Hc Hcur Hloop. unfold vbs_read. rewrite Hf.
  apply Z.eqb_neq in Hb, Hc. now rewrite Hb, Hc, Hcur, Hloop.
Qed.

(** C3 fails on the code: [rec_D] is a Mark6 file whose only block
    announces eight bytes of payload of which four are in the file.
    [mk6_open] accepts it; a read of eight bytes gets four, after which
    [::read] keeps returning 0, a case in which the loop neither breaks
    nor advances: no number of iterations ends the call. *)
Theorem vbs_read_spins :
  mk6_open mk6_layout 8 (Some "rec_D"%string) (Some ["/mnt/disk0"%string]) mk6_process
  = Some (rec_D_opened, Ret INT_MAX)
  /\ forall fuel, vbs_read fuel INT_MAX 4096 8 rec_D_opened = None.
Proof.
  split; [vm_compute; reflexivity|].
  intros fuel. eapply vbs_read_enters_loop.
  - vm_compute. reflexivity.
  - discriminate.
  - discriminate.
  - vm_compute. reflexivity.
  - eapply read_loop_stuck.
    + vm_compute. reflexivity.
    + vm_compute. reflexivity.
Qed.

(* ================================================================== *)
(** ** The ordered chunk set *)
(* ================================================================== *)

Section SetInsert.

Variable c : filechunk_type.

(** A refused insert leaves the set as it is. *)
Lemma set_insert_refused (s : filechunks_type) :
  (set_insert c s).2 = false -> (set_insert c s).1 = s.
Proof.
  induction s as [|x r IH]; cbn; [discriminate|].
  destruct (chunkNumber c <? chunkNumber x); [discriminate|].
  destruct (chunkNumber x <? chunkNumber c); [|reflexivity].
  destruct (set_insert c r) as [r' fresh]. cbn in *.
  intros ->. now rewrite IH.
Qed.

(** A refused insert found the number in the set. *)
Lemma set_insert_refused_elem (s : filechunks_type) :
  (set_insert c s).2 = false -> chunkNumber c ∈ map chunkNumber s.
Proof.
  induction s as [|x r IH]; cbn; [discriminate|].
  destruct (chunkNumber c <? chunkNumber x) eqn:E1; [discriminate|].
  destruct (chunkNumber x <? chunkNumber c) eqn:E2.
  - destruct (set_insert c r) as [r' fresh]. cbn in *. intros ->.
    right. now apply IH.
  - intros _. apply Z.ltb_ge in E1, E2.
    replace (chunkNumber x) with (chunkNumber c) by lia. left.
Qed.

(** In a set, a number that is present is found. *)
Lemma set_insert_duplicate (s : filechunks_type) :
  chunks_sorted s -> chunkNumber c ∈ map chunkNumber s ->
  (set_insert c s).2 = false.
Proof.
  induction s as [|x r IH]; cbn; intros Hs Hin.
  - now apply elem_of_nil in Hin.
  - destruct Hs as [Hx Hr]. apply elem_of_cons in Hin as [Heq|Hin].
    + rewrite Heq, Z.ltb_irrefl. reflexivity.
    + assert (Hlt : chunkNumber x < chunkNumber c).
      { apply list_elem_of_fmap in Hin as (y & -> & Hy).
        rewrite Forall_forall in Hx. now apply Hx. }
      destruct (chunkNumber c <? chunkNumber x) eqn:E1;
        [apply Z.ltb_lt in E1; lia|].
      apply Z.ltb_lt in Hlt. rewrite Hlt.
      specialize (IH Hr Hin). destruct (set_insert c r). exact IH.
Qed.

Lemma set_insert_new (s : filechunks_type) :
  chunkNumber c ∉ map chunkNumber s -> (set_insert c s).2 = true.
Proof.
  intros Hn. destruct ((set_insert c s).2) eqn:E; [reflexivity|].
  now apply set_insert_refused_elem in E.
Qed.

(** An accepted insert adds a copy of the chunk and nothing else. *)
Lemma set_insert_accepted (s : filechunks_type) :
  (set_insert c s).2 = true -> (set_insert c s).1 ≡ₚ copy_filechunk c :: s.
Proof.
  induction s as [|x r IH]; cbn; [reflexivity|].
  destruct (chunkNumber c <? chunkNumber x); [reflexivity|].
  destruct (chunkNumber x <? chunkNumber c); [|discriminate].
  destruct (set_insert c r) as [r' fresh]. cbn in *. intros ->.
  rewrite IH by reflexivity. apply Permutation_swap.
Qed.

Lemma set_insert_numbers (s : filechunks_type) (n : Z) :
  n ∈ map chunkNumber (set_insert c s).1 <->
  n ∈ map chunkNumber s \/ ((set_insert c s).2 = true /\ n = chunkNumber c).
Proof.
  destruct ((set_insert c s).2) eqn:E.
  - rewrite (set_insert_accepted s E). cbn. rewrite elem_of_cons.
    unfold copy_filechunk. cbn. split.
    + intros [->|H]; [right; split; reflexivity|left; exact H].
    + intros [H|[_ ->]]; [right; exact H|left; reflexivity].
  - rewrite (set_insert_refused s E). split.
    + intros H. left. exact H.
    + intros [H|[H _]]; [exact H|discriminate].
Qed.

(** Insertion keeps the set ordered. *)
Lemma set_insert_sorted (s : filechunks_type) :
  chunks_sorted s -> chunks_sorted (set_insert c s).1.
Proof.
  induction s as [|x r IH]; cbn; intros Hs.
  - split; [constructor|exact I].
  - destruct Hs as [Hx Hr].
    destruct (chunkNumber c <? chunkNumber x) eqn:E1.
    + apply Z.ltb_lt in E1. cbn. split; [|split; assumption].
      constructor; [exact E1|].
      eapply Forall_impl; [exact Hx|]. cbn. intros; lia.
    + destruct (chunkNumber x <? chunkNumber c) eqn:E2; [|split; assumption].
      apply Z.ltb_lt in E2. specialize (IH Hr).
      pose proof (set_insert_numbers r) as Hn.
      destruct (set_insert c r) as [r' fresh]. cbn in *. split; [|exact IH].
      apply Forall_forall. intros y Hy.
      assert (Hy' : chunkNumber y ∈ map chunkNumber r').
      { apply list_elem_of_fmap. now exists y. }
      apply Hn in Hy' as [Hy'|[_ ->]]; [|exact E2].
      apply list_elem_of_fmap in Hy' as (z & -> & Hz).
      rewrite Forall_forall in Hx. now apply Hx.
Qed.

(** The chunks that were in the set stay, untouched. *)
Lemma set_insert_keeps (s : filechunks_type) (x : filechunk_type) :
  x ∈ s -> x ∈ (set_insert c s).1.
Proof.
  intros Hx. destruct ((set_insert c s).2) eqn:E.
  - rewrite (set_insert_accepted s E). now right.
  - now rewrite (set_insert_refused s E).
Qed.

End SetInsert.

(* ================================================================== *)
(** ** System calls on an open regular file *)
(* ================================================================== *)

Lemma sys_read_regular (fd count : Z) (os : os_state) (data : list byte) (pos : Z) :
  os_fds os !! fd = Some (mk_open_fd (RegularFile data) pos) ->
  let bytes := take (Z.to_nat count) (drop (Z.to_nat pos) data) in
  sys_read fd count os
  = (set_fds (<[fd := mk_open_fd (RegularFile data) (pos + Z.of_nat (length bytes))]>
                (os_fds os)) os,
     Z.of_nat (length bytes), bytes).
Proof. intros H. unfold sys_read. rewrite H. reflexivity. Qed.

Lemma sys_lseek_set (fd pos : Z) (os : os_state) (o : open_fd) :
  os_fds os !! fd = Some o -> 0 <= pos <= OFF_MAX ->
  sys_lseek fd pos SEEK_SET os
  = (set_fds (<[fd := mk_open_fd (fd_node o) pos]> (os_fds os)) os, pos).
Proof.
  intros H Hpos. unfold sys_lseek. rewrite H.
  change (SEEK_SET =? SEEK_SET) with true. cbv iota. rewrite Z.add_0_l.
  destruct (pos <? 0) eqn:E1; [apply Z.ltb_lt in E1; lia|].
  destruct (OFF_MAX <? pos) eqn:E2; [apply Z.ltb_lt in E2; lia|].
  reflexivity.
Qed.

Lemma sys_close_open (fd : Z) (os : os_state) (o : open_fd) :
  os_fds os !! fd = Some o ->
  sys_close fd os = (set_fds (delete fd (os_fds os)) os, 0).
Proof. intros H. unfold sys_close. now rewrite H. Qed.

Lemma length_read (count pos : Z) (data : list byte) :
  0 <= count -> 0 <= pos ->
  Z.of_nat (length (take (Z.to_nat count) (drop (Z.to_nat pos) data)))
  = Z.min count (Z.max 0 (Z.of_nat (length data) - pos)).
Proof.
  intros Hc Hp. rewrite length_take, length_drop. lia.
Qed.

(* ================================================================== *)
(** ** Conversions in the Mark6 scan *)
(* ================================================================== *)

Lemma to_uint_id (z : Z) : 0 <= z <= INT_MAX -> to_uint z = z.
Proof.
  unfold to_uint, INT_MAX. intros H.
  change (2 ^ 32) with 4294967296. rewrite Z.mod_small; lia.
Qed.

Lemma to_off_t_size_t (a b : Z) : to_off_t (a + to_size_t b) = to_off_t (a + b).
Proof.
  unfold to_off_t, to_size_t, wrap_signed. f_equal.
  replace (a + b mod 2 ^ 64 + 2 ^ (64 - 1)) with ((a + 2 ^ (64 - 1)) + b mod 2 ^ 64) by lia.
  rewrite Z.add_mod_idemp_r by (change (2 ^ 64) with 18446744073709551616; lia).
  f_equal. lia.
Qed.

Lemma mk6_tmp_chunk (fmt : mk6_format) (fd fpos : Z) (wbh : list byte) :
  mk6_format_wf fmt -> 0 < fd <= INT_MAX ->
  0 <= fpos -> fpos + wbh_size fmt <= OFF_MAX ->
  0 <= wbh_blocknum fmt wbh ->
  mk6_filechunk (to_uint (wbh_blocknum fmt wbh)) (to_off_t (fpos + wbh_size fmt))
    (to_off_t (to_size_t (wbh_wb_size fmt wbh - wbh_size fmt))) fd
  = block_chunk fmt fd (mk_mk6_block fpos (wbh_blocknum fmt wbh) (wbh_wb_size fmt wbh)).
Proof.
  intros [Hfh Hwb Hbn Hsz] Hfd Hpos Hmax Hnum.
  specialize (Hbn wbh). specialize (Hsz wbh).
  unfold int_range, INT_MIN, INT_MAX in *.
  unfold mk6_filechunk, block_chunk. cbn.
  rewrite to_uint_id by (unfold INT_MAX; lia).
  rewrite (to_off_t_id (fpos + wbh_size fmt))
    by (unfold off_t_range, OFF_MIN; unfold OFF_MAX in *; lia).
  change (to_size_t (wbh_wb_size fmt wbh - wbh_size fmt))
    with (0 + to_size_t (wbh_wb_size fmt wbh - wbh_size fmt)) at 1.
  rewrite to_off_t_size_t, Z.add_0_l.
  rewrite to_off_t_id by (unfold off_t_range, OFF_MIN, OFF_MAX; lia).
  rewrite to_int_id by (unfold int_range, INT_MIN, INT_MAX; lia).
  reflexivity.
Qed.

Lemma block_chunk_copy (fmt : mk6_format) (fd : Z) (b : mk6_block) :
  0 < fd -> copy_filechunk (block_chunk fmt fd b) = block_chunk fmt fd b.
Proof.
  intros Hfd. unfold copy_filechunk, block_chunk, set_chunkFd. cbn.
  destruct (- fd <? 0) eqn:E; [reflexivity|]. apply Z.ltb_ge in E. lia.
Qed.

Lemma block_chunk_not_owned (fmt : mk6_format) (fd : Z) (b : mk6_block) (os : os_state) :
  0 < fd -> filechunk_dtor (block_chunk fmt fd b) os = os.
Proof.
  intros Hfd. unfold filechunk_dtor, owns_descriptor, block_chunk. cbn.
  destruct (0 <=? - fd) eqn:E; [apply Z.leb_le in E; lia|]. reflexivity.
Qed.

(* ================================================================== *)
(** ** The scan of a Mark6 file *)
(* ================================================================== *)

Section Mk6Scan.

Variable fmt : mk6_format.
Hypothesis fmt_ok : mk6_format_wf fmt.
Variable fd : Z.
Hypothesis fd_ok : 0 < fd <= INT_MAX.
Variable data : list byte.
Hypothesis data_ok : Z.of_nat (length data) <= MAX_FILE_LENGTH.

(** The loop of [scanMk6RecordingFile], started with the descriptor at
    [fpos], makes chunks of the blocks of the walk from [fpos]. *)
Lemma scanMk6_loop_blocks (fuel : nat) :
  forall (fpos : Z) (rv : filechunks_type) (os : os_state),
    os_fds os !! fd = Some (mk_open_fd (RegularFile data) fpos) ->
    0 <= fpos <= Z.of_nat (length data) + INT_MAX ->
    (0 < fuel)%nat -> Z.of_nat (length data) - fpos < Z.of_nat fuel ->
    exists os',
      scanMk6_loop fmt fuel fd fpos rv os
      = Some (os', scan_blocks fmt fd (block_walk fmt fuel data fpos) rv)
      /\ descriptor_after fd os os' (scan_blocks fmt fd (block_walk fmt fuel data fpos) rv).
Proof.
  destruct fmt_ok as [Hfh Hwb Hbn Hsz].
  unfold MAX_FILE_LENGTH, OFF_MAX in data_ok.
  change (2 ^ 32) with 4294967296 in data_ok.
  induction fuel as [|k IH]; intros fpos rv os Hfd Hpos Hfuel Hlen; [lia|].
  cbn [scanMk6_loop block_walk].
  rewrite (sys_read_regular fd (wbh_size fmt) os data fpos Hfd). cbv zeta.
  set (wbh := take (Z.to_nat (wbh_size fmt)) (drop (Z.to_nat fpos) data)).
  assert (Hn : Z.of_nat (length wbh)
               = Z.min (wbh_size fmt) (Z.max 0 (Z.of_nat (length data) - fpos)))
    by (apply length_read; lia).
  set (os1 := set_fds _ os).
  assert (Hfd1 : os_fds os1 !! fd
                 = Some (mk_open_fd (RegularFile data) (fpos + Z.of_nat (length wbh))))
    by apply lookup_insert_eq.
  assert (Hother1 : forall fd', fd' <> fd -> os_fds os1 !! fd' = os_fds os !! fd').
  { intros fd' Hne. subst os1. cbn. now rewrite lookup_insert_ne by congruence. }
  destruct (Z.of_nat (length wbh) =? wbh_size fmt) eqn:En; cbn [negb].
  2:{ apply Z.eqb_neq in En.
      destruct (Z.of_nat (length wbh) <? wbh_size fmt) eqn:El;
        [|apply Z.ltb_ge in El; lia].
      exists os1. split; [reflexivity|]. unfold descriptor_after. cbn [scan_blocks].
      split; [reflexivity|]. split; [exact Hother1|]. rewrite Hfd1. eauto. }
  apply Z.eqb_eq in En.
  destruct (Z.of_nat (length wbh) <? wbh_size fmt) eqn:El;
    [apply Z.ltb_lt in El; lia|].
  cbn [scan_blocks].
  set (b := mk_mk6_block fpos (wbh_blocknum fmt wbh) (wbh_wb_size fmt wbh)).
  change ((0 <=? wbh_blocknum fmt wbh) && (0 <? wbh_wb_size fmt wbh))
    with (block_ok b).
  destruct (block_ok b) eqn:Eok; cbn [negb].
  2:{ rewrite (sys_close_open fd os1 _ Hfd1). cbn [fst].
      eexists. split; [reflexivity|]. unfold descriptor_after.
      cbn [os_files os_fds set_fds].
      split; [reflexivity|]. split.
      - intros fd' Hne. rewrite lookup_delete_ne by congruence. now apply Hother1.
      - apply lookup_delete_eq. }
  apply andb_true_iff in Eok as [Ebn Ewb].
  apply Z.leb_le in Ebn. apply Z.ltb_lt in Ewb.
  change (0 <= wbh_blocknum fmt wbh) in Ebn.
  change (0 < wbh_wb_size fmt wbh) in Ewb.
  pose proof (Hsz wbh) as Hszw. unfold int_range, INT_MIN, INT_MAX in Hszw.
  unfold INT_MAX in Hpos, Hwb.
  rewrite (mk6_tmp_chunk fmt fd fpos wbh)
    by (first [assumption | constructor; assumption | unfold OFF_MAX; lia | lia]).
  fold b. rewrite block_chunk_not_owned by lia.
  destruct (set_insert (block_chunk fmt fd b) rv) as [rv1 fresh] eqn:Eins.
  destruct fresh; cbn [negb].
  2:{ rewrite (sys_close_open fd os1 _ Hfd1). cbn [fst].
      eexists. split; [reflexivity|]. unfold descriptor_after.
      cbn [os_files os_fds set_fds].
      split; [reflexivity|]. split.
      - intros fd' Hne. rewrite lookup_delete_ne by congruence. now apply Hother1.
      - apply lookup_delete_eq. }
  rewrite to_off_t_size_t.
  rewrite (to_off_t_id (fpos + wbh_size fmt))
    by (unfold off_t_range, OFF_MIN, OFF_MAX; lia).
  replace (fpos + wbh_size fmt + (wbh_wb_size fmt wbh - wbh_size fmt))
    with (fpos + wbh_wb_size fmt wbh) by lia.
  rewrite to_off_t_id by (unfold off_t_range, OFF_MIN, OFF_MAX; lia).
  rewrite (sys_lseek_set fd (fpos + wbh_wb_size fmt wbh) os1 _ Hfd1)
    by (unfold OFF_MAX; lia).
  destruct (fpos + wbh_wb_size fmt wbh =? -1) eqn:Em1;
    [apply Z.eqb_eq in Em1; lia|].
  cbn [fd_node].
  set (os3 := set_fds _ os1).
  destruct (IH (fpos + wbh_wb_size fmt wbh) rv1 os3) as (os' & Hrun & Hf & Ho & Hr).
  - apply lookup_insert_eq.
  - unfold INT_MAX. lia.
  - lia.
  - lia.
  - exists os'. split; [exact Hrun|]. split; [exact Hf|]. split; [|exact Hr].
    intros fd' Hne. rewrite (Ho fd' Hne). subst os3. cbn.
    rewrite lookup_insert_ne by congruence. now apply Hother1.
Qed.

End Mk6Scan.

Section Mk6File.

Variable fmt : mk6_format.
Hypothesis fmt_ok : mk6_format_wf fmt.
Variables (file : string) (os : os_state) (data : list byte) (fuel : nat).
Hypothesis file_ok : os_files os !! file = Some (RegularFile data).
Hypothesis fd_ok : 0 < fresh_fd (os_fds os) <= INT_MAX.
Hypothesis data_ok : Z.of_nat (length data) <= MAX_FILE_LENGTH.
Hypothesis header_ok : fh_size fmt <= Z.of_nat (length data).
Hypothesis sync_ok :
  fh_sync_word fmt (take (Z.to_nat (fh_size fmt)) data) = MARK6_SG_SYNC_WORD fmt.
Hypothesis version_ok :
  fh_version fmt (take (Z.to_nat (fh_size fmt)) data) = 2.
Hypothesis fuel_ok : (length data < fuel)%nat.

(** The scan of a file with a good file header: the file is opened on
    the lowest free descriptor and its blocks, walked from the end of
    the file header on, are made into chunks. *)
Lemma scanMk6RecordingFile_walk (rv : filechunks_type) :
  let fd := fresh_fd (os_fds os) in
  let r := scan_blocks fmt fd (block_walk fmt fuel data (fh_size fmt)) rv in
  exists os',
    scanMk6RecordingFile fmt fuel file rv os = Some (os', r)
    /\ os_files os' = os_files os
    /\ (forall fd', fd' <> fd -> os_fds os' !! fd' = os_fds os !! fd')
    /\ match r with
       | Ret _ => is_Some (os_fds os' !! fd)
       | Throw _ => os_fds os' !! fd = None
       end.
Proof.
  intros fd r. pose proof fmt_ok as [Hfh Hwb Hbn Hsz].
  unfold scanMk6RecordingFile, sys_open. rewrite file_ok. fold fd.
  destruct (fd <? 0) eqn:E; [apply Z.ltb_lt in E; subst fd; lia|].
  set (os1 := set_fds _ os).
  assert (Hfd1 : os_fds os1 !! fd = Some (mk_open_fd (RegularFile data) 0))
    by apply lookup_insert_eq.
  rewrite (sys_read_regular fd (fh_size fmt) os1 data 0 Hfd1). cbv zeta.
  change (Z.to_nat 0) with 0%nat. rewrite drop_0.
  assert (Hn : Z.of_nat (length (take (Z.to_nat (fh_size fmt)) data)) = fh_size fmt)
    by (rewrite length_take; lia).
  rewrite Hn, Z.eqb_refl, sync_ok, Z.eqb_refl, version_ok. cbn [negb Z.eqb].
  rewrite Pos.eqb_refl.
  set (os2 := set_fds _ os1).
  destruct (scanMk6_loop_blocks fmt fmt_ok fd fd_ok data data_ok fuel
              (fh_size fmt) rv os2) as (os' & Hrun & Hf & Ho & Hr).
  - subst os2. cbn [os_fds set_fds]. rewrite lookup_insert_eq.
    now rewrite Z.add_0_l.
  - unfold INT_MAX. lia.
  - lia.
  - lia.
  - exists os'. split; [exact Hrun|]. split; [exact Hf|]. split; [|exact Hr].
    intros fd' Hne. rewrite (Ho fd' Hne). subst os2 os1. cbn [os_fds set_fds].
    now rewrite !lookup_insert_ne by congruence.
Qed.

End Mk6File.

(* ================================================================== *)
(** ** Blocks and the chunks made of them *)
(* ================================================================== *)

Lemma block_walk_positions (fmt : mk6_format) (fuel : nat) (data : list byte) :
  forall start,
    (forall b, block_walk fmt fuel data start !! 0%nat = Some b ->
               blk_position b = start)
    /\ (forall i b b',
          block_walk fmt fuel data start !! i = Some b ->
          block_walk fmt fuel data start !! S i = Some b' ->
          blk_position b' = blk_position b + blk_wb_size b).
Proof.
  induction fuel as [|k IH]; intros start; cbn [block_walk].
  - split; intros; discriminate.
  - destruct (_ <? wbh_size fmt); [split; intros; discriminate|].
    set (wb := wbh_wb_size fmt _). destruct (IH (start + wb)) as [IH0 IHS].
    split.
    + intros b [= <-]. reflexivity.
    + intros [|i] b b' Hb Hb'.
      * injection Hb as <-. cbn in Hb'. now rewrite (IH0 _ Hb').
      * exact (IHS i b b' Hb Hb').
Qed.

Lemma walk_end_cons (start : Z) (b : mk6_block) (rest : list mk6_block) :
  walk_end start (b :: rest) = walk_end (blk_position b + blk_wb_size b) rest.
Proof.
  unfold walk_end. destruct rest as [|b' rest]; [reflexivity|].
  rewrite last_cons_cons. destruct (last (b' :: rest)) eqn:E; [reflexivity|].
  apply last_None in E. discriminate.
Qed.

(** With enough fuel the walk over good blocks only stops where fewer
    bytes than a block header are left. *)
Lemma block_walk_complete (fmt : mk6_format) (data : list byte) (fuel : nat) :
  0 < wbh_size fmt ->
  forall start,
    0 <= start -> (0 < fuel)%nat -> Z.of_nat (length data) - start < Z.of_nat fuel ->
    Forall (fun b => block_ok b = true) (block_walk fmt fuel data start) ->
    Z.of_nat (length data)
    < walk_end start (block_walk fmt fuel data start) + wbh_size fmt.
Proof.
  intros Hwb. induction fuel as [|k IH]; intros start Hs Hf Hlen Hok; [lia|].
  cbn [block_walk] in *.
  set (wbh := take (Z.to_nat (wbh_size fmt)) (drop (Z.to_nat start) data)) in *.
  assert (Hn : Z.of_nat (length wbh)
               = Z.min (wbh_size fmt) (Z.max 0 (Z.of_nat (length data) - start)))
    by (apply length_read; lia).
  destruct (Z.of_nat (length wbh) <? wbh_size fmt) eqn:E.
  - apply Z.ltb_lt in E. unfold walk_end. cbn. lia.
  - apply Z.ltb_ge in E. apply Forall_cons in Hok as [Hb Hrest].
    unfold block_ok in Hb. cbn in Hb. apply andb_true_iff in Hb as [_ Hb].
    apply Z.ltb_lt in Hb. rewrite walk_end_cons. cbn [blk_position blk_wb_size].
    apply IH; [lia|lia|lia|exact Hrest].
Qed.

Section ScanBlocks.

Variable fmt : mk6_format.
Variable fd : Z.
Hypothesis fd_pos : 0 < fd.

(** Good blocks with distinct numbers all become chunks. *)
Lemma scan_blocks_ok (blocks : list mk6_block) :
  forall rv,
    Forall (fun b => block_ok b = true) blocks ->
    NoDup (map blk_number blocks) ->
    (forall b, b ∈ blocks -> blk_number b ∉ map chunkNumber rv) ->
    exists chunks,
      scan_blocks fmt fd blocks rv = Ret chunks
      /\ chunks ≡ₚ map (block_chunk fmt fd) blocks ++ rv
      /\ (chunks_sorted rv -> chunks_sorted chunks).
Proof.
  induction blocks as [|b rest IH]; intros rv Hok Hnd Hnew.
  - exists rv. repeat split; auto.
  - apply Forall_cons in Hok as [Hb Hok]. cbn [map] in Hnd.
    apply NoDup_cons in Hnd as [Hnb Hnd].
    cbn [scan_blocks]. rewrite Hb.
    pose proof (set_insert_new (block_chunk fmt fd b) rv
                  (Hnew b (ltac:(left)))) as Hfresh.
    pose proof (set_insert_accepted _ rv Hfresh) as Hperm.
    pose proof (set_insert_numbers (block_chunk fmt fd b) rv) as Hnum.
    pose proof (set_insert_sorted (block_chunk fmt fd b) rv) as Hsort.
    rewrite block_chunk_copy in Hperm by exact fd_pos.
    destruct (set_insert (block_chunk fmt fd b) rv) as [rv1 fresh].
    cbn in Hfresh, Hperm, Hnum, Hsort. subst fresh.
    destruct (IH rv1 Hok Hnd) as (chunks & Hrun & Hp & Hs).
    { intros b' Hb' Hin. apply Hnum in Hin as [Hin|[_ Hin]].
      - exact (Hnew b' (ltac:(right; exact Hb')) Hin).
      - apply Hnb. cbn in Hin. rewrite <- Hin.
        apply list_elem_of_fmap. now exists b'. }
    exists chunks. split; [exact Hrun|]. split.
    + rewrite Hp, Hperm. symmetry. apply Permutation_middle.
    + intros Hrv. apply Hs, Hsort, Hrv.
Qed.

(** The first bad header, after good blocks with distinct numbers,
    ends the scan with the complaint about the block header. *)
Lemma scan_blocks_bogus (good : list mk6_block) (bad : mk6_block)
    (rest : list mk6_block) :
  forall rv,
    Forall (fun b => block_ok b = true) good ->
    NoDup (map blk_number good) ->
    (forall b, b ∈ good -> blk_number b ∉ map chunkNumber rv) ->
    block_ok bad = false ->
    scan_blocks fmt fd (good ++ bad :: rest) rv
    = Throw (vbs_except bogus_block_header).
Proof.
  induction good as [|b good' IH]; intros rv Hok Hnd Hnew Hbad.
  - cbn. now rewrite Hbad.
  - apply Forall_cons in Hok as [Hb Hok]. cbn [map] in Hnd.
    apply NoDup_cons in Hnd as [Hnb Hnd].
    cbn [scan_blocks app]. rewrite Hb.
    pose proof (set_insert_new (block_chunk fmt fd b) rv
                  (Hnew b (ltac:(left)))) as Hfresh.
    pose proof (set_insert_numbers (block_chunk fmt fd b) rv) as Hnum.
    destruct (set_insert (block_chunk fmt fd b) rv) as [rv1 fresh].
    cbn in Hfresh, Hnum. subst fresh.
    apply IH; [exact Hok|exact Hnd| |exact Hbad].
    intros b' Hb' Hin. apply Hnum in Hin as [Hin|[_ Hin]].
    + exact (Hnew b' (ltac:(right; exact Hb')) Hin).
    + apply Hnb. cbn in Hin. rewrite <- Hin.
      apply list_elem_of_fmap. now exists b'.
Qed.

End ScanBlocks.

(** C5: a file with a good file header is parsed from position
    [fh_size] on; every block header gives a chunk with the block number
    as sequence number, [wb_size] minus the size of the block header as
    size and the position after the block header as position; the next
    block header is taken [wb_size] bytes after the start of the current
    one; the parse ends where a block header can no longer be read in
    full.  The blocks are taken to be good and their numbers distinct
    (the other cases end in an exception), and the file to be opened on
    a descriptor other than 0, which the chunk record cannot tell from a
    descriptor of its own once negated. *)
Theorem scanMk6RecordingFile_chunks (fmt : mk6_format) (file : string)
    (os : os_state) (data : list byte) (fuel : nat) :
  mk6_format_wf fmt ->
  os_files os !! file = Some (RegularFile data) ->
  0 < fresh_fd (os_fds os) <= INT_MAX ->
  Z.of_nat (length data) <= MAX_FILE_LENGTH ->
  fh_size fmt <= Z.of_nat (length data) ->
  fh_sync_word fmt (take (Z.to_nat (fh_size fmt)) data) = MARK6_SG_SYNC_WORD fmt ->
  fh_version fmt (take (Z.to_nat (fh_size fmt)) data) = 2 ->
  (length data < fuel)%nat ->
  let fd := fresh_fd (os_fds os) in
  let blocks := block_walk fmt fuel data (fh_size fmt) in
  Forall (fun b => block_ok b = true) blocks ->
  NoDup (map blk_number blocks) ->
  exists os' chunks,
    scanMk6RecordingFile fmt fuel file [] os = Some (os', Ret chunks)
    /\ chunks ≡ₚ map (block_chunk fmt fd) blocks
    /\ chunks_sorted chunks
    /\ (forall b, b ∈ blocks ->
          exists c, c ∈ chunks
                    /\ chunkNumber c = blk_number b
                    /\ chunkSize c = blk_wb_size b - wbh_size fmt
                    /\ chunkPos c = blk_position b + wbh_size fmt)
    /\ (forall b, blocks !! 0%nat = Some b -> blk_position b = fh_size fmt)
    /\ (forall i b b',
          blocks !! i = Some b -> blocks !! S i = Some b' ->
          blk_position b' = blk_position b + blk_wb_size b)
    /\ Z.of_nat (length data) < walk_end (fh_size fmt) blocks + wbh_size fmt
    /\ is_Some (os_fds os' !! fd).
Proof.
  intros Hfmt Hfile Hfd Hdata Hhdr Hsync Hver Hfuel fd blocks Hok Hnd.
  destruct (scanMk6RecordingFile_walk fmt Hfmt file os data fuel Hfile Hfd Hdata
              Hhdr Hsync Hver Hfuel []) as (os' & Hrun & _ & _ & Hopen).
  fold fd blocks in Hrun, Hopen.
  destruct (scan_blocks_ok fmt fd (proj1 Hfd) blocks [] Hok Hnd)
    as (chunks & Hscan & Hperm & Hsorted).
  { intros b _ Hin. now apply elem_of_nil in Hin. }
  rewrite Hscan in Hrun, Hopen. rewrite app_nil_r in Hperm.
  pose proof (block_walk_positions fmt fuel data (fh_size fmt)) as [Hfirst Hnext].
  destruct Hfmt as [Hfh Hwb _ _].
  exists os', chunks. split; [exact Hrun|]. split; [exact Hperm|].
  split; [apply Hsorted; exact I|]. split; [|split; [exact Hfirst|split; [exact Hnext|]]].
  - intros b Hb. exists (block_chunk fmt fd b). split; [|repeat split].
    rewrite Hperm. apply list_elem_of_fmap. now exists b.
  - split; [|exact Hopen].
    apply block_walk_complete; [lia|lia|lia|lia|exact Hok].
Qed.

Lemma mk6_layout_wf : mk6_format_wf mk6_layout.
Proof.
  constructor; cbn.
  - unfold INT_MAX. lia.
  - unfold INT_MAX. lia.
  - intros wbh. apply to_int_range.
  - intros wbh. apply to_int_range.
Qed.

Lemma scanMk6RecordingFile_chunks_witness :
  exists os' chunks,
    scanMk6RecordingFile mk6_layout 100 "/mnt/disk0/rec_E" [] (proc_os mk6_process)
    = Some (os', Ret chunks)
    /\ chunks_sorted chunks.
Proof.
  destruct (scanMk6RecordingFile_chunks mk6_layout "/mnt/disk0/rec_E"
              (proc_os mk6_process)
              (mk6_file_header_bytes ++ mk6_block_bytes 0 16 "AAAAAAAA"
               ++ mk6_block_bytes 1 12 "BBBB") 100)
    as (os' & chunks & Hrun & _ & Hsorted & _).
  - exact mk6_layout_wf.
  - vm_compute. reflexivity.
  - vm_compute. split; [reflexivity|discriminate].
  - vm_compute. discriminate.
  - vm_compute. discriminate.
  - vm_compute. reflexivity.
  - vm_compute. reflexivity.
  - vm_compute. lia.
  - vm_compute. repeat (apply List.Forall_cons; [reflexivity|]). apply List.Forall_nil.
  - refine (bool_decide_unpack _ _). vm_compute. exact I.
  - exists os', chunks. split; [exact Hrun|exact Hsorted].
Defined.

(** C8: when the parse of a block-header file comes to a block header
    with a negative block number or a block length that is not positive,
    it throws [vbs_except] with the complaint about the block header,
    and the descriptor opened on the file is closed by then; nothing else
    is touched. *)
Theorem scanMk6RecordingFile_bogus_header (fmt : mk6_format) (file : string)
    (os : os_state) (data : list byte) (fuel : nat)
    (good : list mk6_block) (bad : mk6_block) (rest : list mk6_block) :
  mk6_format_wf fmt ->
  os_files os !! file = Some (RegularFile data) ->
  0 < fresh_fd (os_fds os) <= INT_MAX ->
  Z.of_nat (length data) <= MAX_FILE_LENGTH ->
  fh_size fmt <= Z.of_nat (length data) ->
  fh_sync_word fmt (take (Z.to_nat (fh_size fmt)) data) = MARK6_SG_SYNC_WORD fmt ->
  fh_version fmt (take (Z.to_nat (fh_size fmt)) data) = 2 ->
  (length data < fuel)%nat ->
  block_walk fmt fuel data (fh_size fmt) = good ++ bad :: rest ->
  Forall (fun b => block_ok b = true) good ->
  NoDup (map blk_number good) ->
  blk_number bad < 0 \/ blk_wb_size bad <= 0 ->
  exists os',
    scanMk6RecordingFile fmt fuel file [] os
    = Some (os', Throw (vbs_except bogus_block_header))
    /\ os_fds os' !! fresh_fd (os_fds os) = None
    /\ (forall fd', fd' <> fresh_fd (os_fds os) -> os_fds os' !! fd' = os_fds os !! fd')
    /\ os_files os' = os_files os.
Proof.
  intros Hfmt Hfile Hfd Hdata Hhdr Hsync Hver Hfuel Hwalk Hok Hnd Hbad.
  destruct (scanMk6RecordingFile_walk fmt Hfmt file os data fuel Hfile Hfd Hdata
              Hhdr Hsync Hver Hfuel []) as (os' & Hrun & Hfiles & Hother & Hclosed).
  rewrite Hwalk in Hrun, Hclosed.
  assert (Hscan : scan_blocks fmt (fresh_fd (os_fds os)) (good ++ bad :: rest) []
                  = Throw (vbs_except bogus_block_header)).
  { apply scan_blocks_bogus.
    - exact Hok.
    - exact Hnd.
    - intros b _ Hin. now apply elem_of_nil in Hin.
    - unfold block_ok. apply andb_false_iff.
      destruct Hbad as [Hn|Hs];
        [left; apply Z.leb_gt; exact Hn|right; apply Z.ltb_ge; exact Hs]. }
  rewrite Hscan in Hrun, Hclosed.
  exists os'. repeat split; assumption.
Qed.

Lemma scanMk6RecordingFile_bogus_header_witness :
  exists os',
    scanMk6RecordingFile mk6_layout 100 "/mnt/disk0/rec_F" [] (proc_os mk6_process)
    = Some (os', Throw (vbs_except bogus_block_header))
    /\ os_fds os' !! 3 = None.
Proof.
  destruct (scanMk6RecordingFile_bogus_header mk6_layout "/mnt/disk0/rec_F"
              (proc_os mk6_process)
              (mk6_file_header_bytes ++ mk6_block_bytes 0 16 "AAAAAAAA"
               ++ mk6_block_bytes (-1) 12 "BBBB") 100
              [mk_mk6_block 20 0 16] (mk_mk6_block 36 (-1) 12) [])
    as (os' & Hrun & Hclosed & _).
  - exact mk6_layout_wf.
  - vm_compute. reflexivity.
  - vm_compute. split; [reflexivity|discriminate].
  - vm_compute. discriminate.
  - vm_compute. discriminate.
  - vm_compute. reflexivity.
  - vm_compute. reflexivity.
  - vm_compute. lia.
  - vm_compute. reflexivity.
  - apply List.Forall_cons; [reflexivity|apply List.Forall_nil].
  - refine (bool_decide_unpack _ _). vm_compute. exact I.
  - left. cbn. lia.
  - exists os'. split; [exact Hrun|exact Hclosed].
Defined.

(* ================================================================== *)
(** ** Duplicate chunks *)
(* ================================================================== *)

Lemma chunks_sorted_NoDup (s : filechunks_type) :
  chunks_sorted s -> NoDup (map chunkNumber s).
Proof.
  induction s as [|x r IH]; cbn; [constructor|].
  intros [Hx Hr]. constructor; [|now apply IH].
  intros Hin. apply list_elem_of_fmap in Hin as (y & Heq & Hy).
  rewrite Forall_forall in Hx. specialize (Hx y Hy). lia.
Qed.

(** The merge of a worker's chunks into the shared set: the chunks of
    the shared set stay as they are, the new numbers are added, and the
    log lists the numbers of the local chunks that were already there. *)
Lemma merge_chunks_spec (lcl : filechunks_type) :
  forall shared,
    chunks_sorted shared -> NoDup (map chunkNumber lcl) ->
    chunks_sorted (merge_chunks lcl shared).1
    /\ (forall c, c ∈ shared -> c ∈ (merge_chunks lcl shared).1)
    /\ (forall n, n ∈ map chunkNumber (merge_chunks lcl shared).1 <->
                  n ∈ map chunkNumber shared \/ n ∈ map chunkNumber lcl)
    /\ (forall n, n ∈ (merge_chunks lcl shared).2 <->
                  n ∈ map chunkNumber lcl /\ n ∈ map chunkNumber shared).
Proof.
  induction lcl as [|c r IH]; intros shared Hs Hnd.
  - cbn. split; [exact Hs|]. split; [auto|]. split.
    + intros n. split; [auto|]. intros [H|H]; [exact H|now apply elem_of_nil in H].
    + intros n. split; [intros H; now apply elem_of_nil in H|].
      intros [H _]. now apply elem_of_nil in H.
  - cbn [map] in Hnd. apply NoDup_cons in Hnd as [Hc Hnd]. cbn [merge_chunks].
    pose proof (set_insert_sorted c shared Hs) as Hs1.
    pose proof (set_insert_keeps c shared) as Hkeep.
    pose proof (set_insert_numbers c shared) as Hnum.
    pose proof (set_insert_refused_elem c shared) as Hrefused.
    pose proof (set_insert_duplicate c shared Hs) as Hdup.
    destruct (set_insert c shared) as [shared1 fresh]. cbn in *.
    specialize (IH shared1 Hs1 Hnd). destruct (merge_chunks r shared1) as [shared2 log].
    cbn in *. destruct IH as (IH1 & IH2 & IH3 & IH4).
    split; [exact IH1|]. split; [intros x Hx; apply IH2, Hkeep, Hx|]. split.
    + intros n. rewrite IH3, Hnum, elem_of_cons. split.
      * intros [[H|[_ ->]]|H]; auto.
      * intros [H|[->|H]]; auto.
        destruct fresh; [left; right; split; reflexivity|left; left; now apply Hrefused].
    + intros n. destruct fresh.
      * rewrite IH4, Hnum, elem_of_cons. split.
        -- intros [Hr [H|[_ ->]]]; [split; auto|contradiction].
        -- intros [[->|Hr] H]; [specialize (Hdup H); discriminate|split; auto].
      * rewrite !elem_of_cons, IH4, Hnum. split.
        -- intros [->|[Hr [H|[H _]]]]; [split; auto|split; auto|discriminate].
        -- intros [[->|Hr] H]; [left; reflexivity|right; split; auto].
Qed.

(** C6: the two strategies treat a duplicate sequence number
    differently.  FlexBuff: when the chunk made of a directory entry has
    a number that is already in the set built so far (for the whole
    recording), the scan throws [vbs_except] (duplicate insert), every
    caller up to [vbs_open] passes the exception on, and the table of
    open files is left alone.  Mark6: the merge of a worker's chunks
    into the shared set has no failure; a chunk whose number is taken is
    left out and its number is logged, the shared chunks stay, and the
    worker returns normally, after which the scan goes on with the next
    mountpoint. *)
Theorem duplicate_chunks :
  (forall dir p rest rv os os1 tmp,
      chunks_sorted rv ->
      flexbuff_filechunk (dir +:+ "/" +:+ p) os = (os1, Ret tmp) ->
      chunkNumber tmp ∈ map chunkNumber rv ->
      insert_directory_chunks dir (p :: rest) rv os
      = (filechunk_dtor tmp os1, Throw (vbs_except duplicate_insert)))
  /\ (forall recname mp rest fcs os os1 what,
      scanRecordingMountpoint recname mp fcs os = (os1, Throw (vbs_except what)) ->
      scanRecording recname (mp :: rest) fcs os = (os1, Throw (vbs_except what)))
  /\ (forall c n dirs p os1 what,
      scanRecording (String c n) (direntries_of_list dirs) [] (proc_os p)
      = (os1, Throw (vbs_except what)) ->
      vbs_open (Some (String c n)) (Some dirs) p
      = (with_os p os1, Throw (vbs_except what))
      /\ openedFiles (with_os p os1) = openedFiles p)
  /\ (forall lcl shared,
      chunks_sorted shared -> chunks_sorted lcl ->
      chunks_sorted (merge_chunks lcl shared).1
      /\ (forall c, c ∈ shared -> c ∈ (merge_chunks lcl shared).1)
      /\ (forall n, n ∈ map chunkNumber (merge_chunks lcl shared).1 <->
                    n ∈ map chunkNumber shared \/ n ∈ map chunkNumber lcl)
      /\ (forall n, n ∈ (merge_chunks lcl shared).2 <->
                    n ∈ map chunkNumber lcl /\ n ∈ map chunkNumber shared))
  /\ (forall fmt fuel recname mp shared os d os2 lcl,
      os_files os !! (mp +:+ "/" +:+ recname) = Some (RegularFile d) ->
      scanMk6RecordingFile fmt fuel (mp +:+ "/" +:+ recname) [] os = Some (os2, Ret lcl) ->
      scanMk6RecordingMountpoint_thrd fmt fuel recname mp shared os
      = Some (os2, Ret (merge_chunks lcl shared)))
  /\ (forall fmt fuel recname mp rest fcs os os1 merged,
      scanMk6RecordingMountpoint_thrd fmt fuel recname mp fcs os
      = Some (os1, Ret merged) ->
      scanMk6Recording fmt fuel recname (mp :: rest) fcs os
      = scanMk6Recording fmt fuel recname rest merged.1 os1).
Proof.
  split; [|split; [|split; [|split; [|split]]]].
  - intros dir p rest rv os os1 tmp Hs Hctor Hin. cbn [insert_directory_chunks].
    rewrite Hctor. rewrite (surjective_pairing (set_insert tmp rv)).
    now rewrite (set_insert_duplicate tmp rv Hs Hin).
  - intros recname mp rest fcs os os1 what H. cbn [scanRecording]. now rewrite H.
  - intros c n dirs p os1 what H. unfold vbs_open. rewrite H. split; reflexivity.
  - intros lcl shared Hs Hl. apply merge_chunks_spec; [exact Hs|].
    now apply chunks_sorted_NoDup.
  - intros fmt fuel recname mp shared os d os2 lcl Hfile Hscan.
    unfold scanMk6RecordingMountpoint_thrd, sys_lstat. rewrite Hfile.
    now rewrite Hscan.
  - intros fmt fuel recname mp rest fcs os os1 [fcs1 log] H.
    cbn [scanMk6Recording]. now rewrite H.
Qed.

Lemma duplicate_chunks_witness :
  (exists os1,
      scanRecording "rec_A" (direntries_of_list ["/mnt/disk0"%string; "/mnt/disk1"%string])
        [] (proc_os flexbuff_process)
      = (os1, Throw (vbs_except duplicate_insert))
      /\ vbs_open (Some "rec_A"%string)
           (Some ["/mnt/disk0"%string; "/mnt/disk1"%string]) flexbuff_process
         = (with_os flexbuff_process os1, Throw (vbs_except duplicate_insert)))
  /\ (chunks_sorted [mk6_filechunk 0 28 8 3; mk6_filechunk 1 44 4 3]
      /\ chunks_sorted [mk6_filechunk 1 28 4 4; mk6_filechunk 2 40 4 4]
      /\ (merge_chunks [mk6_filechunk 1 28 4 4; mk6_filechunk 2 40 4 4]
            [mk6_filechunk 0 28 8 3; mk6_filechunk 1 44 4 3]).2 = [1]
      /\ mk6_filechunk 1 44 4 3
         ∈ (merge_chunks [mk6_filechunk 1 28 4 4; mk6_filechunk 2 40 4 4]
              [mk6_filechunk 0 28 8 3; mk6_filechunk 1 44 4 3]).1)
  /\ snd <$> mk6_open mk6_layout 100 (Some "rec_E"%string)
               (Some ["/mnt/disk0"%string; "/mnt/disk1"%string]) mk6_process
     = Some (Ret INT_MAX).
Proof.
  split; [|split; [|vm_compute; reflexivity]].
  - eexists. split; [vm_compute; reflexivity|].
    apply (proj1 (proj2 (proj2 duplicate_chunks))). vm_compute. reflexivity.
  - assert (Hs : chunks_sorted [mk6_filechunk 0 28 8 3; mk6_filechunk 1 44 4 3]).
    { split; [apply List.Forall_cons; [cbn; lia|apply List.Forall_nil]|].
      split; [apply List.Forall_nil|exact I]. }
    assert (Hl : chunks_sorted [mk6_filechunk 1 28 4 4; mk6_filechunk 2 40 4 4]).
    { split; [apply List.Forall_cons; [cbn; lia|apply List.Forall_nil]|].
      split; [apply List.Forall_nil|exact I]. }
    split; [exact Hs|]. split; [exact Hl|]. split; [reflexivity|].
    apply (proj1 (proj2 (proj1 (proj2 (proj2 (proj2 duplicate_chunks))) _ _ Hs Hl))).
    right. left.
Defined.

(* ================================================================== *)
(** ** Well-formed open files *)
(* ================================================================== *)

Lemma contiguous_from_ext (start : Z) (l l' : filechunks_type) :
  map chunkSize l' = map chunkSize l -> map chunkOffset l' = map chunkOffset l ->
  contiguous_from start l -> contiguous_from start l'.
Proof.
  revert start l'. induction l as [|c r IH]; intros start [|c' r'] Hs Ho H;
    try discriminate; [exact I|].
  cbn in *. injection Hs as Hs1 Hs2. injection Ho as Ho1 Ho2.
  destruct H as [H1 H2]. rewrite Hs1, Ho1. split; [exact H1|]. now apply IH.
Qed.

Lemma sizes_nonneg_ext (l l' : filechunks_type) :
  map chunkSize l' = map chunkSize l ->
  Forall (fun c => 0 <= chunkSize c) l -> Forall (fun c => 0 <= chunkSize c) l'.
Proof.
  revert l'. induction l as [|c r IH]; intros [|c' r'] Hs H; try discriminate;
    [constructor|].
  cbn in Hs. injection Hs as Hs1 Hs2. apply Forall_cons in H as [H1 H2].
  constructor; [lia|now apply IH].
Qed.

Lemma openfile_wf_ext (f f' : openfile_type) :
  map chunkSize (fileChunks f') = map chunkSize (fileChunks f) ->
  map chunkOffset (fileChunks f') = map chunkOffset (fileChunks f) ->
  fileSize f' = fileSize f ->
  (chunkPtr f' <= length (fileChunks f'))%nat ->
  openfile_wf f -> openfile_wf f'.
Proof.
  intros Hs Ho Hsz Hptr [Hc Hnn Ht Hm _ Hne]. constructor.
  - eapply contiguous_from_ext; eassumption.
  - eapply sizes_nonneg_ext; eassumption.
  - rewrite Hsz, Ht. symmetry. now apply total_size_ext.
  - now rewrite Hsz.
  - exact Hptr.
  - intros Hnil. apply Hne. rewrite Hnil in Hs. symmetry in Hs.
    now apply fmap_nil_inv in Hs.
Qed.

(** Changing the descriptor of one chunk changes neither sizes nor
    offsets. *)
Lemma set_chunkFd_maps (l : filechunks_type) (i : nat) (c : filechunk_type) (fd : Z) :
  l !! i = Some c ->
  map chunkSize (<[i := set_chunkFd c fd]> l) = map chunkSize l
  /\ map chunkOffset (<[i := set_chunkFd c fd]> l) = map chunkOffset l.
Proof.
  intros Hi. split.
  - rewrite list_fmap_insert. apply list_insert_id.
    rewrite list_lookup_fmap, Hi. reflexivity.
  - rewrite list_fmap_insert. apply list_insert_id.
    rewrite list_lookup_fmap, Hi. reflexivity.
Qed.

(** The constructor makes a well-formed open file of a non-empty set of
    chunks of non-negative sizes. *)
Lemma openfile_ctor_wf (fcs : filechunks_type) :
  fcs <> [] -> sums_in_range 0 fcs -> Forall (fun c => 0 <= chunkSize c) fcs ->
  openfile_wf (openfile_ctor fcs).
Proof.
  intros Hne Hr Hnn.
  assert (Hcopy_sz : map chunkSize (map copy_filechunk fcs) = map chunkSize fcs).
  { rewrite <- list_fmap_compose. reflexivity. }
  assert (Hr' : sums_in_range 0 (map copy_filechunk fcs)).
  { eapply sums_in_range_ext; [symmetry; exact Hcopy_sz|exact Hr]. }
  pose proof (assign_offsets_spec 0 _ Hr') as (Hcont & Htot & Hrel).
  pose proof (Forall2_offsets_map chunkSize _ _ (fun _ _ => eq_refl) Hrel) as Hsz.
  rewrite Hcopy_sz in Hsz.
  assert (Hlast : off_t_range (total_size fcs)).
  { clear - Hne Hr.
    assert (G : forall acc l, off_t_range acc -> sums_in_range acc l ->
                              off_t_range (acc + total_size l)).
    { intros acc l. revert acc. induction l as [|c r IH]; intros acc Ha H.
      - unfold total_size. cbn. now rewrite Z.add_0_r.
      - destruct H as [H1 H2].
        change (total_size (c :: r)) with (chunkSize c + total_size r).
        rewrite Z.add_assoc. now apply IH. }
    apply (G 0 fcs); [unfold off_t_range, OFF_MIN, OFF_MAX; lia|exact Hr]. }
  unfold openfile_ctor.
  destruct (assign_offsets 0 (map copy_filechunk fcs)) as [chunks total].
  cbn in *. constructor; cbn.
  - exact Hcont.
  - eapply sizes_nonneg_ext; eassumption.
  - rewrite Htot, (total_size_ext _ _ Hcopy_sz). symmetry.
    rewrite Z.add_0_l. now apply total_size_ext.
  - rewrite Htot, (total_size_ext _ _ Hcopy_sz). unfold off_t_range in Hlast. lia.
  - lia.
  - intros ->. destruct fcs; [congruence|discriminate].
Qed.

Lemma skip_chunks_bound (t : Z) (l : filechunks_type) (i : nat) :
  (skip_chunks t l i <= i + length l)%nat.
Proof.
  revert i. induction l as [|c r IH]; intros i; cbn; [lia|].
  destruct (_ <? t); [specialize (IH (S i))|]; lia.
Qed.

(** A seek keeps the open file of the handle well-formed. *)
Lemma vbs_lseek_wf (fd offset whence : Z) (p : process) (f f' : openfile_type) :
  openedFiles p !! fd = Some f -> openfile_wf f ->
  openedFiles (vbs_lseek fd offset whence p).1 !! fd = Some f' ->
  openfile_wf f'.
Proof.
  intros Hf Hwf. unfold vbs_lseek. rewrite Hf.
  destruct (seek_target f offset whence) as [newfp|];
    [|cbn; rewrite Hf; now intros [= <-]].
  destruct (newfp <? 0); [cbn; rewrite Hf; now intros [= <-]|].
  destruct (newfp =? filePointer f); [cbn; rewrite Hf; now intros [= <-]|].
  pose proof (skip_chunks_bound newfp (fileChunks f) 0) as Hb.
  destruct (fileChunks f !! chunkPtr f) as [old|] eqn:Hold.
  - destruct (negb (chunkPtr f =? skip_chunks newfp (fileChunks f) 0)%nat).
    + unfold close_chunk. destruct (owns_descriptor old); cbn;
        rewrite lookup_insert_eq; intros [= <-].
      * destruct (set_chunkFd_maps (fileChunks f) (chunkPtr f) old
                    invalidFileDescriptor Hold) as [Hs Ho].
        eapply (openfile_wf_ext f); [exact Hs|exact Ho|reflexivity| |exact Hwf].
        cbn. rewrite length_insert. lia.
      * rewrite (list_insert_id _ _ _ Hold).
        eapply (openfile_wf_ext f); [reflexivity|reflexivity|reflexivity| |exact Hwf].
        cbn. lia.
    + cbn. rewrite lookup_insert_eq. intros [= <-].
      eapply (openfile_wf_ext f); [reflexivity|reflexivity|reflexivity| |exact Hwf].
      cbn. lia.
  - cbn. rewrite lookup_insert_eq. intros [= <-].
    eapply (openfile_wf_ext f); [reflexivity|reflexivity|reflexivity| |exact Hwf].
    cbn. lia.
Qed.

(* ################################################################## *)
(** * Part III: further properties of the library *)
(* ################################################################## *)

(* ================================================================== *)
(** ** The system calls *)
(* ================================================================== *)

(** The search for a free descriptor either stops at a free one or has
    seen [n] descriptors in a row in use. *)
Lemma lowest_free_spec (fds : gmap Z open_fd) (n : nat) :
  forall cand,
    fds !! lowest_free fds n cand = None
    \/ (lowest_free fds n cand = cand + Z.of_nat n
        /\ forall k, cand <= k < cand + Z.of_nat n -> is_Some (fds !! k)).
Proof.
  induction n as [|n IH]; intros cand; cbn [lowest_free].
  - right. split; [lia|]. intros k Hk. lia.
  - destruct (fds !! cand) as [o|] eqn:E; [|now left].
    destruct (IH (cand + 1)) as [H|[H1 H2]]; [now left|].
    right. split; [lia|]. intros k Hk.
    destruct (decide (k = cand)) as [->|Hne]; [eauto|]. apply H2. lia.
Qed.

(** The descriptor handed out by [open] is not in use. *)
Lemma fresh_fd_free (fds : gmap Z open_fd) : fds !! fresh_fd fds = None.
Proof.
  unfold fresh_fd. destruct (lowest_free_spec fds (size fds) 0) as [H|[H1 H2]];
    [exact H|].
  rewrite H1. rewrite Z.add_0_l in *.
  destruct (fds !! Z.of_nat (size fds)) as [o|] eqn:E; [|reflexivity].
  exfalso.
  set (S := list_to_set (seqZ 0 (Z.of_nat (S (size fds)))) : gset Z).
  assert (Hsub : S ⊆ dom fds).
  { intros k Hk. apply elem_of_list_to_set, elem_of_seqZ in Hk.
    apply elem_of_dom. destruct (decide (k = Z.of_nat (size fds))) as [->|Hne];
      [eauto|]. apply H2. lia. }
  apply subseteq_size in Hsub. rewrite size_dom in Hsub.
  unfold S in Hsub. rewrite size_list_to_set in Hsub by apply NoDup_seqZ.
  rewrite length_seqZ in Hsub. lia.
Qed.

Lemma fresh_fd_nonneg (fds : gmap Z open_fd) : 0 <= fresh_fd fds <= Z.of_nat (size fds).
Proof.
  unfold fresh_fd.
  assert (G : forall n cand, cand <= lowest_free fds n cand <= cand + Z.of_nat n).
  { induction n as [|n IH]; intros cand; cbn [lowest_free]; [lia|].
    destruct (fds !! cand); [specialize (IH (cand + 1))|]; lia. }
  specialize (G (size fds) 0). lia.
Qed.

(** What the calls do to the descriptor table. *)
Lemma sys_close_fds (fd : Z) (os : os_state) :
  os_fds (sys_close fd os).1 = delete fd (os_fds os)
  /\ os_files (sys_close fd os).1 = os_files os.
Proof.
  unfold sys_close. destruct (os_fds os !! fd) eqn:E; cbn.
  - split; reflexivity.
  - split; [|reflexivity]. symmetry. now apply delete_id.
Qed.

Lemma sys_lseek_fds (fd offset whence : Z) (os : os_state) :
  os_files (sys_lseek fd offset whence os).1 = os_files os
  /\ (os_fds (sys_lseek fd offset whence os).1 = os_fds os
      \/ exists o pos, os_fds os !! fd = Some o
           /\ os_fds (sys_lseek fd offset whence os).1
              = <[fd := mk_open_fd (fd_node o) pos]> (os_fds os)).
Proof.
  unfold sys_lseek. destruct (os_fds os !! fd) as [o|] eqn:E; [|cbn; auto].
  destruct (if whence =? SEEK_SET then _ else _) as [b|]; [|cbn; auto].
  destruct ((b + offset <? 0) || (OFF_MAX <? b + offset)); cbn; [auto|].
  split; [reflexivity|]. right. eauto.
Qed.

Lemma sys_read_fds (fd count : Z) (os : os_state) :
  os_files (sys_read fd count os).1.1 = os_files os
  /\ (os_fds (sys_read fd count os).1.1 = os_fds os
      \/ exists o pos, os_fds os !! fd = Some o
           /\ os_fds (sys_read fd count os).1.1
              = <[fd := mk_open_fd (fd_node o) pos]> (os_fds os)).
Proof.
  unfold sys_read. destruct (os_fds os !! fd) as [o|] eqn:E; [|cbn; auto].
  destruct (fd_node o) eqn:En; cbn; [|auto].
  split; [reflexivity|]. right. exists o. eexists. split; [reflexivity|].
  now rewrite En.
Qed.

(** What [read] returns: -1 and nothing, or the number of bytes
    delivered, which is at most [count]. *)
Lemma sys_read_result (fd count : Z) (os : os_state) :
  0 <= count ->
  ((sys_read fd count os).1.2 = -1 /\ (sys_read fd count os).2 = [])
  \/ ((sys_read fd count os).1.2 = Z.of_nat (length (sys_read fd count os).2)
      /\ Z.of_nat (length (sys_read fd count os).2) <= count).
Proof.
  intros Hc. unfold sys_read. destruct (os_fds os !! fd) as [o|]; [|cbn; auto].
  destruct (fd_node o); cbn; [|auto]. right. split; [reflexivity|].
  rewrite length_take. lia.
Qed.

(* ================================================================== *)
(** ** FlexBuff discovery: descriptors and chunks *)
(* ================================================================== *)

(** The chunk constructor closes the descriptor it opens, and a chunk it
    returns has no descriptor of its own. *)
Lemma flexbuff_filechunk_frame (fnm : string) (os : os_state) :
  os_fds (flexbuff_filechunk fnm os).1 = os_fds os
  /\ os_files (flexbuff_filechunk fnm os).1 = os_files os
  /\ forall tmp, (flexbuff_filechunk fnm os).2 = Ret tmp ->
       chunkFd tmp = invalidFileDescriptor /\ chunkPos tmp = 0
       /\ pathToChunk tmp = fnm
       /\ exists node, os_files os !! fnm = Some node
            /\ (node_length node <= OFF_MAX -> chunkSize tmp = node_length node).
Proof.
  unfold flexbuff_filechunk.
  destruct (find_last_of "." fnm 0) as [dot|]; [|cbn; repeat split; discriminate].
  unfold sys_open. destruct (os_files os !! fnm) as [node|] eqn:Hnode.
  2:{ cbn. repeat split; discriminate. }
  pose proof (fresh_fd_free (os_fds os)) as Hfree.
  pose proof (fresh_fd_nonneg (os_fds os)) as [Hnn _].
  set (fd := fresh_fd (os_fds os)) in *.
  destruct (fd <? 0) eqn:E; [apply Z.ltb_lt in E; lia|].
  set (os1 := set_fds _ os).
  assert (Hfd1 : os_fds os1 !! fd = Some (mk_open_fd node 0)) by apply lookup_insert_eq.
  pose proof (sys_lseek_fds fd 0 SEEK_END os1) as [Hfiles Hfds].
  assert (Hsz : node_length node <= OFF_MAX ->
                (sys_lseek fd 0 SEEK_END os1).2 = node_length node).
  { intros Hlen. unfold sys_lseek. rewrite Hfd1.
    change (SEEK_END =? SEEK_SET) with false. change (SEEK_END =? SEEK_CUR) with false.
    change (SEEK_END =? SEEK_END) with true. cbv iota. cbn [fd_node].
    rewrite Z.add_0_r.
    assert (0 <= node_length node) by (destruct node; cbn; lia).
    destruct (node_length node <? 0) eqn:E1; [apply Z.ltb_lt in E1; lia|].
    destruct (OFF_MAX <? node_length node) eqn:E2; [apply Z.ltb_lt in E2; lia|].
    reflexivity. }
  destruct (sys_lseek fd 0 SEEK_END os1) as [os2 sz]. cbn [fst snd] in *.
  pose proof (sys_close_fds fd os2) as [Hc1 Hc2].
  destruct (sys_close fd os2) as [os3 r]. cbn [fst snd] in *.
  split; [|split].
  - rewrite Hc1. destruct Hfds as [->|(o & pos & _ & ->)].
    + subst os1. cbn. rewrite delete_insert_eq. now apply delete_id.
    + subst os1. cbn. rewrite !delete_insert_eq. now apply delete_id.
  - now rewrite Hc2, Hfiles.
  - intros tmp [= <-]. cbn. repeat split. exists node. split; [reflexivity|exact Hsz].
Qed.

Lemma filechunk_dtor_invalid (c : filechunk_type) (os : os_state) :
  chunkFd c = invalidFileDescriptor -> filechunk_dtor c os = os.
Proof.
  intros H. unfold filechunk_dtor, owns_descriptor. rewrite H.
  rewrite Z.eqb_refl. now rewrite andb_false_r.
Qed.

(** The insert loop leaves the descriptors and the files alone. *)
Lemma insert_directory_chunks_frame (dir : string) (names : list string) :
  forall rv os,
    os_fds (insert_directory_chunks dir names rv os).1 = os_fds os
    /\ os_files (insert_directory_chunks dir names rv os).1 = os_files os.
Proof.
  induction names as [|p rest IH]; intros rv os; cbn [insert_directory_chunks];
    [split; reflexivity|].
  pose proof (flexbuff_filechunk_frame (dir +:+ "/" +:+ p) os) as (Hfds & Hfiles & Htmp).
  destruct (flexbuff_filechunk (dir +:+ "/" +:+ p) os) as [os1 [tmp|e]];
    cbn [fst snd] in *; [|split; assumption].
  destruct (Htmp tmp eq_refl) as (Hfd & _).
  rewrite (filechunk_dtor_invalid tmp os1 Hfd).
  destruct (set_insert tmp rv) as [rv1 fresh]. destruct fresh.
  - destruct (IH rv1 os1) as [H1 H2]. split; congruence.
  - split; assumption.
Qed.

Lemma scanRecording_frame (recname : string) (mountpoints : direntries_type) :
  forall fcs os,
    os_fds (scanRecording recname mountpoints fcs os).1 = os_fds os
    /\ os_files (scanRecording recname mountpoints fcs os).1 = os_files os.
Proof.
  induction mountpoints as [|mp rest IH]; intros fcs os; cbn [scanRecording];
    [split; reflexivity|].
  assert (Hmp : os_fds (scanRecordingMountpoint recname mp fcs os).1 = os_fds os
                /\ os_files (scanRecordingMountpoint recname mp fcs os).1 = os_files os).
  { unfold scanRecordingMountpoint, sys_lstat.
    destruct (os_files os !! (mp +:+ "/" +:+ recname)) as [[d|entries]|];
      cbn; [split; reflexivity| |split; reflexivity].
    unfold scanRecordingDirectory, sys_opendir.
    destruct (os_files os !! (mp +:+ "/" +:+ recname)) as [[d|entries']|];
      cbn; [split; reflexivity| |split; reflexivity].
    apply insert_directory_chunks_frame. }
  destruct (scanRecordingMountpoint recname mp fcs os) as [os1 [fcs1|e]];
    cbn [fst snd] in *; [|exact Hmp].
  destruct (IH fcs1 os1) as [H1 H2]. destruct Hmp as [H3 H4]. split; congruence.
Qed.

(** X1: [vbs_open] leaves the table of descriptors and the files as it
    found them, whether it returns a handle, returns -1 or throws: every
    chunk file opened to learn its size is closed again. *)
Theorem vbs_open_no_descriptor_left (recname : option string)
    (rootdirs : option (list string)) (p : process) :
  os_fds (proc_os (vbs_open recname rootdirs p).1) = os_fds (proc_os p)
  /\ os_files (proc_os (vbs_open recname rootdirs p).1) = os_files (proc_os p).
Proof.
  unfold vbs_open.
  destruct recname as [[|c n]|]; destruct rootdirs as [dirs|];
    try (cbn; split; reflexivity).
  pose proof (scanRecording_frame (String c n) (direntries_of_list dirs) []
                (proc_os p)) as [H1 H2].
  destruct (scanRecording _ _ _ _) as [os1 [chunks|e]]; cbn [fst snd] in *.
  - unfold install_chunks. destruct chunks; cbn; split; assumption.
  - destruct e; cbn; split; assumption.
Qed.

(* ================================================================== *)
(** ** Closing a handle *)
(* ================================================================== *)

Lemma close_all_chunks_fds (chunks : filechunks_type) :
  forall os,
    os_files (close_all_chunks chunks os) = os_files os
    /\ (forall k, os_fds (close_all_chunks chunks os) !! k
                  = if decide (Exists (fun c => owns_descriptor c = true
                                                /\ k = chunkFd c) chunks)
                    then None else os_fds os !! k).
Proof.
  induction chunks as [|c r IH]; intros os; cbn [close_all_chunks].
  - split; [reflexivity|]. intros k. destruct (decide _) as [H|_];
      [now apply Exists_nil in H|reflexivity].
  - destruct (IH (close_chunk c os).2) as [IH1 IH2]. split.
    + rewrite IH1. unfold close_chunk. destruct (owns_descriptor c); cbn;
        [apply sys_close_fds|reflexivity].
    + intros k. rewrite IH2.
      assert (Hstep : os_fds (close_chunk c os).2 !! k
                      = if decide (owns_descriptor c = true /\ k = chunkFd c)
                        then None else os_fds os !! k).
      { unfold close_chunk. destruct (owns_descriptor c) eqn:Eo; cbn.
        - rewrite (proj1 (sys_close_fds (chunkFd c) os)).
          destruct (decide (true = true /\ k = chunkFd c)) as [[_ ->]|Hn].
          + apply lookup_delete_eq.
          + apply lookup_delete_ne. intros <-. apply Hn. now split.
        - destruct (decide (false = true /\ k = chunkFd c)) as [[H _]|_];
            [discriminate|reflexivity]. }
      destruct (decide (Exists _ r)) as [Hr|Hr].
      * rewrite decide_True; [reflexivity|]. now apply Exists_cons_tl.
      * rewrite Hstep. destruct (decide (owns_descriptor c = true /\ k = chunkFd c))
          as [Hc|Hc].
        -- rewrite decide_True; [reflexivity|]. now apply Exists_cons_hd.
        -- rewrite decide_False; [reflexivity|].
           intros H. apply Exists_cons in H as [H|H]; contradiction.
Qed.

Lemma close_fds_fds (fds : list Z) :
  forall os,
    os_files (close_fds fds os) = os_files os
    /\ (forall k, os_fds (close_fds fds os) !! k
                  = if decide (Exists (fun q => k = to_int (- q)) fds)
                    then None else os_fds os !! k).
Proof.
  induction fds as [|q r IH]; intros os; cbn [close_fds].
  - split; [reflexivity|]. intros k. destruct (decide _) as [H|_];
      [now apply Exists_nil in H|reflexivity].
  - destruct (IH (sys_close (to_int (- q)) os).1) as [IH1 IH2].
    destruct (sys_close_fds (to_int (- q)) os) as [Hc1 Hc2]. split.
    + now rewrite IH1.
    + intros k. rewrite IH2, Hc1.
      destruct (decide (Exists _ r)) as [Hr|Hr].
      * rewrite decide_True; [reflexivity|]. now apply Exists_cons_tl.
      * destruct (decide (k = to_int (- q))) as [->|Hne].
        -- rewrite lookup_delete_eq. rewrite decide_True; [reflexivity|].
           now apply Exists_cons_hd.
        -- rewrite lookup_delete_ne by congruence.
           rewrite decide_False; [reflexivity|].
           intros H. apply Exists_cons in H as [H|H]; contradiction.
Qed.

Lemma fdset_insert_elem (e : Z) (s : list Z) (x : Z) :
  x ∈ fdset_insert e s <-> x = e \/ x ∈ s.
Proof.
  induction s as [|y r IH]; cbn [fdset_insert].
  - rewrite elem_of_cons. reflexivity.
  - destruct (e <? y) eqn:E1; [rewrite elem_of_cons; reflexivity|].
    destruct (y <? e) eqn:E2.
    + rewrite !elem_of_cons, IH. tauto.
    + apply Z.ltb_ge in E1, E2. assert (e = y) by lia. subst e.
      rewrite elem_of_cons. tauto.
Qed.

Lemma mk6fds_elem (chunks : filechunks_type) :
  forall acc x,
    x ∈ fold_left (fun s c => if chunkFd c <? 0 then fdset_insert (chunkFd c) s else s)
          chunks acc
    <-> x ∈ acc \/ exists c, c ∈ chunks /\ chunkFd c < 0 /\ x = chunkFd c.
Proof.
  induction chunks as [|c r IH]; intros acc x; cbn [fold_left].
  - split; [auto|]. intros [H|(c & Hc & _)]; [exact H|now apply elem_of_nil in Hc].
  - rewrite IH. destruct (chunkFd c <? 0) eqn:E.
    + apply Z.ltb_lt in E. rewrite fdset_insert_elem. split.
      * intros [[->|H]|(c0 & Hc0 & Hlt & Hx)]; [right|now left|right].
        -- exists c. split; [left|now split].
        -- exists c0. split; [now right|now split].
      * intros [H|(c0 & Hc0 & Hlt & Hx)]; [left; now right|].
        apply elem_of_cons in Hc0 as [->|Hc0]; [left; now left|].
        right. exists c0. now split.
    + apply Z.ltb_ge in E. split.
      * intros [H|(c0 & Hc0 & Hlt & Hx)]; [now left|right].
        exists c0. split; [now right|now split].
      * intros [H|(c0 & Hc0 & Hlt & Hx)]; [now left|].
        apply elem_of_cons in Hc0 as [->|Hc0]; [lia|].
        right. exists c0. now split.
Qed.

(** X2: [vbs_close] on a handle of the table returns 0 and removes the
    entry; afterwards every descriptor the open file held (the one a
    FlexBuff chunk had opened for itself, the descriptors of the Mark6
    files its chunks refer to) is closed, every other descriptor and the
    files are as before. *)
Theorem vbs_close_releases (fd : Z) (p : process) (f : openfile_type) :
  openedFiles p !! fd = Some f ->
  (vbs_close fd p).2 = 0
  /\ openedFiles (vbs_close fd p).1 = delete fd (openedFiles p)
  /\ os_files (proc_os (vbs_close fd p).1) = os_files (proc_os p)
  /\ (forall k, holds_descriptor f k ->
        os_fds (proc_os (vbs_close fd p).1) !! k = None)
  /\ (forall k, ~ holds_descriptor f k ->
        os_fds (proc_os (vbs_close fd p).1) !! k = os_fds (proc_os p) !! k).
Proof.
  intros Hf. unfold vbs_close. rewrite Hf. cbn [fst snd openedFiles proc_os].
  set (mk6fds := fold_left _ (fileChunks f) []).
  destruct (close_all_chunks_fds (fileChunks f) (proc_os p)) as [Ha1 Ha2].
  destruct (close_fds_fds mk6fds (close_all_chunks (fileChunks f) (proc_os p)))
    as [Hb1 Hb2].
  assert (Hmk6 : forall x, x ∈ mk6fds <->
                           exists c, c ∈ fileChunks f /\ chunkFd c < 0 /\ x = chunkFd c).
  { intros x. unfold mk6fds. rewrite mk6fds_elem. split.
    - intros [H|H]; [now apply elem_of_nil in H|exact H].
    - intros H. now right. }
  split; [reflexivity|]. split; [reflexivity|]. split; [now rewrite Hb1, Ha1|].
  split.
  - intros k (c & Hc & [[Ho Hk]|[Hlt Hk]]); rewrite Hb2.
    + destruct (decide _); [reflexivity|]. rewrite Ha2.
      rewrite decide_True; [reflexivity|]. apply Exists_exists. exists c. now split.
    + rewrite decide_True; [reflexivity|]. apply Exists_exists.
      exists (chunkFd c). split; [|exact Hk].
      apply Hmk6. exists c. now split.
  - intros k Hk. rewrite Hb2, decide_False.
    + rewrite Ha2, decide_False; [reflexivity|].
      intros H. apply Exists_exists in H as (c & Hc & Ho & Hkc).
      apply Hk. exists c. split; [exact Hc|]. left. now split.
    + intros H. apply Exists_exists in H as (q & Hq & Hkq).
      apply Hmk6 in Hq as (c & Hc & Hlt & ->).
      apply Hk. exists c. split; [exact Hc|]. right. now split.
Qed.

(** X3: a handle that was closed is gone: [vbs_read], [vbs_lseek] and a
    second [vbs_close] on it fail with [EBADF] and -1; the other handles
    keep their open files.  [vbs_close] and [vbs_lseek] on a handle that
    is not in the table fail in the same way and change nothing but
    [errno]. *)
Theorem closed_handle_is_bad (fd : Z) (p : process) :
  (openedFiles p !! fd = None ->
     vbs_close fd p = (with_errno p EBADF, -1)
     /\ forall offset whence, vbs_lseek fd offset whence p = (with_errno p EBADF, -1))
  /\ (forall f, openedFiles p !! fd = Some f ->
      let p' := (vbs_close fd p).1 in
      (forall fuel buf count,
          vbs_read fuel fd buf count p'
          = Some (with_errno p' EBADF, mk_read_result (-1) []))
      /\ (forall offset whence, vbs_lseek fd offset whence p' = (with_errno p' EBADF, -1))
      /\ vbs_close fd p' = (with_errno p' EBADF, -1)
      /\ (forall h, h <> fd -> openedFiles p' !! h = openedFiles p !! h)).
Proof.
  split.
  - intros Hf. split; [unfold vbs_close; now rewrite Hf|].
    intros offset whence. unfold vbs_lseek. now rewrite Hf.
  - intros f Hf p'.
    assert (Hgone : openedFiles p' !! fd = None).
    { subst p'. unfold vbs_close. rewrite Hf. cbn. apply lookup_delete_eq. }
    repeat split.
    + intros fuel buf count. unfold vbs_read. now rewrite Hgone.
    + intros offset whence. unfold vbs_lseek. now rewrite Hgone.
    + unfold vbs_close at 1. now rewrite Hgone.
    + intros h Hne. subst p'. unfold vbs_close. rewrite Hf. cbn.
      now rewrite lookup_delete_ne by congruence.
Qed.

(* ================================================================== *)
(** ** Positions *)
(* ================================================================== *)

(** X4: the position a successful seek returns is the position the
    handle then has: asking for the current position
    ([vbs_lseek(fd, 0, SEEK_CUR)]) or seeking to it again returns the
    same value and changes nothing any more. *)
Theorem vbs_lseek_settles (fd offset whence : Z) (p : process) :
  off_t_range offset ->
  0 <= (vbs_lseek fd offset whence p).2 ->
  let p1 := (vbs_lseek fd offset whence p).1 in
  let r := (vbs_lseek fd offset whence p).2 in
  vbs_lseek fd 0 SEEK_CUR p1 = (p1, r)
  /\ vbs_lseek fd r SEEK_SET p1 = (p1, r)
  /\ exists f1, openedFiles p1 !! fd = Some f1 /\ filePointer f1 = r.
Proof.
  intros Hoff. unfold vbs_lseek at 1 2 3 4.
  destruct (openedFiles p !! fd) as [f|] eqn:Hf; [|cbn; lia].
  destruct (seek_target f offset whence) as [newfp|] eqn:Ht; [|cbn; lia].
  assert (Hrange : off_t_range newfp).
  { unfold seek_target in Ht.
    assert (G : forall z, off_t_range (to_off_t z)).
    { intros z. unfold off_t_range, OFF_MIN, OFF_MAX, to_off_t, wrap_signed.
      change (2 ^ (64 - 1)) with 9223372036854775808.
      change (2 ^ 64) with 18446744073709551616.
      pose proof (Z.mod_pos_bound (z + 9223372036854775808) 18446744073709551616).
      lia. }
    destruct (whence =? SEEK_SET); [injection Ht as <-; exact Hoff|].
    destruct (whence =? SEEK_END); [injection Ht as <-; apply G|].
    destruct (whence =? SEEK_CUR); [injection Ht as <-; apply G|discriminate]. }
  destruct (newfp <? 0) eqn:Eneg; [cbn; lia|]. apply Z.ltb_ge in Eneg.
  assert (Hgoal : forall p1 f1,
             openedFiles p1 !! fd = Some f1 -> filePointer f1 = newfp ->
             vbs_lseek fd 0 SEEK_CUR p1 = (p1, newfp)
             /\ vbs_lseek fd newfp SEEK_SET p1 = (p1, newfp)
             /\ exists f1, openedFiles p1 !! fd = Some f1 /\ filePointer f1 = newfp).
  { intros p1 f1 Hf1 Hfp. split; [|split; [|eauto]].
    - rewrite <- Hfp. apply vbs_lseek_early_return; [exact Hf1| |lia].
      unfold seek_target. cbn. rewrite Z.add_0_r, Hfp. f_equal.
      now apply to_off_t_id.
    - rewrite <- Hfp. apply vbs_lseek_early_return; [exact Hf1|reflexivity|lia]. }
  destruct (newfp =? filePointer f) eqn:Eeq.
  - apply Z.eqb_eq in Eeq. cbn [fst snd]. intros _. rewrite <- Eeq.
    apply (Hgoal p f Hf). now symmetry.
  - destruct (match fileChunks f !! chunkPtr f with
              | Some old => _ | None => _ end) as [chunks1 os1].
    cbn [fst snd]. intros _. eapply Hgoal.
    + cbn. apply lookup_insert_eq.
    + reflexivity.
Qed.

(* ================================================================== *)
(** ** The bookkeeping of [vbs_read] *)
(* ================================================================== *)

Lemma set_chunkFd_same (c : filechunk_type) : set_chunkFd c (chunkFd c) = c.
Proof. now destruct c. Qed.

Lemma open_chunk_shape (c : filechunk_type) (os : os_state) :
  (exists fd', (open_chunk c os).1.1 = set_chunkFd c fd')
  /\ os_files (open_chunk c os).1.2 = os_files os.
Proof.
  unfold open_chunk. destruct (chunkFd c =? invalidFileDescriptor).
  - unfold sys_open. cbn [os_files set_errno].
    destruct (os_files os !! pathToChunk c); cbn; split; eauto.
  - cbn. split; [|reflexivity]. exists (chunkFd c). now rewrite set_chunkFd_same.
Qed.

Lemma close_chunk_shape (c : filechunk_type) (os : os_state) :
  (exists fd', (close_chunk c os).1 = set_chunkFd c fd')
  /\ os_files (close_chunk c os).2 = os_files os.
Proof.
  unfold close_chunk. destruct (owns_descriptor c); cbn.
  - split; [eauto|apply sys_close_fds].
  - split; [|reflexivity]. exists (chunkFd c). now rewrite set_chunkFd_same.
Qed.

(** In a well-formed open file every chunk lies between 0 and the size
    of the file. *)
Lemma contiguous_bounds (start : Z) (l : filechunks_type) (i : nat) (c : filechunk_type) :
  contiguous_from start l -> Forall (fun c => 0 <= chunkSize c) l ->
  l !! i = Some c ->
  start <= chunkOffset c /\ 0 <= chunkSize c
  /\ chunkOffset c + chunkSize c <= start + total_size l.
Proof.
  revert start i. induction l as [|x r IH]; intros start i Hc Hs Hi; [discriminate|].
  destruct Hc as [Hx Hr]. apply Forall_cons in Hs as [Hsx Hsr].
  change (total_size (x :: r)) with (chunkSize x + total_size r).
  pose proof (total_size_nonneg r Hsr).
  destruct i as [|i]; cbn in Hi.
  - injection Hi as <-. lia.
  - specialize (IH _ _ Hr Hsr Hi). lia.
Qed.

Lemma openfile_wf_chunk (f : openfile_type) (i : nat) (c : filechunk_type) :
  openfile_wf f -> fileChunks f !! i = Some c ->
  0 <= chunkOffset c /\ 0 <= chunkSize c
  /\ chunkOffset c + chunkSize c <= fileSize f /\ fileSize f <= OFF_MAX.
Proof.
  intros [Hc Hs Ht Hm _ _] Hi.
  destruct (contiguous_bounds 0 _ _ _ Hc Hs Hi) as (H1 & H2 & H3). lia.
Qed.

Lemma to_size_t_id (z : Z) : 0 <= z <= OFF_MAX -> to_size_t z = z.
Proof.
  unfold to_size_t, OFF_MAX. intros H.
  change (2 ^ 64) with 18446744073709551616. apply Z.mod_small. lia.
Qed.

(** One step of the loop keeps the bookkeeping. *)
Lemma read_step_accounting (count : Z) (f0 : openfile_type) (os0 : os_state)
    (s : read_state) :
  count <= OFF_MAX -> 0 <= filePointer f0 ->
  read_accounting count f0 os0 s ->
  read_accounting count f0 os0 (step_state (read_step s)).
Proof.
  intros Hcount Hfp0 Hacc. pose proof Hacc as [Hwf Hsz Hof Hfs Hnr Hout Hpos Hpmax Hfiles].
  unfold read_step.
  destruct (rs_nr s =? 0) eqn:Enr; [exact Hacc|]. apply Z.eqb_neq in Enr.
  destruct (fileChunks (rs_of s) !! chunkPtr (rs_of s)) as [chunk|] eqn:Hchunk;
    [|exact Hacc].
  destruct (openfile_wf_chunk _ _ _ Hwf Hchunk) as (Hc1 & Hc2 & Hc3 & Hc4).
  unfold OFF_MAX in *.
  rewrite (to_off_t_id (rs_nr s)) by (unfold off_t_range, OFF_MIN, OFF_MAX; lia).
  rewrite (to_off_t_id (chunkOffset chunk + chunkSize chunk))
    by (unfold off_t_range, OFF_MIN, OFF_MAX; lia).
  rewrite (to_off_t_id (chunkOffset chunk + chunkSize chunk - filePointer (rs_of s)))
    by (unfold off_t_range, OFF_MIN, OFF_MAX; lia).
  set (n2r := Z.min (rs_nr s)
                (chunkOffset chunk + chunkSize chunk - filePointer (rs_of s))).
  assert (Hptr : (chunkPtr (rs_of s) < length (fileChunks (rs_of s)))%nat)
    by (now apply lookup_lt_Some in Hchunk).
  destruct (n2r <=? 0) eqn:En2r.
  - destruct (close_chunk_shape chunk (rs_os s)) as [[fd' Hshape] Hcf].
    destruct (close_chunk chunk (rs_os s)) as [chunk1 os1]. cbn in Hshape, Hcf.
    subst chunk1. cbn [step_state].
    destruct (set_chunkFd_maps _ _ _ fd' Hchunk) as [Hs1 Ho1].
    constructor; cbn; try assumption; try congruence.
    eapply (openfile_wf_ext (rs_of s)); cbn; try assumption; try reflexivity.
    rewrite length_insert. lia.
  - apply Z.leb_gt in En2r.
    destruct (open_chunk_shape chunk (rs_os s)) as [[fd' Hshape] Hof1].
    destruct (open_chunk chunk (rs_os s)) as [[chunk1 os1] realfd].
    cbn in Hshape, Hof1. subst chunk1.
    destruct (set_chunkFd_maps _ _ _ fd' Hchunk) as [Hs1 Ho1].
    assert (Hwf1 : openfile_wf (set_chunk (rs_of s) (chunkPtr (rs_of s))
                                  (set_chunkFd chunk fd'))).
    { eapply (openfile_wf_ext (rs_of s)); cbn; try assumption; try reflexivity.
      rewrite length_insert. lia. }
    destruct (realfd =? invalidFileDescriptor).
    { cbn [step_state]. constructor; cbn; try assumption; try congruence. }
    pose proof (sys_lseek_fds realfd
                  (to_off_t (filePointer (rs_of s) - chunkOffset chunk + chunkPos chunk))
                  SEEK_SET os1) as [Hlf _].
    destruct (sys_lseek realfd _ SEEK_SET os1) as [os2 r2]. cbn in Hlf.
    rewrite (to_size_t_id n2r) by (unfold OFF_MAX; lia).
    pose proof (sys_read_fds realfd n2r os2) as [Hrf _].
    pose proof (sys_read_result realfd n2r os2 (ltac:(lia))) as Hres.
    destruct (sys_read realfd n2r os2) as [[os3 actualread] bytes].
    cbn in Hrf, Hres.
    destruct (actualread <? 0) eqn:Eneg.
    { cbn [step_state]. constructor; cbn; try assumption; try congruence. }
    apply Z.ltb_ge in Eneg.
    destruct Hres as [[Hm1 _]|[Hlen Hle]]; [lia|].
    assert (Hn2r : n2r <= rs_nr s
                   /\ n2r <= chunkOffset chunk + chunkSize chunk - filePointer (rs_of s))
      by (unfold n2r; lia).
    cbn [step_state].
    rewrite (to_off_t_id (filePointer (rs_of s) + actualread))
      by (unfold off_t_range, OFF_MIN, OFF_MAX; lia).
    rewrite (to_size_t_id (rs_nr s - actualread)) by (unfold OFF_MAX; lia).
    constructor; cbn; try assumption; try congruence; try lia.
    + eapply (openfile_wf_ext (rs_of s)); cbn; try assumption; try reflexivity.
      rewrite length_insert. lia.
    + rewrite length_app. lia.
    + unfold OFF_MAX. lia.
Qed.

Lemma read_loop_accounting (count : Z) (f0 : openfile_type) (os0 : os_state)
    (fuel : nat) :
  count <= OFF_MAX -> 0 <= filePointer f0 ->
  forall s s',
    read_accounting count f0 os0 s -> read_loop fuel s = Some s' ->
    read_accounting count f0 os0 s'.
Proof.
  intros Hcount Hfp0. induction fuel as [|k IH]; intros s s' Hacc Hrun; [discriminate|].
  cbn [read_loop] in Hrun.
  pose proof (read_step_accounting count f0 os0 s Hcount Hfp0 Hacc) as Hstep.
  destruct (read_step s) as [s1|s1]; cbn in Hstep.
  - exact (IH s1 s' Hstep Hrun).
  - injection Hrun as <-. exact Hstep.
Qed.

(** X5: what a read that returns has done.  For a well-formed open file
    at a position that is not negative and a count of at most
    [SSIZE_MAX]: the value returned is the number of bytes stored
    through the buffer, between 0 and [count]; the position of the
    handle has advanced by exactly that number; the sizes and offsets of
    the chunks and the size of the file are as before and the file is
    still well-formed; the other handles and the files of the system are
    untouched. *)
Theorem vbs_read_accounting (fuel : nat) (fd buf count : Z) (p p' : process)
    (f : openfile_type) (r : read_result) :
  openedFiles p !! fd = Some f ->
  openfile_wf f -> 0 <= filePointer f <= OFF_MAX ->
  buf <> 0 -> 0 <= count <= OFF_MAX ->
  vbs_read fuel fd buf count p = Some (p', r) ->
  0 <= rr_ret r <= count
  /\ rr_ret r = Z.of_nat (length (rr_data r))
  /\ (exists f', openedFiles p' !! fd = Some f'
                 /\ filePointer f' = filePointer f + rr_ret r
                 /\ openfile_wf f'
                 /\ fileSize f' = fileSize f
                 /\ map chunkSize (fileChunks f') = map chunkSize (fileChunks f)
                 /\ map chunkOffset (fileChunks f') = map chunkOffset (fileChunks f))
  /\ (forall h, h <> fd -> openedFiles p' !! h = openedFiles p !! h)
  /\ os_files (proc_os p') = os_files (proc_os p).
Proof.
  intros Hf Hwf Hfp Hbuf Hcount. unfold vbs_read. rewrite Hf.
  apply Z.eqb_neq in Hbuf. rewrite Hbuf.
  assert (Hsame : forall p' r, Some (p, mk_read_result 0 []) = Some (p', r) ->
            0 <= rr_ret r <= count
            /\ rr_ret r = Z.of_nat (length (rr_data r))
            /\ (exists f', openedFiles p' !! fd = Some f'
                 /\ filePointer f' = filePointer f + rr_ret r
                 /\ openfile_wf f'
                 /\ fileSize f' = fileSize f
                 /\ map chunkSize (fileChunks f') = map chunkSize (fileChunks f)
                 /\ map chunkOffset (fileChunks f') = map chunkOffset (fileChunks f))
            /\ (forall h, h <> fd -> openedFiles p' !! h = openedFiles p !! h)
            /\ os_files (proc_os p') = os_files (proc_os p)).
  { intros p0 r0 [= <- <-]. cbn. split; [lia|]. split; [reflexivity|].
    split; [|split; [reflexivity|reflexivity]].
    exists f. rewrite Z.add_0_r. split; [exact Hf|]. split; [reflexivity|].
    split; [exact Hwf|]. split; [reflexivity|]. split; reflexivity. }
  destruct (count =? 0) eqn:Ec; [apply Hsame|]. apply Z.eqb_neq in Ec.
  destruct (fileChunks f !! chunkPtr f) as [c|] eqn:Hc; [|apply Hsame].
  destruct (read_loop fuel (mk_read_state (proc_os p) f count [])) as [s|] eqn:Hrun;
    [|discriminate].
  intros [= <- <-].
  assert (Hacc0 : read_accounting count f (proc_os p)
                    (mk_read_state (proc_os p) f count [])).
  { constructor; cbn; try reflexivity; try assumption; lia. }
  destruct (read_loop_accounting count f (proc_os p) fuel (proj2 Hcount) (proj1 Hfp)
              _ _ Hacc0 Hrun) as [Hwf' Hsz Hof Hfs Hnr Hout Hpos Hpmax Hfiles].
  cbn [rr_ret rr_data openedFiles proc_os].
  rewrite to_off_t_id by (unfold off_t_range, OFF_MIN; unfold OFF_MAX in *; lia).
  split; [lia|]. split; [lia|]. split; [|split].
  - exists (rs_of s). rewrite lookup_insert_eq. split; [reflexivity|].
    split; [lia|]. split; [exact Hwf'|]. split; [exact Hfs|]. split; assumption.
  - intros h Hne. now rewrite lookup_insert_ne by congruence.
  - exact Hfiles.
Qed.

(* ================================================================== *)
(** ** The bytes of a virtual file *)
(* ================================================================== *)

(** A window inside the payload of a chunk is the same window of the
    file, shifted by the position of the chunk. *)
Lemma payload_window (c : filechunk_type) (data : list byte) (a n : nat) :
  (a + n <= Z.to_nat (chunkSize c))%nat ->
  take n (drop a (chunk_payload c data))
  = take n (drop (Z.to_nat (chunkPos c) + a) data).
Proof.
  intros H. unfold chunk_payload.
  rewrite take_drop_commute, take_take, Nat.min_l by lia.
  rewrite <- take_drop_commute, drop_drop. reflexivity.
Qed.

Lemma chunk_payload_length (c : filechunk_type) (data : list byte) :
  0 <= chunkPos c -> 0 <= chunkSize c ->
  chunkPos c + chunkSize c <= Z.of_nat (length data) ->
  Z.of_nat (length (chunk_payload c data)) = chunkSize c.
Proof.
  intros Hp Hs Hl. unfold chunk_payload. rewrite length_take, length_drop. lia.
Qed.

Section Contents.

Variable payload : filechunk_type -> list byte.

(** The contents from a position inside (or at the end of) the chunk
    with index [i]: the rest of that chunk, then the chunks after it. *)
Lemma contents_drop (chunks : filechunks_type) :
  forall (start : Z) (i : nat) (c : filechunk_type) (fp : Z),
    contiguous_from start chunks ->
    Forall (fun c => 0 <= chunkSize c) chunks ->
    (forall x, x ∈ chunks -> Z.of_nat (length (payload x)) = chunkSize x) ->
    chunks !! i = Some c ->
    chunkOffset c <= fp <= chunkOffset c + chunkSize c ->
    drop (Z.to_nat (fp - start)) (virtual_contents payload chunks)
    = drop (Z.to_nat (fp - chunkOffset c)) (payload c)
      ++ virtual_contents payload (drop (S i) chunks).
Proof.
  unfold virtual_contents.
  induction chunks as [|x r IH]; intros start i c fp Hc Hs Hlen Hi Hfp;
    [discriminate|].
  destruct Hc as [Hx Hr]. apply Forall_cons in Hs as [Hsx Hsr].
  pose proof (Hlen x (ltac:(left))) as Hlx.
  cbn [map concat]. destruct i as [|i]; cbn in Hi.
  - injection Hi as <-. rewrite Hx. rewrite drop_app. cbn [drop]. f_equal.
    replace (Z.to_nat (fp - start) - length (payload x))%nat with 0%nat by lia.
    reflexivity.
  - destruct (contiguous_bounds _ _ _ _ Hr Hsr Hi) as (Hb1 & Hb2 & Hb3).
    rewrite drop_app, (drop_ge (payload x)) by lia. cbn [app drop].
    replace (Z.to_nat (fp - start) - length (payload x))%nat
      with (Z.to_nat (fp - (start + chunkSize x))) by lia.
    apply (IH (start + chunkSize x) i c fp Hr Hsr); [|exact Hi|exact Hfp].
    intros y Hy. apply Hlen. now right.
Qed.

Lemma contents_length (chunks : filechunks_type) :
  (forall x, x ∈ chunks -> Z.of_nat (length (payload x)) = chunkSize x) ->
  Z.of_nat (length (virtual_contents payload chunks)) = total_size chunks.
Proof.
  unfold virtual_contents. induction chunks as [|x r IH]; intros Hlen; [reflexivity|].
  cbn [map concat]. rewrite length_app.
  change (total_size (x :: r)) with (chunkSize x + total_size r).
  rewrite Nat2Z.inj_add, (Hlen x (ltac:(left))), IH; [reflexivity|].
  intros y Hy. apply Hlen. now right.
Qed.

(** What a read inside the chunk at index [i] delivers is the slice of
    the contents at the position. *)
Lemma contents_slice_chunk (f : openfile_type) (i : nat) (c : filechunk_type) (n : Z) :
  openfile_wf f ->
  (forall x, x ∈ fileChunks f -> Z.of_nat (length (payload x)) = chunkSize x) ->
  fileChunks f !! i = Some c ->
  chunkOffset c <= filePointer f ->
  0 <= n <= chunkOffset c + chunkSize c - filePointer f ->
  contents_slice (virtual_contents payload (fileChunks f)) (filePointer f) n
  = take (Z.to_nat n) (drop (Z.to_nat (filePointer f - chunkOffset c)) (payload c)).
Proof.
  intros [Hc Hs _ _ _ _] Hlen Hi Hoff Hn. unfold contents_slice.
  pose proof (contents_drop (fileChunks f) 0 i c (filePointer f) Hc Hs Hlen Hi
                (ltac:(lia))) as Hd.
  rewrite Z.sub_0_r in Hd. rewrite Hd. apply take_app_le.
  rewrite length_drop. pose proof (Hlen c (list_elem_of_lookup_2 _ _ _ Hi)). lia.
Qed.

(** At or past the end of the file there is nothing to deliver. *)
Lemma contents_slice_end (f : openfile_type) (n : Z) :
  openfile_wf f ->
  (forall x, x ∈ fileChunks f -> Z.of_nat (length (payload x)) = chunkSize x) ->
  fileSize f <= filePointer f ->
  contents_slice (virtual_contents payload (fileChunks f)) (filePointer f) n = [].
Proof.
  intros Hwf Hlen Hfp. unfold contents_slice. rewrite drop_ge; [apply take_nil|].
  pose proof (contents_length (fileChunks f) Hlen).
  destruct Hwf as [_ Hs Ht _ _ _]. pose proof (total_size_nonneg _ Hs). lia.
Qed.

End Contents.

(** A slice is its first [n] bytes followed by the slice after them. *)
Lemma contents_slice_split (contents : list byte) (fp count n : Z) :
  0 <= fp -> 0 <= n <= count ->
  contents_slice contents fp count
  = contents_slice contents fp n ++ contents_slice contents (fp + n) (count - n).
Proof.
  intros Hfp Hn. unfold contents_slice.
  replace (Z.to_nat count) with (Z.to_nat n + Z.to_nat (count - n))%nat by lia.
  rewrite <- take_take_drop, drop_drop. do 3 f_equal. lia.
Qed.

(* ================================================================== *)
(** ** The steps of the read loop *)
(* ================================================================== *)

(** The step over a chunk that has nothing left. *)
Lemma read_step_advances (s : read_state) (chunk : filechunk_type) :
  openfile_wf (rs_of s) -> 0 <= filePointer (rs_of s) <= OFF_MAX ->
  0 < rs_nr s <= OFF_MAX ->
  fileChunks (rs_of s) !! chunkPtr (rs_of s) = Some chunk ->
  chunkOffset chunk + chunkSize chunk <= filePointer (rs_of s) ->
  read_step s
  = Continue (mk_read_state (close_chunk chunk (rs_os s)).2
                (mk_openfile (filePointer (rs_of s)) (fileSize (rs_of s))
                   (<[chunkPtr (rs_of s) := (close_chunk chunk (rs_os s)).1]>
                      (fileChunks (rs_of s)))
                   (S (chunkPtr (rs_of s))))
                (rs_nr s) (rs_out s)).
Proof.
  intros Hwf Hfp Hnr Hchunk Hend. unfold read_step.
  destruct (rs_nr s =? 0) eqn:E; [apply Z.eqb_eq in E; lia|]. rewrite Hchunk.
  destruct (openfile_wf_chunk _ _ _ Hwf Hchunk) as (Hc1 & Hc2 & Hc3 & Hc4).
  unfold OFF_MAX in *.
  rewrite (to_off_t_id (rs_nr s)) by (unfold off_t_range, OFF_MIN, OFF_MAX; lia).
  rewrite (to_off_t_id (chunkOffset chunk + chunkSize chunk))
    by (unfold off_t_range, OFF_MIN, OFF_MAX; lia).
  rewrite (to_off_t_id (chunkOffset chunk + chunkSize chunk - filePointer (rs_of s)))
    by (unfold off_t_range, OFF_MIN, OFF_MAX; lia).
  destruct (Z.min _ _ <=? 0) eqn:En; [|apply Z.leb_gt in En; lia].
  now destruct (close_chunk chunk (rs_os s)).
Qed.

(** The step that reads from the chunk at the cursor, when the chunk
    opens on a regular file that has all bytes of the chunk. *)
Lemma read_step_reads (s : read_state) (chunk chunk1 : filechunk_type)
    (os1 : os_state) (realfd : Z) (data : list byte) (pos : Z) :
  openfile_wf (rs_of s) -> 0 <= filePointer (rs_of s) <= OFF_MAX ->
  0 < rs_nr s <= OFF_MAX ->
  fileChunks (rs_of s) !! chunkPtr (rs_of s) = Some chunk ->
  chunkOffset chunk <= filePointer (rs_of s) < chunkOffset chunk + chunkSize chunk ->
  open_chunk chunk (rs_os s) = (chunk1, os1, realfd) ->
  realfd <> invalidFileDescriptor ->
  os_fds os1 !! realfd = Some (mk_open_fd (RegularFile data) pos) ->
  0 <= chunkPos chunk ->
  chunkPos chunk + chunkSize chunk <= Z.of_nat (length data) ->
  chunkPos chunk + chunkSize chunk <= OFF_MAX ->
  let n2r := Z.min (rs_nr s)
               (chunkOffset chunk + chunkSize chunk - filePointer (rs_of s)) in
  let bytes := take (Z.to_nat n2r)
                 (drop (Z.to_nat (filePointer (rs_of s) - chunkOffset chunk))
                    (chunk_payload chunk data)) in
  read_step s
  = Continue (mk_read_state
                (set_fds (<[realfd := mk_open_fd (RegularFile data)
                                        (filePointer (rs_of s) - chunkOffset chunk
                                         + chunkPos chunk + n2r)]> (os_fds os1)) os1)
                (mk_openfile (filePointer (rs_of s) + n2r) (fileSize (rs_of s))
                   (<[chunkPtr (rs_of s) := chunk1]> (fileChunks (rs_of s)))
                   (chunkPtr (rs_of s)))
                (rs_nr s - n2r) (rs_out s ++ bytes))
  /\ Z.of_nat (length bytes) = n2r.
Proof.
  intros Hwf Hfp Hnr Hchunk Hin Hopen Hvalid Hfd Hpos Hlen Hmax n2r bytes.
  destruct (openfile_wf_chunk _ _ _ Hwf Hchunk) as (Hc1 & Hc2 & Hc3 & Hc4).
  assert (Hn2r : 0 < n2r <= rs_nr s
                 /\ n2r <= chunkOffset chunk + chunkSize chunk - filePointer (rs_of s))
    by (unfold n2r; lia).
  assert (Hbytes : bytes
                   = take (Z.to_nat n2r)
                       (drop (Z.to_nat (filePointer (rs_of s) - chunkOffset chunk
                                        + chunkPos chunk)) data)).
  { unfold bytes. rewrite payload_window by lia. do 2 f_equal. lia. }
  assert (Hblen : Z.of_nat (length bytes) = n2r).
  { rewrite Hbytes, length_take, length_drop. lia. }
  split; [|exact Hblen].
  unfold read_step.
  destruct (rs_nr s =? 0) eqn:E; [apply Z.eqb_eq in E; lia|]. rewrite Hchunk.
  unfold OFF_MAX in *.
  rewrite (to_off_t_id (rs_nr s)) by (unfold off_t_range, OFF_MIN, OFF_MAX; lia).
  rewrite (to_off_t_id (chunkOffset chunk + chunkSize chunk))
    by (unfold off_t_range, OFF_MIN, OFF_MAX; lia).
  rewrite (to_off_t_id (chunkOffset chunk + chunkSize chunk - filePointer (rs_of s)))
    by (unfold off_t_range, OFF_MIN, OFF_MAX; lia).
  fold n2r. destruct (n2r <=? 0) eqn:En; [apply Z.leb_le in En; lia|].
  rewrite Hopen.
  destruct (realfd =? invalidFileDescriptor) eqn:Ev;
    [apply Z.eqb_eq in Ev; contradiction|].
  rewrite (to_off_t_id (filePointer (rs_of s) - chunkOffset chunk + chunkPos chunk))
    by (unfold off_t_range, OFF_MIN, OFF_MAX; lia).
  rewrite (sys_lseek_set realfd _ os1 _ Hfd) by (unfold OFF_MAX; lia).
  cbn [fd_node]. rewrite (to_size_t_id n2r) by (unfold OFF_MAX; lia).
  erewrite sys_read_regular by apply lookup_insert_eq.
  cbv zeta. rewrite <- Hbytes, Hblen.
  destruct (n2r <? 0) eqn:Eneg; [apply Z.ltb_lt in Eneg; lia|].
  rewrite (to_off_t_id (filePointer (rs_of s) + n2r))
    by (unfold off_t_range, OFF_MIN, OFF_MAX; lia).
  rewrite (to_size_t_id (rs_nr s - n2r)) by (unfold OFF_MAX; lia).
  cbn [os_fds set_fds os_files os_errno fileSize fileChunks chunkPtr set_chunk].
  rewrite insert_insert_eq. reflexivity.
Qed.

(** The last chunk of a well-formed open file ends at the size of the
    file. *)
Lemma contiguous_last (start : Z) (l : filechunks_type) (i : nat) (c : filechunk_type) :
  contiguous_from start l -> l !! i = Some c -> l !! S i = None ->
  chunkOffset c + chunkSize c = start + total_size l.
Proof.
  revert start i. induction l as [|x r IH]; intros start i Hc Hi HS; [discriminate|].
  destruct Hc as [Hx Hr]. change (total_size (x :: r)) with (chunkSize x + total_size r).
  destruct i as [|i]; cbn in Hi, HS.
  - injection Hi as <-. destruct r; [|discriminate]. unfold total_size. cbn. lia.
  - rewrite (IH _ _ Hr Hi HS). lia.
Qed.

(** After the step over a chunk the cursor is still not ahead of the
    position. *)
Lemma cursor_behind_next (f : openfile_type) (chunk c1 : filechunk_type) :
  openfile_wf f ->
  fileChunks f !! chunkPtr f = Some chunk ->
  chunkOffset chunk + chunkSize chunk <= filePointer f ->
  chunkOffset c1 = chunkOffset chunk -> chunkSize c1 = chunkSize chunk ->
  cursor_behind (mk_openfile (filePointer f) (fileSize f)
                   (<[chunkPtr f := c1]> (fileChunks f)) (S (chunkPtr f))).
Proof.
  intros [Hc Hs Ht _ _ _] Hchunk Hend Ho1 Hs1. unfold cursor_behind. cbn.
  rewrite list_lookup_insert_ne by lia.
  destruct (fileChunks f !! S (chunkPtr f)) as [c'|] eqn:Hnext.
  - rewrite (contiguous_lookup _ _ _ _ _ Hc Hchunk Hnext). exact Hend.
  - rewrite Ht. pose proof (contiguous_last _ _ _ _ Hc Hchunk Hnext). lia.
Qed.

(* ================================================================== *)
(** ** The read loop over chunks that can be read *)
(* ================================================================== *)

Lemma payloads_insert (payload : filechunk_type -> list byte)
    (l : filechunks_type) (i : nat) (c c1 : filechunk_type) :
  l !! i = Some c -> payload c1 = payload c ->
  map payload (<[i := c1]> l) = map payload l.
Proof.
  intros Hi Hp. change (payload <$> <[i:=c1]> l = payload <$> l).
  rewrite list_fmap_insert, Hp. apply list_insert_id.
  now rewrite list_lookup_fmap, Hi.
Qed.

Lemma read_steps_bound_pos (s : read_state) : (1 <= read_steps_bound s)%nat.
Proof.
  unfold read_steps_bound. destruct (rs_nr s =? 0); [lia|].
  destruct (fileChunks (rs_of s) !! chunkPtr (rs_of s)) as [c|] eqn:E; [|lia].
  apply lookup_lt_Some in E. destruct (_ <? _); lia.
Qed.

Lemma read_steps_bound_max (s : read_state) :
  (read_steps_bound s <= 2 * length (fileChunks (rs_of s)) + 1)%nat.
Proof.
  unfold read_steps_bound. destruct (rs_nr s =? 0); [lia|].
  destruct (fileChunks (rs_of s) !! chunkPtr (rs_of s)) as [c|] eqn:E; [|lia].
  destruct (_ <? _); lia.
Qed.

Section ReadLoop.

(** The bytes of a chunk, and what the loop needs of the system and the
    open file; both kinds of recording provide them below. *)
Variable payload : filechunk_type -> list byte.
Variable ready : os_state -> openfile_type -> Prop.

Hypothesis ready_file : forall os f,
  ready os f ->
  openfile_wf f /\ 0 <= filePointer f <= OFF_MAX /\ cursor_behind f
  /\ (forall x, x ∈ fileChunks f -> Z.of_nat (length (payload x)) = chunkSize x).

Hypothesis ready_open : forall os f chunk,
  ready os f -> fileChunks f !! chunkPtr f = Some chunk ->
  chunkOffset chunk <= filePointer f < chunkOffset chunk + chunkSize chunk ->
  exists chunk1 os1 realfd data pos,
    open_chunk chunk os = (chunk1, os1, realfd)
    /\ realfd <> invalidFileDescriptor
    /\ os_fds os1 !! realfd = Some (mk_open_fd (RegularFile data) pos)
    /\ 0 <= chunkPos chunk
    /\ chunkPos chunk + chunkSize chunk <= Z.of_nat (length data)
    /\ chunkPos chunk + chunkSize chunk <= OFF_MAX
    /\ chunk_payload chunk data = payload chunk
    /\ payload chunk1 = payload chunk
    /\ forall n pos',
         0 < n <= chunkOffset chunk + chunkSize chunk - filePointer f ->
         ready (set_fds (<[realfd := mk_open_fd (RegularFile data) pos']> (os_fds os1)) os1)
               (mk_openfile (filePointer f + n) (fileSize f)
                  (<[chunkPtr f := chunk1]> (fileChunks f)) (chunkPtr f)).

Hypothesis ready_close : forall os f chunk,
  ready os f -> fileChunks f !! chunkPtr f = Some chunk ->
  chunkOffset chunk + chunkSize chunk <= filePointer f ->
  payload (close_chunk chunk os).1 = payload chunk
  /\ ready (close_chunk chunk os).2
           (mk_openfile (filePointer f) (fileSize f)
              (<[chunkPtr f := (close_chunk chunk os).1]> (fileChunks f))
              (S (chunkPtr f))).

(** With enough fuel the loop ends, and it has stored the bytes of the
    virtual file from the position on, as many as were asked for or as
    there are. *)
Lemma read_loop_reads (fuel : nat) :
  forall s,
    ready (rs_os s) (rs_of s) -> 0 <= rs_nr s <= OFF_MAX ->
    (read_steps_bound s <= fuel)%nat ->
    let bytes := contents_slice (virtual_contents payload (fileChunks (rs_of s)))
                   (filePointer (rs_of s)) (rs_nr s) in
    exists s',
      read_loop fuel s = Some s'
      /\ ready (rs_os s') (rs_of s')
      /\ rs_out s' = rs_out s ++ bytes
      /\ rs_nr s' = rs_nr s - Z.of_nat (length bytes)
      /\ filePointer (rs_of s') = filePointer (rs_of s) + Z.of_nat (length bytes)
      /\ fileSize (rs_of s') = fileSize (rs_of s)
      /\ map payload (fileChunks (rs_of s')) = map payload (fileChunks (rs_of s)).
Proof.
  induction fuel as [|k IH]; intros s Hready Hnr Hfuel;
    [pose proof (read_steps_bound_pos s); lia|].
  destruct (ready_file _ _ Hready) as (Hwf & Hfp & Hcur & Hlen).
  cbv zeta. cbn [read_loop].
  destruct (Z.eq_dec (rs_nr s) 0) as [Hz|Hnz].
  { unfold read_step, contents_slice. rewrite Hz. cbn [Z.eqb]. exists s.
    change (Z.to_nat 0) with 0%nat. rewrite take_0. cbn [length Z.of_nat].
    rewrite app_nil_r. repeat split; try reflexivity; try assumption; lia. }
  destruct (fileChunks (rs_of s) !! chunkPtr (rs_of s)) as [chunk|] eqn:Hchunk.
  2:{ unfold read_step. destruct (rs_nr s =? 0) eqn:E; [apply Z.eqb_eq in E; lia|].
      rewrite Hchunk. exists s. unfold cursor_behind in Hcur. rewrite Hchunk in Hcur.
      rewrite (contents_slice_end payload _ _ Hwf Hlen Hcur).
      cbn [length Z.of_nat]. rewrite app_nil_r.
      repeat split; try reflexivity; try assumption; lia. }
  assert (Hoff : chunkOffset chunk <= filePointer (rs_of s)).
  { unfold cursor_behind in Hcur. now rewrite Hchunk in Hcur. }
  destruct (openfile_wf_chunk _ _ _ Hwf Hchunk) as (Hc1 & Hc2 & Hc3 & Hc4).
  pose proof (lookup_lt_Some _ _ _ Hchunk) as Hlt.
  destruct (Z_lt_le_dec (filePointer (rs_of s)) (chunkOffset chunk + chunkSize chunk))
    as [Hin|Hpast].
  - (* bytes are read from the chunk *)
    destruct (ready_open _ _ _ Hready Hchunk (conj Hoff Hin))
      as (chunk1 & os1 & realfd & data & pos & Hopen & Hvalid & Hfd & Hpos & Hdata
          & Hmax & Hpay & Hpay1 & Hnext).
    destruct (read_step_reads s chunk chunk1 os1 realfd data pos Hwf Hfp
                (ltac:(lia)) Hchunk (conj Hoff Hin) Hopen Hvalid Hfd Hpos Hdata Hmax)
      as [Hstep Hblen].
    cbv zeta in Hstep, Hblen. rewrite Hstep.
    set (n2r := Z.min (rs_nr s)
                  (chunkOffset chunk + chunkSize chunk - filePointer (rs_of s))) in *.
    assert (Hn2r : 0 < n2r <= rs_nr s
                   /\ n2r <= chunkOffset chunk + chunkSize chunk - filePointer (rs_of s))
      by (unfold n2r; lia).
    assert (Hn2r' : n2r = rs_nr s
                    \/ n2r = chunkOffset chunk + chunkSize chunk - filePointer (rs_of s))
      by (unfold n2r; lia).
    rewrite Hpay in Hstep, Hblen.
    set (bytes := take (Z.to_nat n2r)
                    (drop (Z.to_nat (filePointer (rs_of s) - chunkOffset chunk))
                       (payload chunk))) in *.
    set (s1 := mk_read_state _ _ _ _).
    assert (Hready1 : ready (rs_os s1) (rs_of s1)) by (apply Hnext; lia).
    assert (Hbound1 : (read_steps_bound s1 <= k)%nat).
    { unfold read_steps_bound in *. cbn [s1 rs_nr rs_of fileChunks chunkPtr filePointer].
      destruct (rs_nr s =? 0) eqn:E; [apply Z.eqb_eq in E; lia|].
      rewrite Hchunk in Hfuel.
      destruct (filePointer (rs_of s) <? chunkOffset chunk + chunkSize chunk) eqn:E1;
        [|apply Z.ltb_ge in E1; lia].
      destruct (rs_nr s - n2r =? 0) eqn:E2; [lia|]. apply Z.eqb_neq in E2.
      rewrite list_lookup_insert_eq by exact Hlt.
      rewrite length_insert.
      destruct (open_chunk_shape chunk (rs_os s)) as [[fd' Hc] _].
      rewrite Hopen in Hc. cbn in Hc. rewrite Hc. cbn [chunkOffset chunkSize set_chunkFd].
      destruct (filePointer (rs_of s) + n2r <? chunkOffset chunk + chunkSize chunk)
        eqn:E3; [apply Z.ltb_lt in E3; lia|lia]. }
    destruct (IH s1 Hready1 (ltac:(cbn; lia)) Hbound1)
      as (s' & Hrun & Hr' & Hout & Hnr' & Hfp' & Hsz' & Hmap').
    cbv zeta in Hout, Hnr', Hfp'.
    assert (Hmap1 : map payload (fileChunks (rs_of s1)) = map payload (fileChunks (rs_of s)))
      by (apply (payloads_insert payload _ _ chunk); assumption).
    unfold virtual_contents in *. rewrite Hmap1 in Hout, Hnr', Hfp'.
    cbn [s1 rs_of rs_nr rs_out filePointer fileSize] in Hout, Hnr', Hfp', Hsz'.
    fold (virtual_contents payload (fileChunks (rs_of s))) in *.
    set (C := virtual_contents payload (fileChunks (rs_of s))) in *.
    assert (Hsplit : contents_slice C (filePointer (rs_of s)) (rs_nr s)
                     = bytes ++ contents_slice C (filePointer (rs_of s) + n2r)
                                  (rs_nr s - n2r)).
    { rewrite (contents_slice_split C _ (rs_nr s) n2r) by lia. f_equal.
      apply (contents_slice_chunk payload _ (chunkPtr (rs_of s)) chunk n2r Hwf Hlen
               Hchunk Hoff). lia. }
    exists s'. rewrite Hsplit, length_app, Nat2Z.inj_add, Hblen.
    split; [exact Hrun|]. split; [exact Hr'|].
    split; [now rewrite Hout, Hpay, <- app_assoc|].
    split; [lia|]. split; [lia|]. split; [exact Hsz'|]. congruence.
  - (* nothing is left of the chunk: on to the next *)
    rewrite (read_step_advances s chunk Hwf Hfp (ltac:(lia)) Hchunk Hpast).
    destruct (ready_close _ _ _ Hready Hchunk Hpast) as [Hpay1 Hnext].
    set (s1 := mk_read_state _ _ _ _).
    assert (Hbound1 : (read_steps_bound s1 <= k)%nat).
    { unfold read_steps_bound in *. cbn [s1 rs_nr rs_of fileChunks chunkPtr filePointer].
      destruct (rs_nr s =? 0) eqn:E; [apply Z.eqb_eq in E; lia|].
      rewrite Hchunk in Hfuel.
      destruct (filePointer (rs_of s) <? chunkOffset chunk + chunkSize chunk) eqn:E1;
        [apply Z.ltb_lt in E1; lia|].
      rewrite length_insert.
      destruct (_ !! S _) as [c'|];
        [destruct (filePointer (rs_of s) <? chunkOffset c' + chunkSize c')|]; lia. }
    destruct (IH s1 Hnext (ltac:(cbn; lia)) Hbound1)
      as (s' & Hrun & Hr' & Hout & Hnr' & Hfp' & Hsz' & Hmap').
    cbv zeta in Hout, Hnr', Hfp'.
    assert (Hmap1 : map payload (fileChunks (rs_of s1)) = map payload (fileChunks (rs_of s)))
      by (apply (payloads_insert payload _ _ chunk); assumption).
    unfold virtual_contents in *. rewrite Hmap1 in Hout, Hnr', Hfp'.
    exists s'. split; [exact Hrun|]. split; [exact Hr'|].
    split; [exact Hout|]. split; [exact Hnr'|]. split; [exact Hfp'|].
    split; [exact Hsz'|]. congruence.
Qed.

End ReadLoop.

(* ================================================================== *)
(** ** Reading a Mark6 recording *)
(* ================================================================== *)

(** Moving the position of a descriptor changes the data of none. *)
Lemma fd_data_moved (os os' : os_state) (fd : Z) (data : list byte) (pos pos' : Z) :
  os_fds os !! fd = Some (mk_open_fd (RegularFile data) pos) ->
  os_fds os' = <[fd := mk_open_fd (RegularFile data) pos']> (os_fds os) ->
  forall k, fd_data os' k = fd_data os k
            /\ forall d q, os_fds os !! k = Some (mk_open_fd (RegularFile d) q) ->
                 exists q', os_fds os' !! k = Some (mk_open_fd (RegularFile d) q').
Proof.
  intros Hfd Hfds k. unfold fd_data. rewrite Hfds.
  destruct (decide (k = fd)) as [->|Hne].
  - rewrite lookup_insert_eq, Hfd. split; [reflexivity|].
    intros d q [= <- <-]. eauto.
  - rewrite lookup_insert_ne by congruence. split; [reflexivity|]. eauto.
Qed.

Lemma mk6_chunk_ready_owns (os : os_state) (c : filechunk_type) :
  mk6_chunk_ready os c -> owns_descriptor c = false.
Proof.
  intros [H _]. unfold owns_descriptor.
  destruct (0 <=? chunkFd c) eqn:E; [apply Z.leb_le in E; lia|reflexivity].
Qed.

(** A Mark6 chunk is opened by taking the descriptor of its file, and
    nothing else happens. *)
Lemma mk6_open_chunk (os : os_state) (c : filechunk_type) :
  mk6_chunk_ready os c -> open_chunk c os = (c, set_errno 0 os, - chunkFd c).
Proof.
  intros [H _]. unfold open_chunk, invalidFileDescriptor.
  destruct (chunkFd c =? INT_MAX) eqn:E;
    [apply Z.eqb_eq in E; unfold INT_MAX in *; lia|].
  destruct (chunkFd c <? 0) eqn:E1; [|apply Z.ltb_ge in E1; lia].
  rewrite to_int_id; [reflexivity|].
  unfold int_range, INT_MIN, INT_MAX in *. lia.
Qed.

Lemma mk6_ready_payload (os0 os : os_state) (f : openfile_type) :
  mk6_ready os f -> (forall k, fd_data os k = fd_data os0 k) ->
  forall x, x ∈ fileChunks f -> Z.of_nat (length (mk6_payload os0 x)) = chunkSize x.
Proof.
  intros [Hwf _ _ Hchunks] Hdata x Hx. unfold mk6_payload.
  destruct (Hchunks x Hx) as (_ & Hpos & _ & Hlen & _).
  apply list_elem_of_lookup_1 in Hx as [i Hi].
  destruct (openfile_wf_chunk _ _ _ Hwf Hi) as (_ & Hs & _).
  rewrite <- Hdata. now apply chunk_payload_length.
Qed.

(** The read loop on a Mark6 recording. *)
Lemma mk6_read_loop (os0 : os_state) (fuel : nat) (s : read_state) :
  mk6_ready (rs_os s) (rs_of s) -> (forall k, fd_data (rs_os s) k = fd_data os0 k) ->
  0 <= rs_nr s <= OFF_MAX ->
  (read_steps_bound s <= fuel)%nat ->
  let bytes := contents_slice (virtual_contents (mk6_payload os0) (fileChunks (rs_of s)))
                 (filePointer (rs_of s)) (rs_nr s) in
  exists s',
    read_loop fuel s = Some s'
    /\ (mk6_ready (rs_os s') (rs_of s') /\ forall k, fd_data (rs_os s') k = fd_data os0 k)
    /\ rs_out s' = rs_out s ++ bytes
    /\ rs_nr s' = rs_nr s - Z.of_nat (length bytes)
    /\ filePointer (rs_of s') = filePointer (rs_of s) + Z.of_nat (length bytes)
    /\ fileSize (rs_of s') = fileSize (rs_of s)
    /\ map (mk6_payload os0) (fileChunks (rs_of s'))
       = map (mk6_payload os0) (fileChunks (rs_of s)).
Proof.
  intros Hready Hdata Hnr Hfuel.
  apply (read_loop_reads (mk6_payload os0)
           (fun os f => mk6_ready os f /\ forall k, fd_data os k = fd_data os0 k));
    [| | |split; assumption|assumption|assumption].
  - (* the open file *)
    intros os f [Hr Hd]. pose proof (mk6_ready_payload os0 os f Hr Hd) as Hp.
    destruct Hr as [Hwf Hfp Hcur _].
    split; [exact Hwf|]. split; [exact Hfp|]. split; [exact Hcur|exact Hp].
  - (* reading from the chunk at the cursor *)
    intros os f chunk [Hr Hd] Hchunk Hin.
    pose proof Hr as [Hwf Hfp Hcur Hchunks].
    pose proof (Hchunks chunk (list_elem_of_lookup_2 _ _ _ Hchunk)) as Hc.
    pose proof Hc as (Hfd & Hpos & Hsz & Hlen & Hmax & pos & Hlook).
    destruct (openfile_wf_chunk _ _ _ Hwf Hchunk) as (Hc1 & Hc2 & Hc3 & Hc4).
    exists chunk, (set_errno 0 os), (- chunkFd chunk), (fd_data os (- chunkFd chunk)), pos.
    split; [now apply mk6_open_chunk|].
    split; [unfold invalidFileDescriptor; lia|].
    split; [exact Hlook|]. split; [exact Hpos|]. split; [exact Hlen|].
    split; [exact Hmax|].
    split; [unfold mk6_payload; now rewrite Hd|]. split; [reflexivity|].
    intros n pos' Hn. rewrite list_insert_id by exact Hchunk.
    set (os' := set_fds _ _).
    pose proof (fd_data_moved os os' _ _ pos pos' Hlook eq_refl) as Hmoved.
    split.
    + constructor; cbn [filePointer fileSize fileChunks chunkPtr].
      * eapply (openfile_wf_ext f); try reflexivity; [|exact Hwf]. apply Hwf.
      * lia.
      * unfold cursor_behind. cbn. rewrite Hchunk. lia.
      * intros c Hcin. destruct (Hchunks c Hcin) as (G1 & G2 & G0 & G3 & G4 & q & G5).
        destruct (Hmoved (- chunkFd c)) as [Heq Hsome].
        unfold mk6_chunk_ready. rewrite Heq.
        split; [exact G1|]. split; [exact G2|]. split; [exact G0|].
        split; [exact G3|]. split; [exact G4|]. exact (Hsome _ _ G5).
    + intros k. rewrite <- Hd. apply Hmoved.
  - (* stepping over the chunk at the cursor *)
    intros os f chunk [Hr Hd] Hchunk Hpast.
    pose proof Hr as [Hwf Hfp Hcur Hchunks].
    pose proof (Hchunks chunk (list_elem_of_lookup_2 _ _ _ Hchunk)) as Hc.
    rewrite (close_chunk_not_owned chunk os (mk6_chunk_ready_owns os chunk Hc)).
    cbn [fst snd]. split; [reflexivity|]. split; [|exact Hd].
    pose proof (cursor_behind_next f chunk chunk Hwf Hchunk Hpast eq_refl eq_refl) as Hnext.
    rewrite list_insert_id in * by exact Hchunk.
    constructor; cbn [filePointer fileSize fileChunks chunkPtr].
    + eapply (openfile_wf_ext f); try reflexivity; [|exact Hwf].
      cbn. apply lookup_lt_Some in Hchunk. lia.
    + exact Hfp.
    + exact Hnext.
    + exact Hchunks.
Qed.

Lemma contents_slice_length (contents : list byte) (fp count : Z) :
  0 <= fp -> 0 <= count ->
  Z.of_nat (length (contents_slice contents fp count))
  = Z.min count (Z.max 0 (Z.of_nat (length contents) - fp)).
Proof. intros Hfp Hc. unfold contents_slice. now apply length_read. Qed.

Lemma mk6_payload_data (os os' : os_state) (chunks : filechunks_type) :
  (forall k, fd_data os' k = fd_data os k) ->
  map (mk6_payload os') chunks = map (mk6_payload os) chunks.
Proof.
  intros H. apply map_ext. intros c. unfold mk6_payload. now rewrite H.
Qed.

(** After a slice of [n] bytes, short or not, the contents go on as
    they do [n] bytes further. *)
Lemma contents_slice_after (contents : list byte) (fp n m : Z) :
  0 <= fp -> 0 <= n ->
  contents_slice contents (fp + Z.of_nat (length (contents_slice contents fp n))) m
  = contents_slice contents (fp + n) m.
Proof.
  intros Hfp Hn. pose proof (contents_slice_length contents fp n Hfp Hn) as Hl.
  set (k := Z.of_nat (length (contents_slice contents fp n))) in *.
  destruct (Z.le_gt_cases n (Z.of_nat (length contents) - fp)) as [Hle|Hgt].
  - now replace k with n by lia.
  - unfold contents_slice. rewrite !drop_ge by lia. reflexivity.
Qed.

(** A read of a Mark6 recording, with what it leaves behind. *)
Lemma vbs_read_mk6_run (fuel : nat) (fd buf count : Z) (p : process)
    (f : openfile_type) :
  openedFiles p !! fd = Some f -> mk6_ready (proc_os p) f ->
  buf <> 0 -> 0 <= count <= OFF_MAX ->
  (2 * length (fileChunks f) + 1 <= fuel)%nat ->
  let contents := virtual_contents (mk6_payload (proc_os p)) (fileChunks f) in
  let bytes := contents_slice contents (filePointer f) count in
  exists p' f',
    vbs_read fuel fd buf count p
    = Some (p', mk_read_result (Z.of_nat (length bytes)) bytes)
    /\ openedFiles p' = <[fd := f']> (openedFiles p)
    /\ filePointer f' = filePointer f + Z.of_nat (length bytes)
    /\ fileSize f' = fileSize f
    /\ mk6_ready (proc_os p') f'
    /\ (forall k, fd_data (proc_os p') k = fd_data (proc_os p) k)
    /\ map (mk6_payload (proc_os p')) (fileChunks f')
       = map (mk6_payload (proc_os p)) (fileChunks f).
Proof.
  intros Hf Hready Hbuf Hcount Hfuel contents bytes.
  pose proof Hready as [Hwf Hfp Hcur Hchunks].
  pose proof (mk6_ready_payload (proc_os p) _ _ Hready (fun k => eq_refl)) as Hlen.
  unfold vbs_read. rewrite Hf.
  destruct (buf =? 0) eqn:Eb; [apply Z.eqb_eq in Eb; contradiction|].
  destruct (count =? 0) eqn:Ec.
  { apply Z.eqb_eq in Ec. exists p, f. unfold bytes, contents_slice. rewrite Ec.
    change (Z.to_nat 0) with 0%nat. rewrite take_0. cbn [length Z.of_nat].
    rewrite insert_id by exact Hf. rewrite Z.add_0_r. auto 10. }
  apply Z.eqb_neq in Ec.
  destruct (fileChunks f !! chunkPtr f) as [c|] eqn:Hc.
  2:{ exists p, f. unfold cursor_behind in Hcur. rewrite Hc in Hcur.
      unfold bytes, contents.
      rewrite (contents_slice_end (mk6_payload (proc_os p)) _ _ Hwf Hlen Hcur).
      cbn [length Z.of_nat]. rewrite insert_id by exact Hf. rewrite Z.add_0_r.
      auto 10. }
  set (s := mk_read_state (proc_os p) f count []).
  destruct (mk6_read_loop (proc_os p) fuel s Hready (fun k => eq_refl) Hcount)
    as (s' & Hrun & [Hr' Hd'] & Hout & Hnr & Hfp' & Hsz' & Hmap).
  { pose proof (read_steps_bound_max s). cbn [s rs_of] in *. lia. }
  cbv zeta in Hout, Hnr, Hfp'. cbn [s rs_of rs_nr rs_out app] in Hout, Hnr, Hfp', Hsz', Hmap.
  fold contents in Hout, Hnr, Hfp'. fold bytes in Hout, Hnr, Hfp'.
  rewrite Hrun. exists (mk_process (<[fd := rs_of s']> (openedFiles p)) (rs_os s')),
    (rs_of s').
  assert (Hb : 0 <= Z.of_nat (length bytes) <= count).
  { unfold bytes. rewrite contents_slice_length by lia. lia. }
  rewrite Hnr, Hout. replace (count - (count - Z.of_nat (length bytes)))
    with (Z.of_nat (length bytes)) by lia.
  rewrite to_off_t_id by (unfold off_t_range, OFF_MIN, OFF_MAX in *; lia).
  cbn [openedFiles proc_os].
  split; [reflexivity|]. split; [reflexivity|]. split; [exact Hfp'|].
  split; [exact Hsz'|]. split; [exact Hr'|]. split; [exact Hd'|].
  rewrite (mk6_payload_data _ _ _ Hd'). exact Hmap.
Qed.

(** X6: on a Mark6 recording whose files are open and hold their blocks,
    [vbs_read] ends within two iterations per chunk and one more, stores
    in the buffer the [count] bytes of the recording that follow the
    position (fewer only when the recording ends before that), returns
    their number, and advances the position by it. *)
Theorem vbs_read_mk6 (fuel : nat) (fd buf count : Z) (p : process)
    (f : openfile_type) :
  openedFiles p !! fd = Some f -> mk6_ready (proc_os p) f ->
  buf <> 0 -> 0 <= count <= OFF_MAX ->
  (2 * length (fileChunks f) + 1 <= fuel)%nat ->
  exists p' f',
    vbs_read fuel fd buf count p
    = Some (p', mk_read_result
                  (Z.min count (Z.max 0 (fileSize f - filePointer f)))
                  (contents_slice (virtual_contents (mk6_payload (proc_os p)) (fileChunks f))
                     (filePointer f) count))
    /\ openedFiles p' !! fd = Some f'
    /\ filePointer f' = filePointer f + Z.min count (Z.max 0 (fileSize f - filePointer f))
    /\ mk6_ready (proc_os p') f'.
Proof.
  intros Hf Hready Hbuf Hcount Hfuel.
  destruct (vbs_read_mk6_run fuel fd buf count p f Hf Hready Hbuf Hcount Hfuel)
    as (p' & f' & Hrun & Hfiles & Hfp' & _ & Hr' & _).
  cbv zeta in Hrun, Hfp'.
  pose proof Hready as [Hwf Hfp _ _].
  pose proof (mk6_ready_payload (proc_os p) _ _ Hready (fun k => eq_refl)) as Hlen.
  rewrite contents_slice_length in Hrun, Hfp' by lia.
  rewrite (contents_length _ _ Hlen), <- (wf_total _ Hwf) in Hrun, Hfp'.
  exists p', f'. split; [exact Hrun|]. split; [|split; assumption].
  rewrite Hfiles. apply lookup_insert_eq.
Qed.

(** X7: two reads of a Mark6 recording, one after the other, store what
    one read of the sum of their counts stores, and leave the position
    where that read leaves it. *)
Theorem vbs_read_mk6_twice (fuel : nat) (fd buf n m : Z) (p : process)
    (f : openfile_type) :
  openedFiles p !! fd = Some f -> mk6_ready (proc_os p) f ->
  buf <> 0 -> 0 <= n -> 0 <= m -> n + m <= OFF_MAX ->
  (2 * length (fileChunks f) + 1 <= fuel)%nat ->
  exists p1 r1 p2 r2 p12 r12 f2 f12,
    vbs_read fuel fd buf n p = Some (p1, r1)
    /\ vbs_read fuel fd buf m p1 = Some (p2, r2)
    /\ vbs_read fuel fd buf (n + m) p = Some (p12, r12)
    /\ rr_data r12 = rr_data r1 ++ rr_data r2
    /\ rr_ret r12 = rr_ret r1 + rr_ret r2
    /\ openedFiles p2 !! fd = Some f2 /\ openedFiles p12 !! fd = Some f12
    /\ filePointer f2 = filePointer f12.
Proof.
  intros Hf Hready Hbuf Hn Hm Hnm Hfuel.
  pose proof Hready as [Hwf Hfp _ _].
  destruct (vbs_read_mk6_run fuel fd buf n p f Hf Hready Hbuf (ltac:(lia)) Hfuel)
    as (p1 & f1 & Hrun1 & Hfiles1 & Hfp1 & Hsz1 & Hr1 & Hd1 & Hc1).
  cbv zeta in Hrun1, Hfp1.
  assert (Hf1 : openedFiles p1 !! fd = Some f1)
    by (rewrite Hfiles1; apply lookup_insert_eq).
  assert (Hlen1 : length (fileChunks f1) = length (fileChunks f)).
  { apply (f_equal (@length _)) in Hc1. now rewrite !length_map in Hc1. }
  destruct (vbs_read_mk6_run fuel fd buf m p1 f1 Hf1 Hr1 Hbuf (ltac:(lia))
              (ltac:(lia)))
    as (p2 & f2 & Hrun2 & Hfiles2 & Hfp2 & _).
  cbv zeta in Hrun2, Hfp2.
  destruct (vbs_read_mk6_run fuel fd buf (n + m) p f Hf Hready Hbuf (ltac:(lia)) Hfuel)
    as (p12 & f12 & Hrun12 & Hfiles12 & Hfp12 & _).
  cbv zeta in Hrun12, Hfp12.
  unfold virtual_contents in Hrun2, Hfp2. rewrite Hc1, Hfp1 in Hrun2, Hfp2.
  fold (virtual_contents (mk6_payload (proc_os p)) (fileChunks f)) in *.
  set (C := virtual_contents (mk6_payload (proc_os p)) (fileChunks f)) in *.
  rewrite contents_slice_after in Hrun2, Hfp2 by lia.
  assert (Hsplit : contents_slice C (filePointer f) (n + m)
                   = contents_slice C (filePointer f) n
                     ++ contents_slice C (filePointer f + n) m).
  { rewrite (contents_slice_split C _ (n + m) n) by lia.
    now replace (n + m - n) with m by lia. }
  eexists p1, _, p2, _, p12, _, f2, f12.
  split; [exact Hrun1|]. split; [exact Hrun2|]. split; [exact Hrun12|].
  cbn [rr_data rr_ret]. rewrite Hfiles2, Hfiles12, !lookup_insert_eq.
  rewrite Hfp2, Hfp12, Hsplit, length_app.
  split; [reflexivity|]. split; [lia|]. split; [reflexivity|].
  split; [reflexivity|]. lia.
Qed.

(* ================================================================== *)
(** ** Reading a FlexBuff recording *)
(* ================================================================== *)

Lemma file_data_files (os os' : os_state) (path : string) :
  os_files os' = os_files os -> file_data os' path = file_data os path.
Proof. intros H. unfold file_data. now rewrite H. Qed.

Lemma flexbuff_payload_files (os os' : os_state) (chunks : filechunks_type) :
  os_files os' = os_files os ->
  map (flexbuff_payload os') chunks = map (flexbuff_payload os) chunks.
Proof.
  intros H. apply map_ext. intros c. unfold flexbuff_payload.
  now rewrite (file_data_files os os').
Qed.

Lemma flexbuff_ready_payload (os0 os : os_state) (f : openfile_type) :
  flexbuff_ready os f -> os_files os = os_files os0 ->
  forall x, x ∈ fileChunks f -> Z.of_nat (length (flexbuff_payload os0 x)) = chunkSize x.
Proof.
  intros [Hwf _ _ Hchunks _] Hfiles x Hx. unfold flexbuff_payload.
  apply list_elem_of_lookup_1 in Hx as [i Hi].
  destruct (Hchunks i x Hi) as (Hpos & Hlen & _).
  destruct (openfile_wf_chunk _ _ _ Hwf Hi) as (_ & Hs & _).
  rewrite (file_data_files os os0) by congruence.
  apply chunk_payload_length; lia.
Qed.

(** Opening the chunk at the cursor of a FlexBuff recording: the
    descriptor it has is used, and when it has none its file is opened. *)
Lemma flexbuff_open_chunk (os : os_state) (f : openfile_type) (chunk : filechunk_type) :
  flexbuff_ready os f -> fileChunks f !! chunkPtr f = Some chunk ->
  0 < chunkSize chunk ->
  exists realfd os1 pos,
    open_chunk chunk os = (set_chunkFd chunk realfd, os1, realfd)
    /\ 0 <= realfd < INT_MAX
    /\ os_fds os1 !! realfd
       = Some (mk_open_fd (RegularFile (file_data os (pathToChunk chunk))) pos)
    /\ os_files os1 = os_files os
    /\ Z.of_nat (size (os_fds os1)) <= INT_MAX.
Proof.
  intros [Hwf Hfp Hcur Hchunks Hroom] Hchunk Hsize.
  destruct (Hchunks _ _ Hchunk) as (Hpos & Hlen & Hfd).
  unfold descriptor_room in Hroom. rewrite Hchunk in Hroom.
  unfold open_chunk, owns_descriptor in *.
  destruct Hfd as [Hinv|(_ & Hrange & pos & Hlook)].
  - rewrite Hinv in *. rewrite Z.eqb_refl in *. rewrite andb_false_r in Hroom.
    unfold sys_open, file_data in *. cbn [os_files os_fds set_errno].
    destruct (os_files os !! pathToChunk chunk) as [[data|entries]|] eqn:Hfile;
      [|cbn [length] in Hlen; lia|cbn [length] in Hlen; lia].
    pose proof (fresh_fd_nonneg (os_fds os)) as Hfresh.
    pose proof (fresh_fd_free (os_fds os)) as Hfree.
    set (fd := fresh_fd (os_fds os)) in *.
    destruct (fd =? -1) eqn:E; [apply Z.eqb_eq in E; lia|].
    cbn [chunkFd set_chunkFd].
    destruct (fd <? 0) eqn:E1; [apply Z.ltb_lt in E1; lia|].
    exists fd, (set_fds (<[fd := mk_open_fd (RegularFile data) 0]> (os_fds os))
                  (set_errno 0 os)), 0.
    split; [reflexivity|]. split; [lia|]. cbn [os_fds os_files set_fds set_errno].
    split; [apply lookup_insert_eq|]. split; [reflexivity|].
    rewrite map_size_insert_None by exact Hfree. lia.
  - destruct (chunkFd chunk =? invalidFileDescriptor) eqn:E;
      [apply Z.eqb_eq in E; unfold invalidFileDescriptor in E; lia|].
    destruct (0 <=? chunkFd chunk) eqn:E0; [|apply Z.leb_gt in E0; lia].
    cbn [andb negb] in Hroom.
    destruct (chunkFd chunk <? 0) eqn:E1; [apply Z.ltb_lt in E1; lia|].
    exists (chunkFd chunk), (set_errno 0 os), pos. rewrite set_chunkFd_same.
    split; [reflexivity|]. split; [exact Hrange|]. split; [exact Hlook|].
    split; [reflexivity|]. cbn [os_fds set_errno]. lia.
Qed.

(** Closing the chunk at the cursor of a FlexBuff recording leaves it
    without a descriptor, and room for one in the table. *)
Lemma flexbuff_close_chunk (os : os_state) (f : openfile_type) (chunk : filechunk_type) :
  flexbuff_ready os f -> fileChunks f !! chunkPtr f = Some chunk ->
  exists os',
    close_chunk chunk os = (set_chunkFd chunk invalidFileDescriptor, os')
    /\ os_files os' = os_files os
    /\ Z.of_nat (size (os_fds os')) + 1 <= INT_MAX.
Proof.
  intros [Hwf Hfp Hcur Hchunks Hroom] Hchunk.
  destruct (Hchunks _ _ Hchunk) as (Hpos & Hlen & Hfd).
  unfold descriptor_room in Hroom. rewrite Hchunk in Hroom.
  unfold close_chunk, owns_descriptor in *.
  destruct Hfd as [Hinv|(_ & Hrange & pos & Hlook)].
  - assert (Hsame : set_chunkFd chunk invalidFileDescriptor = chunk)
      by (rewrite <- Hinv; apply set_chunkFd_same).
    rewrite Hsame. rewrite Hinv in *. rewrite Z.eqb_refl in *. rewrite andb_false_r in *.
    exists os. split; [reflexivity|]. split; [reflexivity|exact Hroom].
  - destruct (chunkFd chunk =? invalidFileDescriptor) eqn:E;
      [apply Z.eqb_eq in E; unfold invalidFileDescriptor in E; lia|].
    destruct (0 <=? chunkFd chunk) eqn:E0; [|apply Z.leb_gt in E0; lia].
    cbn [andb negb] in *. rewrite (sys_close_open _ _ _ Hlook). cbn [fst].
    eexists. split; [reflexivity|]. cbn [os_files os_fds set_fds].
    split; [reflexivity|]. rewrite map_size_delete_Some by eauto.
    assert (0 < size (os_fds os))%nat; [|lia].
    destruct (size (os_fds os)) eqn:Hs; [|lia].
    apply map_size_empty_inv in Hs. rewrite Hs in Hlook. discriminate.
Qed.

(** A chunk without a descriptor is ready wherever the cursor is, as
    long as the files are the same. *)
Lemma flexbuff_chunk_ready_closed (os os' : os_state) (P Q : Prop) (c : filechunk_type) :
  os_files os' = os_files os ->
  flexbuff_chunk_ready os P c -> (P -> False) \/ chunkFd c = invalidFileDescriptor ->
  flexbuff_chunk_ready os' Q c.
Proof.
  intros Hfiles (Hpos & Hlen & Hfd) Hclosed. unfold flexbuff_chunk_ready.
  rewrite (file_data_files os os') by exact Hfiles.
  split; [exact Hpos|]. split; [exact Hlen|]. left.
  destruct Hfd as [Hinv|[HP _]]; [exact Hinv|].
  destruct Hclosed as [Hno|Hinv]; [contradiction|exact Hinv].
Qed.

(** The read loop on a FlexBuff recording. *)
Lemma flexbuff_read_loop (os0 : os_state) (fuel : nat) (s : read_state) :
  flexbuff_ready (rs_os s) (rs_of s) -> os_files (rs_os s) = os_files os0 ->
  0 <= rs_nr s <= OFF_MAX ->
  (read_steps_bound s <= fuel)%nat ->
  let bytes := contents_slice
                 (virtual_contents (flexbuff_payload os0) (fileChunks (rs_of s)))
                 (filePointer (rs_of s)) (rs_nr s) in
  exists s',
    read_loop fuel s = Some s'
    /\ (flexbuff_ready (rs_os s') (rs_of s') /\ os_files (rs_os s') = os_files os0)
    /\ rs_out s' = rs_out s ++ bytes
    /\ rs_nr s' = rs_nr s - Z.of_nat (length bytes)
    /\ filePointer (rs_of s') = filePointer (rs_of s) + Z.of_nat (length bytes)
    /\ fileSize (rs_of s') = fileSize (rs_of s)
    /\ map (flexbuff_payload os0) (fileChunks (rs_of s'))
       = map (flexbuff_payload os0) (fileChunks (rs_of s)).
Proof.
  intros Hready Hfiles Hnr Hfuel.
  apply (read_loop_reads (flexbuff_payload os0)
           (fun os f => flexbuff_ready os f /\ os_files os = os_files os0));
    [| | |split; assumption|assumption|assumption].
  - (* the open file *)
    intros os f [Hr Hd]. pose proof (flexbuff_ready_payload os0 os f Hr Hd) as Hp.
    destruct Hr as [Hwf Hfp Hcur _ _].
    split; [exact Hwf|]. split; [exact Hfp|]. split; [exact Hcur|exact Hp].
  - (* reading from the chunk at the cursor *)
    intros os f chunk [Hr Hd] Hchunk Hin.
    pose proof Hr as [Hwf Hfp Hcur Hchunks Hroom].
    destruct (Hchunks _ _ Hchunk) as (Hpos & Hlen & _).
    destruct (openfile_wf_chunk _ _ _ Hwf Hchunk) as (Hc1 & Hc2 & Hc3 & Hc4).
    destruct (flexbuff_open_chunk os f chunk Hr Hchunk (ltac:(lia)))
      as (realfd & os1 & pos & Hopen & Hrange & Hlook & Hfiles1 & Hsize1).
    exists (set_chunkFd chunk realfd), os1, realfd,
      (file_data os (pathToChunk chunk)), pos.
    split; [exact Hopen|]. split; [unfold invalidFileDescriptor; lia|].
    split; [exact Hlook|]. split; [lia|]. split; [lia|]. split; [lia|].
    split; [unfold flexbuff_payload; now rewrite (file_data_files os0 os)|].
    split; [reflexivity|].
    intros n pos' Hn. destruct (set_chunkFd_maps _ _ _ realfd Hchunk) as [Hms Hmo].
    pose proof (lookup_lt_Some _ _ _ Hchunk) as Hlt.
    split; [|cbn [os_files set_fds]; congruence].
    constructor; cbn [filePointer fileSize fileChunks chunkPtr].
    + eapply (openfile_wf_ext f); try eassumption; try reflexivity.
      cbn [chunkPtr fileChunks]. rewrite length_insert. lia.
    + lia.
    + unfold cursor_behind. cbn [filePointer fileSize fileChunks chunkPtr].
      rewrite list_lookup_insert_eq by exact Hlt. cbn. lia.
    + intros i c Hi. destruct (decide (i = chunkPtr f)) as [->|Hne].
      * rewrite list_lookup_insert_eq in Hi by exact Hlt. injection Hi as <-.
        unfold flexbuff_chunk_ready. cbn [chunkPos chunkSize chunkFd pathToChunk set_chunkFd].
        rewrite (file_data_files os) by (cbn [os_files set_fds]; exact Hfiles1).
        split; [exact Hpos|]. split; [exact Hlen|]. right.
        split; [reflexivity|]. split; [exact Hrange|].
        exists pos'. cbn [os_fds set_fds]. apply lookup_insert_eq.
      * rewrite list_lookup_insert_ne in Hi by congruence.
        apply (flexbuff_chunk_ready_closed os _ (i = chunkPtr f));
          [cbn [os_files set_fds]; exact Hfiles1|now apply Hchunks|now left].
    + unfold descriptor_room. cbn [filePointer fileSize fileChunks chunkPtr os_fds set_fds].
      rewrite list_lookup_insert_eq by exact Hlt.
      rewrite map_size_insert_Some by eauto.
      unfold owns_descriptor. cbn [chunkFd set_chunkFd].
      destruct (0 <=? realfd) eqn:E0; [|apply Z.leb_gt in E0; lia].
      destruct (realfd =? invalidFileDescriptor) eqn:E;
        [apply Z.eqb_eq in E; unfold invalidFileDescriptor in E; lia|].
      cbn [andb negb]. lia.
  - (* stepping over the chunk at the cursor *)
    intros os f chunk [Hr Hd] Hchunk Hpast.
    pose proof Hr as [Hwf Hfp Hcur Hchunks Hroom].
    destruct (flexbuff_close_chunk os f chunk Hr Hchunk) as (os' & Hclose & Hfiles' & Hsize').
    rewrite Hclose. cbn [fst snd]. split; [reflexivity|].
    destruct (set_chunkFd_maps _ _ _ invalidFileDescriptor Hchunk) as [Hms Hmo].
    pose proof (lookup_lt_Some _ _ _ Hchunk) as Hlt.
    split; [|congruence].
    constructor; cbn [filePointer fileSize fileChunks chunkPtr].
    + eapply (openfile_wf_ext f); try eassumption; try reflexivity.
      cbn [chunkPtr fileChunks]. rewrite length_insert. lia.
    + exact Hfp.
    + now apply (cursor_behind_next f chunk).
    + intros i c Hi. destruct (decide (i = chunkPtr f)) as [->|Hne].
      * rewrite list_lookup_insert_eq in Hi by exact Hlt. injection Hi as <-.
        destruct (Hchunks _ _ Hchunk) as (Hpos & Hlen & _).
        unfold flexbuff_chunk_ready. cbn [chunkPos chunkSize chunkFd pathToChunk set_chunkFd].
        rewrite (file_data_files os) by exact Hfiles'.
        split; [exact Hpos|]. split; [exact Hlen|]. now left.
      * rewrite list_lookup_insert_ne in Hi by congruence.
        apply (flexbuff_chunk_ready_closed os _ (i = chunkPtr f));
          [exact Hfiles'|now apply Hchunks|now left].
    + unfold descriptor_room. cbn [filePointer fileSize fileChunks chunkPtr].
      rewrite list_lookup_insert_ne by lia.
      destruct (fileChunks f !! S (chunkPtr f)) as [c'|] eqn:Hnext; [|exact Hsize'].
      destruct (Hchunks _ _ Hnext) as (_ & _ & [Hinv|[Habs _]]); [|lia].
      unfold owns_descriptor. rewrite Hinv, Z.eqb_refl, andb_false_r. exact Hsize'.
Qed.

(** A read of a FlexBuff recording, with what it leaves behind. *)
Lemma vbs_read_flexbuff_run (fuel : nat) (fd buf count : Z) (p : process)
    (f : openfile_type) :
  openedFiles p !! fd = Some f -> flexbuff_ready (proc_os p) f ->
  buf <> 0 -> 0 <= count <= OFF_MAX ->
  (2 * length (fileChunks f) + 1 <= fuel)%nat ->
  let contents := virtual_contents (flexbuff_payload (proc_os p)) (fileChunks f) in
  let bytes := contents_slice contents (filePointer f) count in
  exists p' f',
    vbs_read fuel fd buf count p
    = Some (p', mk_read_result (Z.of_nat (length bytes)) bytes)
    /\ openedFiles p' = <[fd := f']> (openedFiles p)
    /\ filePointer f' = filePointer f + Z.of_nat (length bytes)
    /\ fileSize f' = fileSize f
    /\ flexbuff_ready (proc_os p') f'
    /\ os_files (proc_os p') = os_files (proc_os p)
    /\ map (flexbuff_payload (proc_os p')) (fileChunks f')
       = map (flexbuff_payload (proc_os p)) (fileChunks f).
Proof.
  intros Hf Hready Hbuf Hcount Hfuel contents bytes.
  pose proof Hready as [Hwf Hfp Hcur Hchunks Hroom].
  pose proof (flexbuff_ready_payload (proc_os p) _ _ Hready eq_refl) as Hlen.
  unfold vbs_read. rewrite Hf.
  destruct (buf =? 0) eqn:Eb; [apply Z.eqb_eq in Eb; contradiction|].
  destruct (count =? 0) eqn:Ec.
  { apply Z.eqb_eq in Ec. exists p, f. unfold bytes, contents_slice. rewrite Ec.
    change (Z.to_nat 0) with 0%nat. rewrite take_0. cbn [length Z.of_nat].
    rewrite insert_id by exact Hf. rewrite Z.add_0_r. auto 10. }
  apply Z.eqb_neq in Ec.
  destruct (fileChunks f !! chunkPtr f) as [c|] eqn:Hc.
  2:{ exists p, f. unfold cursor_behind in Hcur. rewrite Hc in Hcur.
      unfold bytes, contents.
      rewrite (contents_slice_end (flexbuff_payload (proc_os p)) _ _ Hwf Hlen Hcur).
      cbn [length Z.of_nat]. rewrite insert_id by exact Hf. rewrite Z.add_0_r.
      auto 10. }
  set (s := mk_read_state (proc_os p) f count []).
  destruct (flexbuff_read_loop (proc_os p) fuel s Hready eq_refl Hcount)
    as (s' & Hrun & [Hr' Hd'] & Hout & Hnr & Hfp' & Hsz' & Hmap).
  { pose proof (read_steps_bound_max s). cbn [s rs_of] in *. lia. }
  cbv zeta in Hout, Hnr, Hfp'. cbn [s rs_of rs_nr rs_out app] in Hout, Hnr, Hfp', Hsz', Hmap.
  fold contents in Hout, Hnr, Hfp'. fold bytes in Hout, Hnr, Hfp'.
  rewrite Hrun. exists (mk_process (<[fd := rs_of s']> (openedFiles p)) (rs_os s')),
    (rs_of s').
  assert (Hb : 0 <= Z.of_nat (length bytes) <= count).
  { unfold bytes. rewrite contents_slice_length by lia. lia. }
  rewrite Hnr, Hout. replace (count - (count - Z.of_nat (length bytes)))
    with (Z.of_nat (length bytes)) by lia.
  rewrite to_off_t_id by (unfold off_t_range, OFF_MIN, OFF_MAX in *; lia).
  cbn [openedFiles proc_os].
  split; [reflexivity|]. split; [reflexivity|]. split; [exact Hfp'|].
  split; [exact Hsz'|]. split; [exact Hr'|]. split; [exact Hd'|].
  rewrite (flexbuff_payload_files _ _ _ Hd'). exact Hmap.
Qed.

(** X8: on a FlexBuff recording whose chunk files hold their bytes and
    whose chunks have no descriptor, the chunk at the cursor apart,
    [vbs_read] ends within two iterations per chunk and one more, stores
    in the buffer the [count] bytes of the recording that follow the
    position (fewer only when the recording ends before that), returns
    their number, advances the position by it, and leaves the recording
    as ready as it was. *)
Theorem vbs_read_flexbuff (fuel : nat) (fd buf count : Z) (p : process)
    (f : openfile_type) :
  openedFiles p !! fd = Some f -> flexbuff_ready (proc_os p) f ->
  buf <> 0 -> 0 <= count <= OFF_MAX ->
  (2 * length (fileChunks f) + 1 <= fuel)%nat ->
  exists p' f',
    vbs_read fuel fd buf count p
    = Some (p', mk_read_result
                  (Z.min count (Z.max 0 (fileSize f - filePointer f)))
                  (contents_slice
                     (virtual_contents (flexbuff_payload (proc_os p)) (fileChunks f))
                     (filePointer f) count))
    /\ openedFiles p' !! fd = Some f'
    /\ filePointer f' = filePointer f + Z.min count (Z.max 0 (fileSize f - filePointer f))
    /\ flexbuff_ready (proc_os p') f'.
Proof.
  intros Hf Hready Hbuf Hcount Hfuel.
  destruct (vbs_read_flexbuff_run fuel fd buf count p f Hf Hready Hbuf Hcount Hfuel)
    as (p' & f' & Hrun & Hfiles & Hfp' & _ & Hr' & _).
  cbv zeta in Hrun, Hfp'.
  pose proof Hready as [Hwf Hfp _ _ _].
  pose proof (flexbuff_ready_payload (proc_os p) _ _ Hready eq_refl) as Hlen.
  rewrite contents_slice_length in Hrun, Hfp' by lia.
  rewrite (contents_length _ _ Hlen), <- (wf_total _ Hwf) in Hrun, Hfp'.
  exists p', f'. split; [exact Hrun|]. split; [|split; assumption].
  rewrite Hfiles. apply lookup_insert_eq.
Qed.

(** X9: two reads of a FlexBuff recording, one after the other, store
    what one read of the sum of their counts stores, and leave the
    position where that read leaves it. *)
Theorem vbs_read_flexbuff_twice (fuel : nat) (fd buf n m : Z) (p : process)
    (f : openfile_type) :
  openedFiles p !! fd = Some f -> flexbuff_ready (proc_os p) f ->
  buf <> 0 -> 0 <= n -> 0 <= m -> n + m <= OFF_MAX ->
  (2 * length (fileChunks f) + 1 <= fuel)%nat ->
  exists p1 r1 p2 r2 p12 r12 f2 f12,
    vbs_read fuel fd buf n p = Some (p1, r1)
    /\ vbs_read fuel fd buf m p1 = Some (p2, r2)
    /\ vbs_read fuel fd buf (n + m) p = Some (p12, r12)
    /\ rr_data r12 = rr_data r1 ++ rr_data r2
    /\ rr_ret r12 = rr_ret r1 + rr_ret r2
    /\ openedFiles p2 !! fd = Some f2 /\ openedFiles p12 !! fd = Some f12
    /\ filePointer f2 = filePointer f12.
Proof.
  intros Hf Hready Hbuf Hn Hm Hnm Hfuel.
  pose proof Hready as [Hwf Hfp _ _ _].
  destruct (vbs_read_flexbuff_run fuel fd buf n p f Hf Hready Hbuf (ltac:(lia)) Hfuel)
    as (p1 & f1 & Hrun1 & Hfiles1 & Hfp1 & Hsz1 & Hr1 & Hd1 & Hc1).
  cbv zeta in Hrun1, Hfp1.
  assert (Hf1 : openedFiles p1 !! fd = Some f1)
    by (rewrite Hfiles1; apply lookup_insert_eq).
  assert (Hlen1 : length (fileChunks f1) = length (fileChunks f)).
  { apply (f_equal (@length _)) in Hc1. now rewrite !length_map in Hc1. }
  destruct (vbs_read_flexbuff_run fuel fd buf m p1 f1 Hf1 Hr1 Hbuf (ltac:(lia))
              (ltac:(lia)))
    as (p2 & f2 & Hrun2 & Hfiles2 & Hfp2 & _).
  cbv zeta in Hrun2, Hfp2.
  destruct (vbs_read_flexbuff_run fuel fd buf (n + m) p f Hf Hready Hbuf (ltac:(lia))
              Hfuel)
    as (p12 & f12 & Hrun12 & Hfiles12 & Hfp12 & _).
  cbv zeta in Hrun12, Hfp12.
  unfold virtual_contents in Hrun2, Hfp2. rewrite Hc1, Hfp1 in Hrun2, Hfp2.
  fold (virtual_contents (flexbuff_payload (proc_os p)) (fileChunks f)) in *.
  set (C := virtual_contents (flexbuff_payload (proc_os p)) (fileChunks f)) in *.
  rewrite contents_slice_after in Hrun2, Hfp2 by lia.
  assert (Hsplit : contents_slice C (filePointer f) (n + m)
                   = contents_slice C (filePointer f) n
                     ++ contents_slice C (filePointer f + n) m).
  { rewrite (contents_slice_split C _ (n + m) n) by lia.
    now replace (n + m - n) with m by lia. }
  eexists p1, _, p2, _, p12, _, f2, f12.
  split; [exact Hrun1|]. split; [exact Hrun2|]. split; [exact Hrun12|].
  cbn [rr_data rr_ret]. rewrite Hfiles2, Hfiles12, !lookup_insert_eq.
  rewrite Hfp2, Hfp12, Hsplit, length_app.
  split; [reflexivity|]. split; [lia|]. split; [reflexivity|].
  split; [reflexivity|]. lia.
Qed.

(* ================================================================== *)
(** ** From opening to reading *)
(* ================================================================== *)






(** What the constructor of the open file does to the chunks: a copy,
    and a logical offset. *)
Lemma assign_offsets_shape (acc : Z) (l : filechunks_type) :
  Forall2 (fun c c' => exists off, c' = set_chunkOffset c off) l (assign_offsets acc l).1.
Proof.
  revert acc. induction l as [|c r IH]; intros acc; cbn [assign_offsets];
    [constructor|].
  specialize (IH (to_off_t (acc + chunkSize c))).
  destruct (assign_offsets (to_off_t (acc + chunkSize c)) r) as [r' total].
  cbn [fst] in *. constructor; [eauto|exact IH].
Qed.



(* ================================================================== *)
(** ** Seeking in a recording that can be read *)
(* ================================================================== *)

(** Where a seek puts the cursor, the cursor is not ahead of the new
    position. *)
Lemma skip_chunks_behind (f : openfile_type) (t : Z) (chunks1 : filechunks_type) :
  openfile_wf f -> 0 <= t ->
  map chunkOffset chunks1 = map chunkOffset (fileChunks f) ->
  cursor_behind (mk_openfile t (fileSize f) chunks1 (skip_chunks t (fileChunks f) 0)).
Proof.
  intros [Hc Hs Ht Hm Hcur Hne] Htpos Hmap. unfold cursor_behind.
  cbn [filePointer fileSize fileChunks chunkPtr].
  assert (Hlook : forall i, chunkOffset <$> chunks1 !! i
                            = chunkOffset <$> fileChunks f !! i).
  { intros i. rewrite <- !list_lookup_fmap.
    change (map chunkOffset chunks1 !! i = map chunkOffset (fileChunks f) !! i).
    now rewrite Hmap. }
  destruct (skip_chunks_spec t (fileChunks f) 0 0 Hc Hs (ltac:(lia)) (ltac:(lia)) Htpos)
    as [(c & _ & Hi & Hin & _)|(Hlen & Hpast)].
  - rewrite Nat.sub_0_r in Hi. specialize (Hlook (skip_chunks t (fileChunks f) 0)).
    rewrite Hi in Hlook. destruct (chunks1 !! skip_chunks t (fileChunks f) 0) as [c1|];
      [|discriminate]. cbn in Hlook. injection Hlook as Hoff. lia.
  - destruct Hpast as [Hnil|Hpast]; [contradiction|].
    specialize (Hlook (skip_chunks t (fileChunks f) 0)). rewrite Hlen in *.
    rewrite (lookup_ge_None_2 (fileChunks f)) in Hlook by (cbn; lia).
    destruct (chunks1 !! (0 + length (fileChunks f))%nat); [discriminate|]. lia.
Qed.


(** A seek in a Mark6 recording, with what it leaves behind. *)
Lemma vbs_lseek_mk6_run (fd offset whence : Z) (p : process)
    (f : openfile_type) (t : Z) :
  openedFiles p !! fd = Some f -> mk6_ready (proc_os p) f ->
  seek_target f offset whence = Some t -> 0 <= t <= OFF_MAX ->
  exists p' f',
    vbs_lseek fd offset whence p = (p', t)
    /\ openedFiles p' = <[fd := f']> (openedFiles p)
    /\ filePointer f' = t
    /\ fileSize f' = fileSize f
    /\ mk6_ready (proc_os p') f'
    /\ proc_os p' = proc_os p
    /\ fileChunks f' = fileChunks f.
Proof.
  intros Hf Hready Ht Htpos. pose proof Hready as [Hwf Hfp Hcur Hchunks].
  unfold vbs_lseek. rewrite Hf, Ht.
  destruct (t <? 0) eqn:Eneg; [apply Z.ltb_lt in Eneg; lia|].
  destruct (t =? filePointer f) eqn:Esame.
  { apply Z.eqb_eq in Esame. exists p, f. rewrite insert_id by exact Hf.
    rewrite <- Esame. auto 10. }
  set (new := skip_chunks t (fileChunks f) 0).
  assert (Hsame : (match fileChunks f !! chunkPtr f with
                   | Some old =>
                       if negb (chunkPtr f =? new)%nat then
                         let '(old1, os') := close_chunk old (proc_os p) in
                         (<[chunkPtr f := old1]> (fileChunks f), os')
                       else (fileChunks f, proc_os p)
                   | None => (fileChunks f, proc_os p)
                   end) = (fileChunks f, proc_os p)).
  { destruct (fileChunks f !! chunkPtr f) as [old|] eqn:Hold; [|reflexivity].
    destruct (negb (chunkPtr f =? new)%nat); [|reflexivity].
    rewrite (close_chunk_not_owned old (proc_os p)).
    - now rewrite list_insert_id.
    - apply (mk6_chunk_ready_owns (proc_os p)), Hchunks.
      exact (list_elem_of_lookup_2 _ _ _ Hold). }
  rewrite Hsame.
  exists (mk_process (<[fd := mk_openfile t (fileSize f) (fileChunks f) new]>
                        (openedFiles p)) (proc_os p)),
    (mk_openfile t (fileSize f) (fileChunks f) new).
  cbn [openedFiles proc_os filePointer fileSize fileChunks].
  split; [reflexivity|]. split; [reflexivity|]. split; [reflexivity|].
  split; [reflexivity|]. split; [|split; reflexivity].
  constructor; cbn [filePointer fileSize fileChunks chunkPtr].
  - eapply (openfile_wf_ext f); try reflexivity; [|exact Hwf].
    cbn. pose proof (skip_chunks_bound t (fileChunks f) 0). unfold new. lia.
  - exact Htpos.
  - apply skip_chunks_behind; [exact Hwf|lia|reflexivity].
  - exact Hchunks.
Qed.


(** X12: in a Mark6 recording that can be read, a seek to a position
    within [off_t] followed by a read stores the bytes of the recording
    from that position on, wherever position and cursor were before. *)
Theorem vbs_lseek_read_mk6 (fuel : nat) (fd offset whence buf count : Z)
    (p : process) (f : openfile_type) (t : Z) :
  openedFiles p !! fd = Some f -> mk6_ready (proc_os p) f ->
  seek_position f offset whence = Some t -> 0 <= t <= OFF_MAX ->
  buf <> 0 -> 0 <= count <= OFF_MAX ->
  (2 * length (fileChunks f) + 1 <= fuel)%nat ->
  exists p1 p2,
    vbs_lseek fd offset whence p = (p1, t)
    /\ vbs_read fuel fd buf count p1
       = Some (p2, mk_read_result
                     (Z.min count (Z.max 0 (fileSize f - t)))
                     (contents_slice
                        (virtual_contents (mk6_payload (proc_os p)) (fileChunks f))
                        t count)).
Proof.
  intros Hf Hready Hseek Ht Hbuf Hcount Hfuel.
  assert (Htarget : seek_target f offset whence = Some t).
  { apply seek_target_position; [exact Hseek|].
    unfold off_t_range, OFF_MIN, OFF_MAX in *. lia. }
  destruct (vbs_lseek_mk6_run fd offset whence p f t Hf Hready Htarget Ht)
    as (p1 & f1 & Hrun1 & Hfiles1 & Hfp1 & Hsz1 & Hr1 & Hos1 & Hc1).
  assert (Hf1 : openedFiles p1 !! fd = Some f1)
    by (rewrite Hfiles1; apply lookup_insert_eq).
  destruct (vbs_read_mk6_run fuel fd buf count p1 f1 Hf1 Hr1 Hbuf Hcount
              (ltac:(rewrite Hc1; lia)))
    as (p2 & f2 & Hrun2 & _).
  cbv zeta in Hrun2. exists p1, p2. split; [exact Hrun1|].
  rewrite Hrun2, Hos1, Hc1, Hfp1.
  pose proof (mk6_ready_payload (proc_os p) _ _ Hready (fun k => eq_refl)) as Hlen.
  rewrite contents_slice_length by lia.
  now rewrite (contents_length _ _ Hlen), <- (wf_total _ (mr_wf _ _ Hready)).
Qed.

(* ================================================================== *)
(** ** The example recordings *)
(* ================================================================== *)

Lemma rec_A_opened_file : openedFiles rec_A_opened !! INT_MAX = Some rec_A_file.
Proof. vm_compute. reflexivity. Qed.

Lemma rec_A_read10_opened_file :
  openedFiles rec_A_read10 !! INT_MAX = Some rec_A_read10_file.
Proof. vm_compute. reflexivity. Qed.

Lemma rec_E_opened_file : openedFiles rec_E_opened !! INT_MAX = Some rec_E_file.
Proof. vm_compute. reflexivity. Qed.

Lemma rec_A_file_wf : openfile_wf rec_A_file.
Proof.
  constructor; cbn.
  - repeat split.
  - repeat (apply List.Forall_cons; [cbn; lia|]). apply List.Forall_nil.
  - reflexivity.
  - unfold OFF_MAX. lia.
  - lia.
  - discriminate.
Qed.

Lemma rec_A_ready : flexbuff_ready (proc_os rec_A_opened) rec_A_file.
Proof.
  constructor.
  - exact rec_A_file_wf.
  - cbn. unfold OFF_MAX. lia.
  - unfold cursor_behind. cbn. lia.
  - intros i c Hi.
    destruct i as [|[|i]]; cbn in Hi; [injection Hi as <-|injection Hi as <-|discriminate];
      (split; [reflexivity|split; [vm_compute; discriminate|left; reflexivity]]).
  - unfold descriptor_room. vm_compute. discriminate.
Qed.

Lemma rec_E_ready : mk6_ready (proc_os rec_E_opened) rec_E_file.
Proof.
  constructor.
  - constructor; cbn.
    + repeat split.
    + repeat (apply List.Forall_cons; [cbn; lia|]). apply List.Forall_nil.
    + reflexivity.
    + unfold OFF_MAX. lia.
    + lia.
    + discriminate.
  - cbn. unfold OFF_MAX. lia.
  - unfold cursor_behind. cbn. lia.
  - intros c Hc. cbn in Hc.
    apply elem_of_cons in Hc as [->|Hc]; [|apply elem_of_cons in Hc as [->|Hc]];
      [| |apply elem_of_nil in Hc; contradiction];
      (split; [cbn; unfold INT_MAX; lia|];
       split; [cbn; lia|];
       split; [cbn; lia|];
       split; [vm_compute; discriminate|];
       split; [cbn; unfold OFF_MAX; lia|];
       eexists; vm_compute; reflexivity).
Qed.

Lemma vbs_close_releases_witness :
  (vbs_close INT_MAX rec_A_read10).2 = 0
  /\ os_fds (proc_os rec_A_read10) !! 3 <> None
  /\ os_fds (proc_os (vbs_close INT_MAX rec_A_read10).1) !! 3 = None
  /\ os_fds (proc_os (vbs_close INT_MAX rec_A_read10).1) !! 2
     = os_fds (proc_os rec_A_read10) !! 2.
Proof.
  destruct (vbs_close_releases INT_MAX rec_A_read10 rec_A_read10_file
              rec_A_read10_opened_file) as (H1 & _ & _ & H4 & H5).
  split; [exact H1|]. split; [vm_compute; discriminate|]. split.
  - apply H4.
    exists (mk_filechunk "/mnt/disk0/rec_A/rec_A.00000000" 10 0 3 0 0).
    split; [left|left; split; reflexivity].
  - apply H5. intros (c & Hc & Hk). cbn in Hc.
    apply elem_of_cons in Hc as [->|Hc]; [|apply elem_of_cons in Hc as [->|Hc]];
      [| |apply elem_of_nil in Hc; contradiction];
      destruct Hk as [[Ho Hk]|[Hneg Hk]]; cbn in *; try discriminate; try lia.
Defined.

Lemma closed_handle_is_bad_witness :
  vbs_close 7 rec_A_opened = (with_errno rec_A_opened EBADF, -1)
  /\ vbs_lseek INT_MAX 0 SEEK_SET (vbs_close INT_MAX rec_A_opened).1
     = (with_errno (vbs_close INT_MAX rec_A_opened).1 EBADF, -1).
Proof.
  split.
  - apply (proj1 (closed_handle_is_bad 7 rec_A_opened)). vm_compute. reflexivity.
  - apply (proj2 (closed_handle_is_bad INT_MAX rec_A_opened) rec_A_file
             rec_A_opened_file).
Defined.

Lemma vbs_lseek_settles_witness :
  off_t_range 12
  /\ 0 <= (vbs_lseek INT_MAX 12 SEEK_SET rec_A_opened).2
  /\ vbs_lseek INT_MAX 0 SEEK_CUR (vbs_lseek INT_MAX 12 SEEK_SET rec_A_opened).1
     = ((vbs_lseek INT_MAX 12 SEEK_SET rec_A_opened).1,
        (vbs_lseek INT_MAX 12 SEEK_SET rec_A_opened).2).
Proof.
  assert (H1 : off_t_range 12) by (unfold off_t_range, OFF_MIN, OFF_MAX; lia).
  assert (H2 : 0 <= (vbs_lseek INT_MAX 12 SEEK_SET rec_A_opened).2)
    by (vm_compute; discriminate).
  split; [exact H1|]. split; [exact H2|].
  exact (proj1 (vbs_lseek_settles INT_MAX 12 SEEK_SET rec_A_opened H1 H2)).
Defined.

Lemma vbs_read_accounting_witness :
  exists p' r,
    vbs_read 5 INT_MAX 4096 12 rec_A_opened = Some (p', r)
    /\ 0 <= rr_ret r <= 12
    /\ rr_ret r = Z.of_nat (length (rr_data r))
    /\ os_files (proc_os p') = os_files (proc_os rec_A_opened).
Proof.
  destruct (vbs_read 5 INT_MAX 4096 12 rec_A_opened) as [[p' r]|] eqn:Hrun;
    [|vm_compute in Hrun; discriminate].
  exists p', r. split; [reflexivity|].
  destruct (vbs_read_accounting 5 INT_MAX 4096 12 rec_A_opened p' rec_A_file r
              rec_A_opened_file rec_A_file_wf)
    as (H1 & H2 & _ & _ & H5); try exact Hrun.
  - cbn. unfold OFF_MAX. lia.
  - discriminate.
  - unfold OFF_MAX. lia.
  - split; [exact H1|]. split; [exact H2|exact H5].
Defined.

Lemma vbs_read_mk6_witness :
  exists p' f',
    vbs_read 5 INT_MAX 4096 10 rec_E_opened
    = Some (p', mk_read_result 10 (list_byte_of_string "AAAAAAAABB"))
    /\ openedFiles p' !! INT_MAX = Some f'
    /\ filePointer f' = 10
    /\ mk6_ready (proc_os p') f'.
Proof.
  destruct (vbs_read_mk6 5 INT_MAX 4096 10 rec_E_opened rec_E_file
              rec_E_opened_file rec_E_ready)
    as (p' & f' & H1 & H2 & H3 & H4).
  - discriminate.
  - unfold OFF_MAX. lia.
  - cbn. lia.
  - exists p', f'. split; [|split; [exact H2|split; [exact H3|exact H4]]].
    rewrite H1. f_equal.
Defined.

Lemma vbs_read_mk6_twice_witness :
  exists p1 r1 p2 r2 p12 r12,
    vbs_read 5 INT_MAX 4096 3 rec_E_opened = Some (p1, r1)
    /\ vbs_read 5 INT_MAX 4096 7 p1 = Some (p2, r2)
    /\ vbs_read 5 INT_MAX 4096 10 rec_E_opened = Some (p12, r12)
    /\ rr_data r12 = rr_data r1 ++ rr_data r2.
Proof.
  destruct (vbs_read_mk6_twice 5 INT_MAX 4096 3 7 rec_E_opened rec_E_file
              rec_E_opened_file rec_E_ready)
    as (p1 & r1 & p2 & r2 & p12 & r12 & f2 & f12 & H1 & H2 & H3 & H4 & _).
  - discriminate.
  - lia.
  - lia.
  - unfold OFF_MAX. lia.
  - cbn. lia.
  - exists p1, r1, p2, r2, p12, r12. auto.
Defined.

Lemma vbs_read_flexbuff_witness :
  exists p' f',
    vbs_read 5 INT_MAX 4096 12 rec_A_opened
    = Some (p', mk_read_result 12 (list_byte_of_string "ABCDEFGHIJKL"))
    /\ openedFiles p' !! INT_MAX = Some f'
    /\ filePointer f' = 12
    /\ flexbuff_ready (proc_os p') f'.
Proof.
  destruct (vbs_read_flexbuff 5 INT_MAX 4096 12 rec_A_opened rec_A_file
              rec_A_opened_file rec_A_ready)
    as (p' & f' & H1 & H2 & H3 & H4).
  - discriminate.
  - unfold OFF_MAX. lia.
  - cbn. lia.
  - exists p', f'. split; [|split; [exact H2|split; [exact H3|exact H4]]].
    rewrite H1. f_equal.
Defined.

Lemma vbs_read_flexbuff_twice_witness :
  exists p1 r1 p2 r2 p12 r12,
    vbs_read 5 INT_MAX 4096 3 rec_A_opened = Some (p1, r1)
    /\ vbs_read 5 INT_MAX 4096 9 p1 = Some (p2, r2)
    /\ vbs_read 5 INT_MAX 4096 12 rec_A_opened = Some (p12, r12)
    /\ rr_data r12 = rr_data r1 ++ rr_data r2.
Proof.
  destruct (vbs_read_flexbuff_twice 5 INT_MAX 4096 3 9 rec_A_opened rec_A_file
              rec_A_opened_file rec_A_ready)
    as (p1 & r1 & p2 & r2 & p12 & r12 & f2 & f12 & H1 & H2 & H3 & H4 & _).
  - discriminate.
  - lia.
  - lia.
  - unfold OFF_MAX. lia.
  - cbn. lia.
  - exists p1, r1, p2, r2, p12, r12. auto.
Defined.



Lemma vbs_lseek_read_mk6_witness :
  exists p1 p2,
    vbs_lseek INT_MAX (-6) SEEK_END rec_E_opened = (p1, 6)
    /\ vbs_read 5 INT_MAX 4096 4 p1
       = Some (p2, mk_read_result 4 (list_byte_of_string "AABB")).
Proof.
  destruct (vbs_lseek_read_mk6 5 INT_MAX (-6) SEEK_END 4096 4 rec_E_opened
              rec_E_file 6 rec_E_opened_file rec_E_ready)
    as (p1 & p2 & H1 & H2).
  - reflexivity.
  - unfold OFF_MAX. lia.
  - discriminate.
  - unfold OFF_MAX. lia.
  - cbn. lia.
  - exists p1, p2. split; [exact H1|]. rewrite H2. f_equal.
Defined.

(* ================================================================== *)
(** ** The order of the chunks of an open file *)
(* ================================================================== *)

Lemma install_chunks_file (chunks : filechunks_type) (p p' : process) (h : Z)
    (f : openfile_type) :
  install_chunks chunks p = (p', Ret h) ->
  openedFiles p !! h = None -> openedFiles p' !! h = Some f ->
  f = openfile_ctor chunks /\ chunks <> [] /\ proc_os p' = proc_os p.
Proof.
  intros Hinst Hfree Hf.
  destruct (install_chunks_result _ _ _ _ Hinst) as [(_ & _ & Hsame)|(Hne & _ & Hmap)];
    [congruence|].
  unfold map_insert_new in Hmap. rewrite Hfree in Hmap.
  rewrite Hmap, lookup_insert_eq in Hf. injection Hf as <-.
  split; [reflexivity|]. split; [exact Hne|].
  unfold install_chunks in Hinst. destruct chunks; [congruence|].
  now injection Hinst as <- _.
Qed.

Lemma openfile_ctor_numbers (fcs : filechunks_type) :
  map chunkNumber (fileChunks (openfile_ctor fcs)) = map chunkNumber fcs
  /\ filePointer (openfile_ctor fcs) = 0 /\ chunkPtr (openfile_ctor fcs) = 0%nat.
Proof.
  unfold openfile_ctor.
  pose proof (assign_offsets_shape 0 (map copy_filechunk fcs)) as Hshape.
  destruct (assign_offsets 0 (map copy_filechunk fcs)) as [chunks total].
  cbn [fst fileChunks filePointer chunkPtr] in *. split; [|split; reflexivity].
  apply Forall2_fmap_l in Hshape.
  induction Hshape as [|c c' l l' [off ->] _ IH]; [reflexivity|].
  cbn. now f_equal.
Qed.

Lemma insert_directory_chunks_sorted (dir : string) (names : list string) :
  forall rv os rv',
    chunks_sorted rv ->
    (insert_directory_chunks dir names rv os).2 = Ret rv' -> chunks_sorted rv'.
Proof.
  induction names as [|n rest IH]; intros rv os rv' Hrv Hret;
    cbn [insert_directory_chunks] in Hret.
  - cbn in Hret. now injection Hret as <-.
  - destruct (flexbuff_filechunk (dir +:+ "/" +:+ n) os) as [os1 [tmp|e]];
      [|discriminate].
    pose proof (set_insert_sorted tmp rv Hrv) as Hs.
    destruct (set_insert tmp rv) as [rv1 fresh]. destruct fresh; [|discriminate].
    exact (IH rv1 _ rv' Hs Hret).
Qed.

Lemma scanRecording_sorted (recname : string) (mountpoints : direntries_type) :
  forall fcs os fcs',
    chunks_sorted fcs ->
    (scanRecording recname mountpoints fcs os).2 = Ret fcs' -> chunks_sorted fcs'.
Proof.
  induction mountpoints as [|mp rest IH]; intros fcs os fcs' Hfcs Hret;
    cbn [scanRecording] in Hret.
  - cbn in Hret. now injection Hret as <-.
  - assert (Hmp : forall fcs1, (scanRecordingMountpoint recname mp fcs os).2 = Ret fcs1 ->
                    chunks_sorted fcs1).
    { unfold scanRecordingMountpoint, sys_lstat.
      destruct (os_files os !! (mp +:+ "/" +:+ recname)) as [[d|entries]|] eqn:Hdir;
        cbn [fst snd]; try (now intros fcs1 [= <-]).
      unfold scanRecordingDirectory, sys_opendir. rewrite Hdir.
      intros fcs1. now apply insert_directory_chunks_sorted. }
    destruct (scanRecordingMountpoint recname mp fcs os) as [os1 [fcs1|e]];
      cbn [fst snd] in *; [|discriminate].
    exact (IH fcs1 os1 fcs' (Hmp fcs1 eq_refl) Hret).
Qed.

(** X13: the open file that [vbs_open] puts under a handle that was not
    in use has at least one chunk, its chunks in the order of their
    chunk numbers with no number twice, whatever the order of the
    mountpoints and of the directory entries, and position and cursor at
    the start. *)
Theorem vbs_open_sorted (recname : option string) (rootdirs : option (list string))
    (p p' : process) (h : Z) (f : openfile_type) :
  vbs_open recname rootdirs p = (p', Ret h) ->
  openedFiles p !! h = None -> openedFiles p' !! h = Some f ->
  chunks_sorted (fileChunks f) /\ NoDup (map chunkNumber (fileChunks f))
  /\ fileChunks f <> [] /\ filePointer f = 0 /\ chunkPtr f = 0%nat.
Proof.
  intros Hopen Hfree Hf. unfold vbs_open in Hopen.
  destruct recname as [[|a n]|];
    [injection Hopen as <- _; cbn in Hf; congruence|
    |injection Hopen as <- _; cbn in Hf; congruence].
  destruct rootdirs as [dirs|];
    [|injection Hopen as <- _; cbn in Hf; congruence].
  pose proof (scanRecording_sorted (String a n) (direntries_of_list dirs) []
                (proc_os p)) as Hsorted.
  destruct (scanRecording (String a n) (direntries_of_list dirs) [] (proc_os p))
    as [os1 [chunks|e]]; cbn [fst snd] in *;
    [|destruct e; discriminate].
  specialize (Hsorted chunks I eq_refl).
  destruct (install_chunks_file _ _ _ _ _ Hopen Hfree Hf) as (-> & Hne & _).
  destruct (openfile_ctor_numbers chunks) as (Hnum & Hfp & Hptr).
  assert (Hs : chunks_sorted (fileChunks (openfile_ctor chunks)))
    by (eapply chunks_sorted_ext; [symmetry; exact Hnum|exact Hsorted]).
  split; [exact Hs|]. split; [now apply chunks_sorted_NoDup|].
  split; [|split; assumption].
  intros Hnil. apply (f_equal (@length _)) in Hnum. rewrite Hnil, !length_map in Hnum.
  destruct chunks; [congruence|discriminate].
Qed.

Lemma scanMk6_loop_sorted (fmt : mk6_format) (fd : Z) (fuel : nat) :
  forall fpos rv os os' rv',
    chunks_sorted rv ->
    scanMk6_loop fmt fuel fd fpos rv os = Some (os', Ret rv') -> chunks_sorted rv'.
Proof.
  induction fuel as [|k IH]; intros fpos rv os os' rv' Hrv Hrun; [discriminate|].
  cbn [scanMk6_loop] in Hrun.
  destruct (sys_read fd (wbh_size fmt) os) as [[os1 n] wbh].
  destruct (negb (n =? wbh_size fmt)); [now injection Hrun as _ <-|].
  destruct (negb _); [discriminate|]. cbv zeta in Hrun.
  match type of Hrun with
  | context [set_insert ?tmp rv] =>
      pose proof (set_insert_sorted tmp rv Hrv) as Hs;
      destruct (set_insert tmp rv) as [rv1 fresh]
  end.
  destruct fresh; cbn [negb] in Hrun; [|discriminate].
  destruct (sys_lseek fd _ SEEK_SET _) as [os3 r].
  destruct (r =? -1); [now injection Hrun as _ <-|].
  exact (IH _ rv1 os3 os' rv' Hs Hrun).
Qed.

Lemma scanMk6RecordingFile_sorted (fmt : mk6_format) (fuel : nat) (file : string)
    (rv : filechunks_type) (os os' : os_state) (rv' : filechunks_type) :
  chunks_sorted rv ->
  scanMk6RecordingFile fmt fuel file rv os = Some (os', Ret rv') -> chunks_sorted rv'.
Proof.
  intros Hrv Hrun. unfold scanMk6RecordingFile in Hrun.
  destruct (sys_open file os) as [os1 fd].
  destruct (fd <? 0); [discriminate|].
  destruct (sys_read fd (fh_size fmt) os1) as [[os2 n] fh6].
  destruct (negb (n =? fh_size fmt)); [now injection Hrun as _ <-|].
  destruct (negb (fh_sync_word fmt fh6 =? MARK6_SG_SYNC_WORD fmt));
    [now injection Hrun as _ <-|].
  destruct (negb (fh_version fmt fh6 =? 2)); [now injection Hrun as _ <-|].
  exact (scanMk6_loop_sorted fmt fd fuel _ rv os2 os' rv' Hrv Hrun).
Qed.

Lemma scanMk6Recording_sorted (fmt : mk6_format) (fuel : nat) (recname : string)
    (mountpoints : direntries_type) :
  forall fcs os os' fcs',
    chunks_sorted fcs ->
    scanMk6Recording fmt fuel recname mountpoints fcs os = Some (os', Ret fcs') ->
    chunks_sorted fcs'.
Proof.
  induction mountpoints as [|mp rest IH]; intros fcs os os' fcs' Hfcs Hrun;
    cbn [scanMk6Recording] in Hrun.
  - now injection Hrun as _ <-.
  - assert (Hmp : forall os1 fcs1 log,
               scanMk6RecordingMountpoint_thrd fmt fuel recname mp fcs os
               = Some (os1, Ret (fcs1, log)) -> chunks_sorted fcs1).
    { unfold scanMk6RecordingMountpoint_thrd, sys_lstat. intros os1 fcs1 log.
      destruct (os_files os !! (mp +:+ "/" +:+ recname)) as [[d|entries]|];
        try (now intros [= _ <- _]).
      destruct (scanMk6RecordingFile fmt fuel (mp +:+ "/" +:+ recname) [] os)
        as [[os2 [lcl|e]]|] eqn:Hfile; try discriminate.
      intros [= _ Hmerge].
      pose proof (scanMk6RecordingFile_sorted _ _ _ [] _ _ _ I Hfile) as Hlcl.
      destruct (merge_chunks_spec lcl fcs Hfcs (chunks_sorted_NoDup _ Hlcl)) as [Hs _].
      now rewrite Hmerge in Hs. }
    destruct (scanMk6RecordingMountpoint_thrd fmt fuel recname mp fcs os)
      as [[os1 [[fcs1 log]|e]]|]; try discriminate.
    exact (IH fcs1 os1 os' fcs' (Hmp os1 fcs1 log eq_refl) Hrun).
Qed.

(** X14: the open file that [mk6_open] puts under a handle that was not
    in use has at least one chunk, its chunks in the order of their
    block numbers with no number twice, whatever files the blocks come
    from, and position and cursor at the start. *)
Theorem mk6_open_sorted (fmt : mk6_format) (fuel : nat) (recname : option string)
    (rootdirs : option (list string)) (p p' : process) (h : Z) (f : openfile_type) :
  mk6_open fmt fuel recname rootdirs p = Some (p', Ret h) ->
  openedFiles p !! h = None -> openedFiles p' !! h = Some f ->
  chunks_sorted (fileChunks f) /\ NoDup (map chunkNumber (fileChunks f))
  /\ fileChunks f <> [] /\ filePointer f = 0 /\ chunkPtr f = 0%nat.
Proof.
  intros Hopen Hfree Hf. unfold mk6_open in Hopen.
  destruct recname as [[|a n]|];
    [injection Hopen as <- _; cbn in Hf; congruence|
    |injection Hopen as <- _; cbn in Hf; congruence].
  destruct rootdirs as [dirs|];
    [|injection Hopen as <- _; cbn in Hf; congruence].
  destruct (scanMk6Recording fmt fuel (String a n) (direntries_of_list dirs) []
              (proc_os p)) as [[os1 [chunks|e]]|] eqn:Hscan; try discriminate.
  pose proof (scanMk6Recording_sorted _ _ _ _ [] _ _ _ I Hscan) as Hsorted.
  injection Hopen as Hopen.
  destruct (install_chunks_file _ _ _ _ _ Hopen Hfree Hf) as (-> & Hne & _).
  destruct (openfile_ctor_numbers chunks) as (Hnum & Hfp & Hptr).
  assert (Hs : chunks_sorted (fileChunks (openfile_ctor chunks)))
    by (eapply chunks_sorted_ext; [symmetry; exact Hnum|exact Hsorted]).
  split; [exact Hs|]. split; [now apply chunks_sorted_NoDup|].
  split; [|split; assumption].
  intros Hnil. apply (f_equal (@length _)) in Hnum. rewrite Hnil, !length_map in Hnum.
  destruct chunks; [congruence|discriminate].
Qed.

(* ================================================================== *)
(** ** Files that are not Mark6 files *)
(* ================================================================== *)

(** X15: a file that is too short for a Mark6 file header, or whose
    header has another sync word or another version than 2, adds no
    chunk to the set; it is opened and closed again, so that the
    descriptors and the files are as before. *)
Theorem scanMk6RecordingFile_not_mark6 (fmt : mk6_format) (fuel : nat)
    (file : string) (rv : filechunks_type) (os : os_state) (data : list byte) :
  os_files os !! file = Some (RegularFile data) ->
  Z.of_nat (length data) < fh_size fmt
  \/ fh_sync_word fmt (take (Z.to_nat (fh_size fmt)) data) <> MARK6_SG_SYNC_WORD fmt
  \/ fh_version fmt (take (Z.to_nat (fh_size fmt)) data) <> 2 ->
  exists os',
    scanMk6RecordingFile fmt fuel file rv os = Some (os', Ret rv)
    /\ os_fds os' = os_fds os /\ os_files os' = os_files os.
Proof.
  intros Hfile Hnot. unfold scanMk6RecordingFile, sys_open. rewrite Hfile.
  pose proof (fresh_fd_nonneg (os_fds os)) as [Hnn _].
  pose proof (fresh_fd_free (os_fds os)) as Hfree.
  set (fd := fresh_fd (os_fds os)) in *.
  destruct (fd <? 0) eqn:E; [apply Z.ltb_lt in E; lia|].
  set (os1 := set_fds _ os).
  assert (Hfd1 : os_fds os1 !! fd = Some (mk_open_fd (RegularFile data) 0))
    by apply lookup_insert_eq.
  rewrite (sys_read_regular fd (fh_size fmt) os1 data 0 Hfd1). cbv zeta.
  change (Z.to_nat 0) with 0%nat. rewrite drop_0.
  set (os2 := set_fds _ os1).
  assert (Hclosed : os_fds (sys_close fd os2).1 = os_fds os
                    /\ os_files (sys_close fd os2).1 = os_files os).
  { destruct (sys_close_fds fd os2) as [H1 H2]. rewrite H1, H2. subst os2 os1.
    cbn [os_fds os_files set_fds]. split; [|reflexivity].
    rewrite !delete_insert_eq. now apply delete_id. }
  destruct (negb (_ =? fh_size fmt)) eqn:E1; [eauto|].
  destruct (negb (_ =? MARK6_SG_SYNC_WORD fmt)) eqn:E2; [eauto|].
  destruct (negb (_ =? 2)) eqn:E3; [eauto|].
  exfalso. apply negb_false_iff, Z.eqb_eq in E1, E2, E3.
  rewrite length_take in E1. destruct Hnot as [H|[H|H]]; [lia|contradiction..].
Qed.

(* ================================================================== *)
(** ** The label of a scan *)
(* ================================================================== *)

Lemma string_app_assoc (a b c : string) : (a +:+ b) +:+ c = a +:+ (b +:+ c).
Proof.
  induction a as [|x a IH]; [reflexivity|].
  change (String x ((a +:+ b) +:+ c) = String x (a +:+ (b +:+ c))). now f_equal.
Qed.

(** X16: the label [in2disk] records a scan under is never empty: it is
    the fields that are not empty, in the order experiment, station,
    scan, source, with an underscore between them, and ["+"] when all
    four are empty. *)
Theorem scanlabel_joins (scan experiment station source : string) :
  scanlabel scan experiment station source
  = match List.filter (fun s => negb (string_empty s))
            [experiment; station; scan; source] with
    | [] => "+"%string
    | parts => String.concat "_" parts
    end
  /\ scanlabel scan experiment station source <> ""%string.
Proof.
  unfold scanlabel.
  destruct experiment as [|e1 e]; destruct station as [|t1 t];
    destruct scan as [|s1 s]; destruct source as [|r1 r];
    cbn; repeat (rewrite string_app_assoc; cbn);
    (split; [reflexivity|discriminate]).
Qed.

(* ================================================================== *)
(** ** The number of a FlexBuff chunk *)
(* ================================================================== *)

Lemma is_digit_value (c : ascii) :
  is_digit c = true -> 0 <= Z.of_nat (nat_of_ascii c) - 48 <= 9.
Proof.
  unfold is_digit. intros H. apply andb_true_iff in H as [H1 H2].
  apply Nat.leb_le in H1, H2. lia.
Qed.

Lemma decimal_value_bound (s : string) :
  string_forallb is_digit s = true ->
  0 <= decimal_value s < 10 ^ Z.of_nat (String.length s).
Proof.
  induction s as [|c r IH]; cbn [string_forallb decimal_value String.length];
    [intros _; cbn; lia|].
  intros H. apply andb_true_iff in H as [Hc Hr].
  pose proof (is_digit_value c Hc). specialize (IH Hr).
  rewrite Nat2Z.inj_succ, Z.pow_succ_r by lia. nia.
Qed.

(** [strtoul] on a string of digits, as long as the number fits an
    [unsigned long]. *)
Lemma strtoul10_value (s : string) :
  forall acc,
    string_forallb is_digit s = true -> 0 <= acc ->
    acc * 10 ^ Z.of_nat (String.length s) + decimal_value s <= ULONG_MAX ->
    strtoul10 acc s = acc * 10 ^ Z.of_nat (String.length s) + decimal_value s.
Proof.
  induction s as [|c r IH]; intros acc Hd Hacc Hfit;
    cbn [string_forallb decimal_value String.length strtoul10] in *;
    [cbn; lia|].
  apply andb_true_iff in Hd as [Hc Hr]. rewrite Hc.
  pose proof (is_digit_value c Hc) as Hv.
  pose proof (decimal_value_bound r Hr) as Hb.
  rewrite Nat2Z.inj_succ, Z.pow_succ_r in * by lia.
  set (d := Z.of_nat (nat_of_ascii c) - 48) in *.
  set (n := 10 ^ Z.of_nat (String.length r)) in *.
  assert (Hn : 1 <= n) by (unfold n; apply (Z.pow_le_mono_r 10 0); lia).
  assert (Hstep : acc * 10 + d <= ULONG_MAX) by nia.
  rewrite Z.min_r by exact Hstep.
  rewrite IH; [fold n; lia|exact Hr|lia|fold n; lia].
Qed.

Lemma find_last_of_suffix (c : ascii) (suffix : string) :
  forall i, string_forallb (fun d => negb (Ascii.eqb d c)) suffix = true ->
            find_last_of c suffix i = None.
Proof.
  induction suffix as [|d r IH]; intros i H; cbn [find_last_of string_forallb] in *;
    [reflexivity|].
  apply andb_true_iff in H as [Hd Hr]. rewrite (IH _ Hr).
  now apply negb_true_iff in Hd as ->.
Qed.

Lemma find_last_of_last (c : ascii) (prefix suffix : string) :
  forall i, string_forallb (fun d => negb (Ascii.eqb d c)) suffix = true ->
            find_last_of c (prefix +:+ String c suffix) i
            = Some (i + String.length prefix)%nat.
Proof.
  induction prefix as [|d r IH]; intros i H.
  - change (""%string +:+ String c suffix) with (String c suffix).
    cbn [find_last_of String.length].
    rewrite (find_last_of_suffix c suffix _ H), Ascii.eqb_refl. f_equal. lia.
  - change (String d r +:+ String c suffix) with (String d (r +:+ String c suffix)).
    cbn [find_last_of String.length]. rewrite (IH _ H). f_equal. lia.
Qed.

Lemma substr_from_suffix (prefix suffix : string) :
  substr_from (String.length prefix) (prefix +:+ suffix) = suffix.
Proof.
  induction prefix as [|d r IH]; [now destruct suffix|].
  change (String d r +:+ suffix) with (String d (r +:+ suffix)). exact IH.
Qed.

Lemma digits_no_dot (s : string) :
  string_forallb is_digit s = true ->
  string_forallb (fun d => negb (Ascii.eqb d ".")) s = true.
Proof.
  induction s as [|c r IH]; cbn [string_forallb]; [reflexivity|].
  intros H. apply andb_true_iff in H as [Hc Hr]. rewrite (IH Hr), andb_true_r.
  apply negb_true_iff, Ascii.eqb_neq. intros ->. discriminate.
Qed.

(** X17: the constructor of a FlexBuff chunk takes the chunk number from
    the name of the file: when the name ends in a dot and at most nine
    decimal digits (a chunk of a recording has eight), the number is
    what the digits say, the leading zeroes dropped; the path is kept and
    the chunk has no descriptor. *)
Theorem flexbuff_filechunk_number (prefix digits : string) (os : os_state)
    (node : inode) :
  os_files os !! (prefix +:+ String "." digits) = Some node ->
  string_forallb is_digit digits = true ->
  (String.length digits <= 9)%nat ->
  exists c,
    (flexbuff_filechunk (prefix +:+ String "." digits) os).2 = Ret c
    /\ chunkNumber c = decimal_value digits
    /\ pathToChunk c = prefix +:+ String "." digits
    /\ chunkFd c = invalidFileDescriptor.
Proof.
  intros Hnode Hdigits Hlen.
  destruct (flexbuff_filechunk_frame (prefix +:+ String "." digits) os) as (_ & _ & Hret).
  unfold flexbuff_filechunk in *.
  rewrite (find_last_of_last "." prefix digits 0 (digits_no_dot _ Hdigits)) in *.
  unfold sys_open in *. rewrite Hnode in *.
  pose proof (fresh_fd_nonneg (os_fds os)) as [Hnn _].
  destruct (fresh_fd (os_fds os) <? 0) eqn:E; [apply Z.ltb_lt in E; lia|].
  destruct (sys_lseek _ 0 SEEK_END _) as [os2 sz].
  destruct (sys_close _ os2) as [os3 r]. cbn [fst snd] in *.
  eexists. split; [reflexivity|]. cbn [chunkNumber pathToChunk chunkFd].
  split; [|split; reflexivity].
  replace (S (0 + String.length prefix))
    with (String.length (prefix +:+ ".")).
  2:{ clear. induction prefix as [|d r IH]; [reflexivity|].
      change (String d r +:+ ".") with (String d (r +:+ ".")).
      cbn [String.length]. rewrite IH. reflexivity. }
  replace (prefix +:+ String "." digits) with ((prefix +:+ ".") +:+ digits)
    by (now rewrite string_app_assoc).
  rewrite substr_from_suffix.
  pose proof (decimal_value_bound digits Hdigits) as Hb.
  assert (Hpow : 10 ^ Z.of_nat (String.length digits) <= 10 ^ 9)
    by (apply Z.pow_le_mono_r; lia).
  rewrite strtoul10_value; [| exact Hdigits | lia | unfold ULONG_MAX; lia].
  rewrite Z.mul_0_l, Z.add_0_l. apply to_uint_id.
  change (10 ^ 9) with 1000000000 in Hpow. unfold INT_MAX. lia.
Qed.

(* ================================================================== *)
(** ** A recording that is not there *)
(* ================================================================== *)

Lemma direntries_insert_elem (e x : string) (s : direntries_type) :
  x ∈ direntries_insert e s -> x = e \/ x ∈ s.
Proof.
  induction s as [|y r IH]; cbn [direntries_insert].
  - intros H. apply list_elem_of_singleton in H. now left.
  - destruct (String.ltb e y).
    + intros H. apply elem_of_cons in H as [->|H]; [now left|now right].
    + destruct (String.ltb y e); [|now right].
      intros H. apply elem_of_cons in H as [->|H]; [right; left|].
      destruct (IH H) as [->|Hr]; [now left|right; now right].
Qed.

Lemma direntries_of_list_elem (l : list string) (x : string) :
  x ∈ direntries_of_list l -> x ∈ l.
Proof.
  unfold direntries_of_list.
  assert (G : forall acc, x ∈ fold_left (fun s e => direntries_insert e s) l acc ->
                          x ∈ acc \/ x ∈ l).
  { induction l as [|e r IH]; intros acc H; cbn [fold_left] in H; [now left|].
    destruct (IH _ H) as [Hacc|Hr]; [|right; now right].
    destruct (direntries_insert_elem _ _ _ Hacc) as [->|Hin]; [right; left|now left]. }
  intros H. destruct (G [] H) as [Hnil|Hl]; [|exact Hl].
  apply elem_of_nil in Hnil. contradiction.
Qed.

Lemma filter_none {A : Type} (pred : A -> bool) (l : list A) :
  Forall (fun x => pred x = false) l -> List.filter pred l = [].
Proof.
  induction 1 as [|x r Hx _ IH]; [reflexivity|]. cbn. now rewrite Hx.
Qed.

(** X18: when no mountpoint has a directory of the name of the recording
    with an entry that is a chunk of it, [vbs_open] returns -1 with
    [errno] set to [ENOENT]; the table of open files, the descriptors
    and the files stay as they are. *)
Theorem vbs_open_not_found (recname : string) (rootdirs : list string) (p : process) :
  recname <> ""%string ->
  (forall mp entries,
      mp ∈ rootdirs ->
      os_files (proc_os p) !! (mp +:+ "/" +:+ recname) = Some (Directory entries) ->
      Forall (fun e => isRecordingChunk recname e = false) entries) ->
  exists p',
    vbs_open (Some recname) (Some rootdirs) p = (p', Ret (-1))
    /\ openedFiles p' = openedFiles p
    /\ os_errno (proc_os p') = ENOENT
    /\ os_fds (proc_os p') = os_fds (proc_os p)
    /\ os_files (proc_os p') = os_files (proc_os p).
Proof.
  intros Hname Hnone.
  assert (Hscan : forall mps os,
             (forall mp, mp ∈ mps -> mp ∈ rootdirs) ->
             os_files os = os_files (proc_os p) ->
             (scanRecording recname mps [] os).2 = Ret []).
  { induction mps as [|mp rest IH]; intros os Hsub Hfiles; [reflexivity|].
    cbn [scanRecording].
    assert (Hmp : (scanRecordingMountpoint recname mp [] os).2 = Ret []
                  /\ os_files (scanRecordingMountpoint recname mp [] os).1
                     = os_files (proc_os p)).
    { unfold scanRecordingMountpoint, sys_lstat.
      destruct (os_files os !! (mp +:+ "/" +:+ recname)) as [[d|entries]|] eqn:Hdir;
        cbn [fst snd]; try (split; [reflexivity|exact Hfiles]).
      unfold scanRecordingDirectory, sys_opendir. rewrite Hdir.
      rewrite Hfiles in Hdir. unfold dir_filter.
      rewrite (filter_none _ _ (Hnone mp entries (Hsub mp (ltac:(left))) Hdir)).
      split; [reflexivity|exact Hfiles]. }
    destruct (scanRecordingMountpoint recname mp [] os) as [os1 [fcs1|e]];
      cbn [fst snd] in *; destruct Hmp as [Hret Hfiles1]; [|discriminate].
    injection Hret as ->. apply IH; [|exact Hfiles1].
    intros mp' Hin. apply Hsub. now right. }
  pose proof (Hscan (direntries_of_list rootdirs) (proc_os p)
                (fun mp => direntries_of_list_elem rootdirs mp) eq_refl) as Hempty.
  pose proof (scanRecording_frame recname (direntries_of_list rootdirs) [] (proc_os p))
    as [Hfds Hfiles].
  unfold vbs_open. destruct recname as [|a n]; [congruence|].
  destruct (scanRecording (String a n) (direntries_of_list rootdirs) [] (proc_os p))
    as [os1 [chunks|e]]; cbn [fst snd] in *; [|discriminate].
  injection Hempty as ->. cbn [install_chunks].
  eexists. split; [reflexivity|]. cbn. auto.
Qed.

Lemma vbs_open_sorted_witness :
  vbs_open (Some "rec_A"%string) (Some ["/mnt/disk0"%string]) flexbuff_process
  = (rec_A_opened, Ret INT_MAX)
  /\ chunks_sorted (fileChunks rec_A_file)
  /\ map chunkNumber (fileChunks rec_A_file) = [0; 5].
Proof.
  assert (Hopen : vbs_open (Some "rec_A"%string) (Some ["/mnt/disk0"%string])
                    flexbuff_process = (rec_A_opened, Ret INT_MAX))
    by (vm_compute; reflexivity).
  split; [exact Hopen|]. split; [|reflexivity].
  exact (proj1 (vbs_open_sorted _ _ _ _ _ _ Hopen eq_refl rec_A_opened_file)).
Defined.

Lemma mk6_open_sorted_witness :
  mk6_open mk6_layout 8 (Some "rec_E"%string) (Some ["/mnt/disk0"%string]) mk6_process
  = Some (rec_E_opened, Ret INT_MAX)
  /\ chunks_sorted (fileChunks rec_E_file)
  /\ fileChunks rec_E_file <> [].
Proof.
  assert (Hopen : mk6_open mk6_layout 8 (Some "rec_E"%string)
                    (Some ["/mnt/disk0"%string]) mk6_process
                  = Some (rec_E_opened, Ret INT_MAX))
    by (vm_compute; reflexivity).
  split; [exact Hopen|].
  destruct (mk6_open_sorted _ _ _ _ _ _ _ _ Hopen eq_refl rec_E_opened_file)
    as (H1 & _ & H3 & _).
  split; [exact H1|exact H3].
Defined.

Lemma scanMk6RecordingFile_not_mark6_witness :
  exists os',
    scanMk6RecordingFile mk6_layout 8 "/mnt/disk0/rec_A/notes" []
      (proc_os flexbuff_process) = Some (os', Ret [])
    /\ os_fds os' = os_fds (proc_os flexbuff_process)
    /\ os_files os' = os_files (proc_os flexbuff_process).
Proof.
  apply (scanMk6RecordingFile_not_mark6 mk6_layout 8 "/mnt/disk0/rec_A/notes" []
           (proc_os flexbuff_process) (list_byte_of_string "x")).
  - vm_compute. reflexivity.
  - left. cbn. lia.
Defined.

Lemma flexbuff_filechunk_number_witness :
  exists c,
    (flexbuff_filechunk "/mnt/disk0/rec_A/rec_A.00000005" (proc_os flexbuff_process)).2
    = Ret c
    /\ chunkNumber c = 5.
Proof.
  destruct (flexbuff_filechunk_number "/mnt/disk0/rec_A/rec_A" "00000005"
              (proc_os flexbuff_process) (RegularFile (list_byte_of_string "KLMNO")))
    as (c & H1 & H2 & _).
  - vm_compute. reflexivity.
  - reflexivity.
  - cbn. lia.
  - exists c. split; [exact H1|exact H2].
Defined.

Lemma vbs_open_not_found_witness :
  exists p',
    vbs_open (Some "rec_A"%string) (Some ["/mnt/disk2"%string]) flexbuff_process
    = (p', Ret (-1))
    /\ openedFiles p' = openedFiles flexbuff_process
    /\ os_errno (proc_os p') = ENOENT.
Proof.
  destruct (vbs_open_not_found "rec_A" ["/mnt/disk2"%string] flexbuff_process)
    as (p' & H1 & H2 & H3 & _).
  - discriminate.
  - intros mp entries Hmp Hdir. apply list_elem_of_singleton in Hmp. subst mp.
    vm_compute in Hdir. discriminate.
  - exists p'. split; [exact H1|]. split; [exact H2|exact H3].
Defined.

(* ================================================================== *)
(** ** From opening a Mark6 recording to reading it *)
(* ================================================================== *)

Lemma mk6_chunk_ready_frame (os os' : os_state) (c : filechunk_type) :
  mk6_chunk_ready os c ->
  os_fds os' !! (- chunkFd c) = os_fds os !! (- chunkFd c) ->
  mk6_chunk_ready os' c.
Proof.
  intros (H1 & H2 & H0 & H3 & H4 & pos & H5) Hsame. unfold mk6_chunk_ready, fd_data in *.
  rewrite Hsame. eauto 10.
Qed.

Lemma mk6_chunk_ready_copy (os : os_state) (c : filechunk_type) :
  mk6_chunk_ready os c -> copy_filechunk c = c.
Proof.
  intros (H1 & _). unfold copy_filechunk.
  destruct (chunkFd c <? 0) eqn:E; [apply set_chunkFd_same|apply Z.ltb_ge in E; lia].
Qed.

Lemma mk6_filechunk_not_owned (chunk fpos sz fd : Z) (os : os_state) :
  0 < fd <= INT_MAX -> filechunk_dtor (mk6_filechunk chunk fpos sz fd) os = os.
Proof.
  intros Hfd. unfold filechunk_dtor, owns_descriptor, mk6_filechunk. cbn [chunkFd].
  rewrite to_int_id by (unfold int_range, INT_MIN, INT_MAX in *; lia).
  destruct (0 <=? - fd) eqn:E; [apply Z.leb_le in E; lia|reflexivity].
Qed.

(** A scan that returns leaves its descriptor open on the file, and the
    other descriptors and the files as they were. *)
Lemma scanMk6_loop_keeps (fmt : mk6_format) (fd : Z) (node : inode) (fuel : nat) :
  0 < fd <= INT_MAX ->
  forall fpos rv os os' rv' pos,
    os_fds os !! fd = Some (mk_open_fd node pos) ->
    scanMk6_loop fmt fuel fd fpos rv os = Some (os', Ret rv') ->
    (exists pos', os_fds os' !! fd = Some (mk_open_fd node pos'))
    /\ (forall k, k <> fd -> os_fds os' !! k = os_fds os !! k)
    /\ os_files os' = os_files os.
Proof.
  intros Hfd. induction fuel as [|n IH]; intros fpos rv os os' rv' pos Hopen Hrun;
    [discriminate|].
  cbn [scanMk6_loop] in Hrun.
  pose proof (sys_read_fds fd (wbh_size fmt) os) as [Hf1 Hd1].
  destruct (sys_read fd (wbh_size fmt) os) as [[os1 nread] wbh]. cbn [fst snd] in *.
  assert (H1 : (exists pos1, os_fds os1 !! fd = Some (mk_open_fd node pos1))
               /\ forall k, k <> fd -> os_fds os1 !! k = os_fds os !! k).
  { destruct Hd1 as [->|(o & q & Ho & ->)]; [eauto|].
    rewrite Hopen in Ho. injection Ho as <-. cbn [fd_node]. split.
    - exists q. apply lookup_insert_eq.
    - intros k Hk. now apply lookup_insert_ne. }
  destruct H1 as [[pos1 Hopen1] Hother1].
  destruct (negb (nread =? wbh_size fmt));
    [injection Hrun as <- _; split; [eauto|]; split; assumption|].
  destruct (negb _); [discriminate|]. cbv zeta in Hrun.
  rewrite mk6_filechunk_not_owned in Hrun by exact Hfd.
  destruct (set_insert _ rv) as [rv1 fresh]. destruct fresh; cbn [negb] in Hrun;
    [|discriminate].
  match type of Hrun with
  | context [sys_lseek fd ?o SEEK_SET os1] =>
      pose proof (sys_lseek_fds fd o SEEK_SET os1) as [Hf3 Hd3];
      destruct (sys_lseek fd o SEEK_SET os1) as [os3 r]
  end.
  cbn [fst snd] in *.
  assert (H3 : (exists pos3, os_fds os3 !! fd = Some (mk_open_fd node pos3))
               /\ forall k, k <> fd -> os_fds os3 !! k = os_fds os !! k).
  { destruct Hd3 as [->|(o & q & Ho & ->)]; [eauto|].
    rewrite Hopen1 in Ho. injection Ho as <-. cbn [fd_node]. split.
    - exists q. apply lookup_insert_eq.
    - intros k Hk. rewrite lookup_insert_ne by congruence. now apply Hother1. }
  destruct H3 as [[pos3 Hopen3] Hother3].
  destruct (r =? -1).
  - injection Hrun as <- _. split; [eauto|]. split; [assumption|congruence].
  - destruct (IH _ _ _ _ _ _ Hopen3 Hrun) as (Hk & Ho & Hfl).
    split; [exact Hk|]. split; [|congruence].
    intros k Hne. rewrite (Ho k Hne). now apply Hother3.
Qed.

Lemma scan_blocks_chunks (fmt : mk6_format) (fd : Z) (blocks : list mk6_block) :
  0 < fd ->
  forall rv chunks c,
    scan_blocks fmt fd blocks rv = Ret chunks -> c ∈ chunks ->
    c ∈ rv \/ exists b, b ∈ blocks /\ c = block_chunk fmt fd b.
Proof.
  intros Hfd. induction blocks as [|b rest IH]; intros rv chunks c Hscan Hc;
    cbn [scan_blocks] in Hscan.
  - injection Hscan as <-. now left.
  - destruct (block_ok b); [|discriminate].
    pose proof (set_insert_accepted (block_chunk fmt fd b) rv) as Hacc.
    destruct (set_insert (block_chunk fmt fd b) rv) as [rv1 fresh].
    destruct fresh; [|discriminate]. cbn [fst snd] in Hacc.
    specialize (Hacc eq_refl). rewrite block_chunk_copy in Hacc by exact Hfd.
    destruct (IH rv1 chunks c Hscan Hc) as [Hin|(b' & Hb' & ->)].
    + rewrite Hacc in Hin. apply elem_of_cons in Hin as [->|Hin]; [|now left].
      right. exists b. split; [left|reflexivity].
    + right. exists b'. split; [now right|reflexivity].
Qed.

Lemma merge_chunks_elem (lcl : filechunks_type) :
  forall shared c,
    c ∈ (merge_chunks lcl shared).1 ->
    c ∈ shared \/ exists x, x ∈ lcl /\ c = copy_filechunk x.
Proof.
  induction lcl as [|x rest IH]; intros shared c Hc; cbn [merge_chunks] in Hc;
    [now left|].
  pose proof (set_insert_accepted x shared) as Hacc.
  pose proof (set_insert_refused x shared) as Href.
  destruct (set_insert x shared) as [shared1 fresh]. cbn [fst snd] in *.
  specialize (IH shared1 c).
  destruct (merge_chunks rest shared1) as [shared2 log]. cbn [fst] in *.
  destruct (IH Hc) as [Hin|(y & Hy & ->)].
  - destruct fresh.
    + rewrite (Hacc eq_refl) in Hin. apply elem_of_cons in Hin as [->|Hin];
        [|now left]. right. exists x. split; [left|reflexivity].
    + rewrite (Href eq_refl) in Hin. now left.
  - right. exists y. split; [now right|reflexivity].
Qed.

(** The blocks of a walk do not start before the walk does, as long as
    no block has a negative length. *)
Lemma block_walk_from (fmt : mk6_format) (data : list byte) (fuel : nat) :
  forall start,
    Forall (fun b => 0 <= blk_wb_size b) (block_walk fmt fuel data start) ->
    Forall (fun b => start <= blk_position b) (block_walk fmt fuel data start).
Proof.
  induction fuel as [|n IH]; intros start Hlen; cbn [block_walk] in *; [constructor|].
  destruct (_ <? wbh_size fmt); [constructor|].
  apply Forall_cons in Hlen as [Hb Hrest]. cbn [blk_wb_size] in Hb.
  constructor; [cbn; lia|].
  eapply Forall_impl; [exact (IH _ Hrest)|]. intros b Hpos. cbn beta in *. lia.
Qed.

(** The scan of the one file of a mountpoint that can be read as a
    Mark6 file: either nothing is added and the descriptor is closed
    again, or the chunks that are added can be read through the
    descriptor, which stays open on the file. *)
Lemma scanMk6RecordingFile_found (fmt : mk6_format) (fuel : nat) (file : string)
    (os os' : os_state) (data : list byte) (lcl : filechunks_type) :
  mk6_format_wf fmt ->
  os_files os !! file = Some (RegularFile data) ->
  0 < fresh_fd (os_fds os) < INT_MAX ->
  mk6_file_complete fmt fuel data ->
  scanMk6RecordingFile fmt fuel file [] os = Some (os', Ret lcl) ->
  os_files os' = os_files os
  /\ (forall k, k <> fresh_fd (os_fds os) -> os_fds os' !! k = os_fds os !! k)
  /\ ((lcl = [] /\ os_fds os' = os_fds os)
      \/ ((exists o, os_fds os' = <[fresh_fd (os_fds os) := o]> (os_fds os))
          /\ Forall (mk6_chunk_ready os') lcl)).
Proof.
  intros Hfmt Hfile Hfd (Hdata & Hfuel & Hcomplete) Hrun.
  pose proof Hfmt as [Hfh Hwb _ _].
  pose proof (fresh_fd_free (os_fds os)) as Hfree.
  pose proof Hrun as Hrun0.
  unfold scanMk6RecordingFile, sys_open in Hrun. rewrite Hfile in Hrun.
  set (fd := fresh_fd (os_fds os)) in *.
  destruct (fd <? 0) eqn:E; [discriminate|].
  set (os1 := set_fds _ os) in Hrun.
  assert (Hfd1 : os_fds os1 !! fd = Some (mk_open_fd (RegularFile data) 0))
    by apply lookup_insert_eq.
  rewrite (sys_read_regular fd (fh_size fmt) os1 data 0 Hfd1) in Hrun.
  cbv zeta in Hrun. change (Z.to_nat 0) with 0%nat in Hrun. rewrite drop_0 in Hrun.
  set (os2 := set_fds _ os1) in Hrun.
  assert (Hclosed : os_fds (sys_close fd os2).1 = os_fds os
                    /\ os_files (sys_close fd os2).1 = os_files os).
  { destruct (sys_close_fds fd os2) as [H1 H2]. rewrite H1, H2. subst os2 os1.
    cbn [os_fds os_files set_fds]. split; [|reflexivity].
    rewrite !delete_insert_eq. now apply delete_id. }
  assert (Hnot : forall os'', Some ((sys_close fd os2).1, Ret ([] : filechunks_type))
                              = Some (os'', Ret lcl) ->
                   os'' = os' -> 
                   os_files os' = os_files os
                   /\ (forall k, k <> fd -> os_fds os' !! k = os_fds os !! k)
                   /\ ((lcl = [] /\ os_fds os' = os_fds os)
                       \/ ((exists o, os_fds os' = <[fd := o]> (os_fds os))
                           /\ Forall (mk6_chunk_ready os') lcl))).
  { intros os'' [= <- <-] <-. destruct Hclosed as [H1 H2].
    split; [exact H2|]. split; [intros k _; now rewrite H1|]. left. now split. }
  destruct (negb (_ =? fh_size fmt)) eqn:E1; [exact (Hnot os' Hrun eq_refl)|].
  destruct (negb (_ =? MARK6_SG_SYNC_WORD fmt)) eqn:E2; [exact (Hnot os' Hrun eq_refl)|].
  destruct (negb (_ =? 2)) eqn:E3; [exact (Hnot os' Hrun eq_refl)|].
  clear Hnot. apply negb_false_iff, Z.eqb_eq in E1, E2, E3.
  assert (Hheader : fh_size fmt <= Z.of_nat (length data))
    by (rewrite length_take in E1; lia).
  assert (Hfd2 : os_fds os2 !! fd
                 = Some (mk_open_fd (RegularFile data)
                           (0 + Z.of_nat (length (take (Z.to_nat (fh_size fmt)) data)))))
    by apply lookup_insert_eq.
  destruct (scanMk6_loop_keeps fmt fd (RegularFile data) fuel (ltac:(lia))
              _ _ _ _ _ _ Hfd2 Hrun) as ([pos' Hkept] & Hother & Hfiles).
  assert (Hother' : forall k, k <> fd -> os_fds os' !! k = os_fds os !! k).
  { intros k Hk. rewrite (Hother k Hk). subst os2 os1. cbn [os_fds set_fds].
    now rewrite !lookup_insert_ne by congruence. }
  split; [exact Hfiles|]. split; [exact Hother'|]. right. split.
  { exists (mk_open_fd (RegularFile data) pos'). apply map_eq. intros k.
    destruct (decide (k = fd)) as [->|Hne].
    - now rewrite lookup_insert_eq.
    - rewrite lookup_insert_ne by congruence. now apply Hother'. }
  destruct (scanMk6RecordingFile_walk fmt Hfmt file os data fuel Hfile (ltac:(fold fd; lia))
              Hdata Hheader E2 E3 Hfuel []) as (os'' & Hwalk & _).
  rewrite Hrun0 in Hwalk. injection Hwalk as _ Hscan. fold fd in Hscan.
  specialize (Hcomplete Hheader E2 E3).
  assert (Hfrom : Forall (fun b => fh_size fmt <= blk_position b)
                    (block_walk fmt fuel data (fh_size fmt))).
  { apply block_walk_from. eapply Forall_impl; [exact Hcomplete|].
    intros b [Hb _]. cbn beta. lia. }
  rewrite Forall_forall in Hcomplete, Hfrom. apply Forall_forall. intros c Hc.
  destruct (scan_blocks_chunks fmt fd _ (ltac:(lia)) [] lcl c (eq_sym Hscan) Hc)
    as [Hnil|(b & Hb & ->)]; [apply elem_of_nil in Hnil; contradiction|].
  destruct (Hcomplete b Hb) as [Hsz Hend]. specialize (Hfrom b Hb).
  unfold mk6_chunk_ready, block_chunk, fd_data.
  cbn [chunkFd chunkPos chunkSize]. rewrite Z.opp_involutive, Hkept.
  unfold MAX_FILE_LENGTH, OFF_MAX in *.
  split; [lia|]. split; [lia|]. split; [lia|]. split; [lia|]. split; [lia|]. eauto.
Qed.

Lemma direntries_insert_length (e : string) (s : direntries_type) :
  (length (direntries_insert e s) <= S (length s))%nat.
Proof.
  induction s as [|y r IH]; cbn [direntries_insert length]; [lia|].
  destruct (String.ltb e y); [cbn; lia|].
  destruct (String.ltb y e); cbn; lia.
Qed.

Lemma direntries_of_list_length (l : list string) :
  (length (direntries_of_list l) <= length l)%nat.
Proof.
  unfold direntries_of_list.
  assert (G : forall acc,
             (length (fold_left (fun s e => direntries_insert e s) l acc)
              <= length acc + length l)%nat).
  { induction l as [|e r IH]; intros acc; cbn [fold_left length]; [lia|].
    specialize (IH (direntries_insert e acc)).
    pose proof (direntries_insert_length e acc). lia. }
  exact (G []).
Qed.

(** The scan of the mountpoints keeps what has been found readable. *)
Lemma scanMk6Recording_ready (fmt : mk6_format) (fuel : nat) (recname : string)
    (files : gmap string inode) (mountpoints : direntries_type) :
  mk6_format_wf fmt ->
  forall fcs os os' fcs',
    (forall mp data,
        mp ∈ mountpoints ->
        files !! (mp +:+ "/" +:+ recname) = Some (RegularFile data) ->
        mk6_file_complete fmt fuel data) ->
    os_files os = files ->
    is_Some (os_fds os !! 0) ->
    Z.of_nat (size (os_fds os)) + Z.of_nat (length mountpoints) < INT_MAX ->
    Forall (mk6_chunk_ready os) fcs ->
    scanMk6Recording fmt fuel recname mountpoints fcs os = Some (os', Ret fcs') ->
    Forall (mk6_chunk_ready os') fcs' /\ os_files os' = files.
Proof.
  intros Hfmt. induction mountpoints as [|mp rest IH];
    intros fcs os os' fcs' Hcomplete Hfiles Hzero Hsize Hready Hrun;
    cbn [scanMk6Recording] in Hrun.
  - injection Hrun as <- <-. now split.
  - assert (Hstep : forall os1 fcs1 log,
               scanMk6RecordingMountpoint_thrd fmt fuel recname mp fcs os
               = Some (os1, Ret (fcs1, log)) ->
               os_files os1 = files /\ is_Some (os_fds os1 !! 0)
               /\ Z.of_nat (size (os_fds os1)) + Z.of_nat (length rest) < INT_MAX
               /\ Forall (mk6_chunk_ready os1) fcs1).
    { intros os1 fcs1 log. unfold scanMk6RecordingMountpoint_thrd, sys_lstat.
      cbn [length] in Hsize.
      destruct (os_files os !! (mp +:+ "/" +:+ recname)) as [[data|entries]|] eqn:Hnode.
      - (* a file *)
        destruct (scanMk6RecordingFile fmt fuel (mp +:+ "/" +:+ recname) [] os)
          as [[os2 [lcl|e]]|] eqn:Hfile; try discriminate.
        intros [= <- Hmerge].
        pose proof (fresh_fd_nonneg (os_fds os)) as Hfresh.
        pose proof (fresh_fd_free (os_fds os)) as Hfree.
        assert (Hfd : 0 < fresh_fd (os_fds os) < INT_MAX).
        { split; [|lia].
          destruct (decide (fresh_fd (os_fds os) = 0)) as [E|E]; [|lia].
          rewrite E in Hfree. destruct Hzero as [o Ho]. congruence. }
        rewrite <- Hfiles in Hcomplete.
        destruct (scanMk6RecordingFile_found fmt fuel _ os os2 data lcl Hfmt Hnode Hfd
                    (Hcomplete mp data (ltac:(left)) Hnode) Hfile)
          as (Hfiles2 & Hother & Hcases).
        assert (Hold : forall c, mk6_chunk_ready os c -> mk6_chunk_ready os2 c).
        { intros c Hc. apply (mk6_chunk_ready_frame os); [exact Hc|].
          apply Hother. destruct Hc as (_ & _ & _ & _ & _ & pos & Hlook). congruence. }
        split; [congruence|]. split; [rewrite Hother by lia; exact Hzero|].
        split.
        + destruct Hcases as [[_ ->]|[[o ->] _]]; [lia|].
          rewrite map_size_insert_None by exact Hfree. lia.
        + apply Forall_forall. intros c Hc.
          assert (Hc' : c ∈ (merge_chunks lcl fcs).1) by now rewrite Hmerge.
          rewrite Forall_forall in Hready.
          destruct (merge_chunks_elem lcl fcs c Hc') as [Hin|(x & Hx & ->)].
          * apply Hold, Hready, Hin.
          * destruct Hcases as [[-> _]|[_ Hnew]];
              [apply elem_of_nil in Hx; contradiction|].
            rewrite Forall_forall in Hnew.
            rewrite (mk6_chunk_ready_copy os2 x (Hnew x Hx)). now apply Hnew.
      - (* a directory *)
        intros [= <- <- _]. split; [exact Hfiles|]. split; [exact Hzero|].
        split; [lia|exact Hready].
      - (* nothing *)
        intros [= <- <- _]. cbn [os_files os_fds set_errno].
        split; [exact Hfiles|]. split; [exact Hzero|]. split; [lia|].
        eapply Forall_impl; [exact Hready|]. intros c Hc.
        now apply (mk6_chunk_ready_frame os). }
    destruct (scanMk6RecordingMountpoint_thrd fmt fuel recname mp fcs os)
      as [[os1 [[fcs1 log]|e]]|]; try discriminate.
    destruct (Hstep os1 fcs1 log eq_refl) as (H1 & H2 & H3 & H4).
    apply (IH fcs1 os1 os' fcs'); try assumption.
    intros mp' data Hin. apply Hcomplete. now right.
Qed.

Lemma openfile_ctor_sizes (fcs : filechunks_type) :
  map chunkSize (fileChunks (openfile_ctor fcs)) = map chunkSize fcs
  /\ Forall2 (fun c c' => exists off, c' = set_chunkOffset (copy_filechunk c) off)
             fcs (fileChunks (openfile_ctor fcs)).
Proof.
  unfold openfile_ctor.
  pose proof (assign_offsets_shape 0 (map copy_filechunk fcs)) as Hshape.
  destruct (assign_offsets 0 (map copy_filechunk fcs)) as [chunks total].
  cbn [fst fileChunks] in *. apply Forall2_fmap_l in Hshape. split; [|exact Hshape].
  induction Hshape as [|c c' l l' [off ->] _ IH]; [reflexivity|].
  cbn. now f_equal.
Qed.

(** X19: the open file that [mk6_open] puts under a handle that was not
    in use is ready to be read from position 0: every chunk refers to a
    descriptor that is open on the file the block was found in, and lies
    within that file.  It is asked that the files of the name of the
    recording on the mountpoints can be read as Mark6 files (not too long
    for the scan, no block running past the end of its file), that the
    sizes of the chunks add up within [off_t], that descriptor 0 is in
    use and that the descriptor table has room for one descriptor for
    every mountpoint. *)
Theorem mk6_open_ready (fmt : mk6_format) (fuel : nat) (recname : string)
    (rootdirs : list string) (p p' : process) (h : Z) (f : openfile_type) :
  mk6_format_wf fmt ->
  mk6_open fmt fuel (Some recname) (Some rootdirs) p = Some (p', Ret h) ->
  openedFiles p !! h = None -> openedFiles p' !! h = Some f ->
  (forall mp data,
      mp ∈ rootdirs ->
      os_files (proc_os p) !! (mp +:+ "/" +:+ recname) = Some (RegularFile data) ->
      mk6_file_complete fmt fuel data) ->
  is_Some (os_fds (proc_os p) !! 0) ->
  Z.of_nat (size (os_fds (proc_os p))) + Z.of_nat (length rootdirs) < INT_MAX ->
  sums_in_range 0 (fileChunks f) ->
  mk6_ready (proc_os p') f /\ filePointer f = 0 /\ chunkPtr f = 0%nat.
Proof.
  intros Hfmt Hopen Hfree Hf Hcomplete Hzero Hsize Hsums. unfold mk6_open in Hopen.
  destruct recname as [|a n]; [injection Hopen as <- _; cbn in Hf; congruence|].
  destruct (scanMk6Recording fmt fuel (String a n) (direntries_of_list rootdirs) []
              (proc_os p)) as [[os1 [chunks|e]]|] eqn:Hscan; try discriminate.
  injection Hopen as Hopen.
  destruct (scanMk6Recording_ready fmt fuel (String a n) (os_files (proc_os p))
              (direntries_of_list rootdirs) Hfmt [] (proc_os p) os1 chunks)
    as [Hready Hfiles]; try assumption; try reflexivity.
  { intros mp data Hin. apply Hcomplete. now apply direntries_of_list_elem. }
  { pose proof (direntries_of_list_length rootdirs). lia. }
  { constructor. }
  destruct (install_chunks_file _ _ _ _ _ Hopen Hfree Hf) as (-> & Hne & Hos).
  cbn [proc_os with_os] in Hos.
  destruct (openfile_ctor_sizes chunks) as [Hsizes Hshape].
  destruct (openfile_ctor_numbers chunks) as (_ & Hfp & Hptr).
  assert (Hready' : Forall (mk6_chunk_ready os1) (fileChunks (openfile_ctor chunks))).
  { clear - Hready Hshape.
    induction Hshape as [|c c' l l' [off ->] _ IH]; [constructor|].
    apply Forall_cons in Hready as [Hc Hl]. constructor; [|now apply IH].
    rewrite (mk6_chunk_ready_copy os1 c Hc). exact Hc. }
  assert (Hnn : Forall (fun c => 0 <= chunkSize c) chunks).
  { eapply Forall_impl; [exact Hready|]. now intros c (_ & _ & Hc & _). }
  assert (Hwf : openfile_wf (openfile_ctor chunks)).
  { apply openfile_ctor_wf; [exact Hne| |exact Hnn].
    eapply sums_in_range_ext; [exact Hsizes|exact Hsums]. }
  split; [|split; assumption]. rewrite Hos. constructor.
  - exact Hwf.
  - rewrite Hfp. unfold OFF_MAX. lia.
  - unfold cursor_behind. rewrite Hptr, Hfp.
    pose proof (wf_contiguous _ Hwf) as Hc. pose proof (wf_nonempty _ Hwf) as Hn.
    destruct (fileChunks (openfile_ctor chunks)) as [|c r]; [congruence|].
    cbn in *. lia.
  - now apply Forall_forall.
Qed.

Lemma mk6_open_ready_witness :
  mk6_open mk6_layout 100 (Some "rec_E"%string) (Some ["/mnt/disk0"%string]) mk6_process
  = Some (rec_E_opened, Ret INT_MAX)
  /\ mk6_ready (proc_os rec_E_opened) rec_E_file.
Proof.
  assert (Hopen : mk6_open mk6_layout 100 (Some "rec_E"%string)
                    (Some ["/mnt/disk0"%string]) mk6_process
                  = Some (rec_E_opened, Ret INT_MAX))
    by (vm_compute; reflexivity).
  split; [exact Hopen|].
  apply (mk6_open_ready mk6_layout 100 "rec_E" ["/mnt/disk0"%string] mk6_process
           rec_E_opened INT_MAX rec_E_file mk6_layout_wf Hopen).
  - reflexivity.
  - exact rec_E_opened_file.
  - intros mp data Hmp Hnode. apply list_elem_of_singleton in Hmp. subst mp.
    assert (Hdata : data = mk6_file_header_bytes ++ mk6_block_bytes 0 16 "AAAAAAAA"
                           ++ mk6_block_bytes 1 12 "BBBB").
    { vm_compute in Hnode. injection Hnode as <-. vm_compute. reflexivity. }
    subst data. split; [vm_compute; discriminate|]. split; [vm_compute; lia|].
    intros _ _ _.
    assert (Hwalk : block_walk mk6_layout 100
                      (mk6_file_header_bytes ++ mk6_block_bytes 0 16 "AAAAAAAA"
                       ++ mk6_block_bytes 1 12 "BBBB") (fh_size mk6_layout)
                    = [mk_mk6_block 20 0 16; mk_mk6_block 36 1 12])
      by (vm_compute; reflexivity).
    rewrite Hwalk.
    repeat (apply List.Forall_cons; [vm_compute; split; discriminate|]).
    apply List.Forall_nil.
  - vm_compute. eauto.
  - vm_compute. reflexivity.
  - cbn. unfold off_t_range, OFF_MIN, OFF_MAX. lia.
Defined.

(* ================================================================== *)
(** ** A Mark6 file without blocks *)
(* ================================================================== *)

(** X20: when the only file of a recording is a Mark6 file in which no
    complete block header follows the file header, [mk6_open] finds no
    chunk and returns -1 with [errno] set to [ENOENT]; the table of open
    files is as before, and the descriptor that was opened on the file
    is still open: the scan of a file with a good header does not close
    it, and no open file holds it. *)
Theorem mk6_open_header_only (fmt : mk6_format) (fuel : nat) (recname mp : string)
    (p : process) (data : list byte) :
  mk6_format_wf fmt -> recname <> ""%string ->
  os_files (proc_os p) !! (mp +:+ "/" +:+ recname) = Some (RegularFile data) ->
  0 < fresh_fd (os_fds (proc_os p)) <= INT_MAX ->
  Z.of_nat (length data) <= MAX_FILE_LENGTH -> (length data < fuel)%nat ->
  fh_size fmt <= Z.of_nat (length data) ->
  fh_sync_word fmt (take (Z.to_nat (fh_size fmt)) data) = MARK6_SG_SYNC_WORD fmt ->
  fh_version fmt (take (Z.to_nat (fh_size fmt)) data) = 2 ->
  block_walk fmt fuel data (fh_size fmt) = [] ->
  exists p' o,
    mk6_open fmt fuel (Some recname) (Some [mp]) p = Some (p', Ret (-1))
    /\ openedFiles p' = openedFiles p
    /\ os_errno (proc_os p') = ENOENT
    /\ os_fds (proc_os p) !! fresh_fd (os_fds (proc_os p)) = None
    /\ os_fds (proc_os p')
       = <[fresh_fd (os_fds (proc_os p)) := o]> (os_fds (proc_os p)).
Proof.
  intros Hfmt Hname Hfile Hfd Hdata Hfuel Hheader Hsync Hversion Hwalk.
  destruct (scanMk6RecordingFile_walk fmt Hfmt _ (proc_os p) data fuel Hfile Hfd
              Hdata Hheader Hsync Hversion Hfuel [])
    as (os' & Hrun & _ & Hother & Hopen).
  rewrite Hwalk in Hrun, Hopen. cbn [scan_blocks] in Hrun, Hopen.
  destruct Hopen as [o Ho].
  unfold mk6_open. destruct recname as [|a n]; [congruence|].
  change (direntries_of_list [mp]) with [mp]. cbn [scanMk6Recording].
  unfold scanMk6RecordingMountpoint_thrd, sys_lstat. rewrite Hfile, Hrun.
  cbn [merge_chunks install_chunks].
  eexists. exists o. split; [reflexivity|]. cbn [openedFiles proc_os with_errno with_os].
  split; [reflexivity|]. split; [reflexivity|].
  split; [apply fresh_fd_free|]. cbn [os_fds set_errno].
  apply map_eq. intros k.
  destruct (decide (k = fresh_fd (os_fds (proc_os p)))) as [->|Hne].
  - now rewrite lookup_insert_eq.
  - rewrite lookup_insert_ne by congruence. now apply Hother.
Qed.

Lemma mk6_open_header_only_witness :
  exists p' o,
    mk6_open mk6_layout 100 (Some "rec_H"%string) (Some ["/mnt/disk0"%string])
      mk6_header_only_process = Some (p', Ret (-1))
    /\ os_errno (proc_os p') = ENOENT
    /\ os_fds (proc_os p') = <[3 := o]> stdio_fds.
Proof.
  destruct (mk6_open_header_only mk6_layout 100 "rec_H" "/mnt/disk0"
              mk6_header_only_process mk6_file_header_bytes mk6_layout_wf)
    as (p' & o & H1 & _ & H3 & _ & H5).
  - discriminate.
  - vm_compute. reflexivity.
  - vm_compute. split; [reflexivity|discriminate].
  - vm_compute. discriminate.
  - vm_compute. lia.
  - vm_compute. discriminate.
  - vm_compute. reflexivity.
  - vm_compute. reflexivity.
  - vm_compute. reflexivity.
  - exists p', o. split; [exact H1|]. split; [exact H3|exact H5].
Defined.
